(** * Migration 0047 (revision 2b47dc6bc8df): add dag versioning

    A model of [airflow/migrations/versions/0047_3_0_0_add_dag_versioning.py].
    The migration is a straight-line sequence of Alembic operations; each
    operation is a partial function on a database state (catalog plus rows),
    and [upgrade] / [downgrade] are the sequences the source writes down.

    A second, independent part models the pre-commit script
    [scripts/ci/pre_commit/check_license.py]. *)

From Stdlib Require Import ZArith NArith List DecimalString.
From stdpp Require Import base option list strings gmap fin_maps.

Local Open Scope string_scope.
Local Open Scope Z_scope.
Local Open Scope list_scope.

(** ** SQLAlchemy vocabulary used by the migration *)

(** Column types that occur in the source.  [Text_MEDIUMTEXT] is
    [sa.Text().with_variant(MEDIUMTEXT(), "mysql")]; [StringID] is the
    imported [airflow.migrations.db_types.StringID]. *)
Inductive sa_type : Type :=
| BigInteger
| Integer
| String (length : Z)
| Text_MEDIUMTEXT
| UtcDateTime
| JSONField
| LargeBinary
| UUIDType (binary : bool)
| StringID.

#[global] Instance sa_type_eq_dec : EqDecision sa_type.
Proof. solve_decision. Defined.

(** [sa.BIGINT] is the upper-case SQL spelling of [sa.BigInteger]. *)
Definition BIGINT : sa_type := BigInteger.

(** Python callables handed to [default=] / [onupdate=]. *)
Inductive callable : Type := timezone_utcnow.

(** Keyword arguments of [sa.Column]. *)
Inductive column_kwarg : Type :=
| nullable (b : bool)
| primary_key (b : bool)
| default_ (f : callable)
| onupdate (f : callable)
| autoincrement (b : bool)
| server_default (s : string).

(** The Python-side [sa.Column] object.  [default] and [onupdate] are
    client-side hooks of the ORM: they never reach the DDL. *)
Record Column : Type := {
  c_name : string;
  c_type : sa_type;
  c_nullable : option bool;
  c_primary_key : bool;
  c_default : option callable;
  c_onupdate : option callable;
  c_autoincrement : option bool;
  c_server_default : option string
}.

Definition apply_kwarg (c : Column) (k : column_kwarg) : Column :=
  match k with
  | nullable b =>
      {| c_name := c_name c; c_type := c_type c; c_nullable := Some b;
         c_primary_key := c_primary_key c; c_default := c_default c;
         c_onupdate := c_onupdate c; c_autoincrement := c_autoincrement c;
         c_server_default := c_server_default c |}
  | primary_key b =>
      {| c_name := c_name c; c_type := c_type c; c_nullable := c_nullable c;
         c_primary_key := b; c_default := c_default c;
         c_onupdate := c_onupdate c; c_autoincrement := c_autoincrement c;
         c_server_default := c_server_default c |}
  | default_ f =>
      {| c_name := c_name c; c_type := c_type c; c_nullable := c_nullable c;
         c_primary_key := c_primary_key c; c_default := Some f;
         c_onupdate := c_onupdate c; c_autoincrement := c_autoincrement c;
         c_server_default := c_server_default c |}
  | onupdate f =>
      {| c_name := c_name c; c_type := c_type c; c_nullable := c_nullable c;
         c_primary_key := c_primary_key c; c_default := c_default c;
         c_onupdate := Some f; c_autoincrement := c_autoincrement c;
         c_server_default := c_server_default c |}
  | autoincrement b =>
      {| c_name := c_name c; c_type := c_type c; c_nullable := c_nullable c;
         c_primary_key := c_primary_key c; c_default := c_default c;
         c_onupdate := c_onupdate c; c_autoincrement := Some b;
         c_server_default := c_server_default c |}
  | server_default s =>
      {| c_name := c_name c; c_type := c_type c; c_nullable := c_nullable c;
         c_primary_key := c_primary_key c; c_default := c_default c;
         c_onupdate := c_onupdate c; c_autoincrement := c_autoincrement c;
         c_server_default := Some s |}
  end.

(** [sa.Column(name, type, **kwargs)]. *)
Definition sa_Column (name : string) (ty : sa_type) (kw : list column_kwarg) : Column :=
  fold_left apply_kwarg kw
    {| c_name := name; c_type := ty; c_nullable := None; c_primary_key := false;
       c_default := None; c_onupdate := None; c_autoincrement := None;
       c_server_default := None |}.

(** [ondelete=] of a foreign key.  The migration only ever writes
    ["CASCADE"] or leaves the argument out. *)
Inductive referential_action : Type := NO_ACTION | CASCADE.

#[global] Instance referential_action_eq_dec : EqDecision referential_action.
Proof. solve_decision. Defined.

(** Table-level schema items as SQLAlchemy spells them.  A foreign key's
    target ["dag.dag_id"] is kept as the pair [("dag", "dag_id")]. *)
Inductive Constraint : Type :=
| ForeignKeyConstraint (columns : list string) (refcolumns : list (string * string))
    (name : string) (ondelete : referential_action)
| PrimaryKeyConstraint (columns : list string) (name : string)
| UniqueConstraint (columns : list string) (name : string)
| sa_Index (name : string) (columns : list string) (unique : bool).

(** The ["pk"] template of a [naming_convention] dictionary, as a function
    of the table name. *)
Record NamingConvention : Type := { nc_pk : string → string }.

(** ** Database state *)

(** What the catalog stores about a column. *)
Record DbColumn : Type := {
  col_name : string;
  col_type : sa_type;
  col_nullable : bool;
  col_default : option string
}.

#[global] Instance DbColumn_eq_dec : EqDecision DbColumn.
Proof. solve_decision. Defined.

Record PrimaryKey : Type := { pk_name : option string; pk_columns : list string }.
Record Unique : Type := { uq_name : string; uq_columns : list string }.
Record ForeignKey : Type := {
  fk_name : string;
  fk_columns : list string;
  fk_ref_table : string;
  fk_ref_columns : list string;
  fk_ondelete : referential_action
}.
Record Index : Type := { ix_name : string; ix_columns : list string; ix_unique : bool }.

#[global] Instance PrimaryKey_eq_dec : EqDecision PrimaryKey.
Proof. solve_decision. Defined.
#[global] Instance Unique_eq_dec : EqDecision Unique.
Proof. solve_decision. Defined.
#[global] Instance ForeignKey_eq_dec : EqDecision ForeignKey.
Proof. solve_decision. Defined.
#[global] Instance Index_eq_dec : EqDecision Index.
Proof. solve_decision. Defined.

Record TableSchema : Type := {
  ts_columns : list DbColumn;
  ts_pk : option PrimaryKey;
  ts_uniques : list Unique;
  ts_fks : list ForeignKey;
  ts_indexes : list Index
}.

#[global] Instance TableSchema_eq_dec : EqDecision TableSchema.
Proof. solve_decision. Defined.

(** SQL values; a row maps column names to values, a missing key reads
    as NULL. *)
Inductive value : Type := VNull | VInt (z : Z) | VStr (s : string).

#[global] Instance value_eq_dec : EqDecision value.
Proof. solve_decision. Defined.

Abbreviation Row := (gmap string value).

Definition field (r : Row) (c : string) : value := default VNull (r !! c).

Record Table : Type := { tbl_schema : TableSchema; tbl_rows : list Row }.

(** The database: table name to table. *)
Abbreviation DB := (gmap string Table).

(** A migration step either fails (the statement raises) or yields the
    next database state. *)
Abbreviation Step := (DB → option DB).

Definition column_names (s : TableSchema) : list string := col_name <$> ts_columns s.

Definition has_column (s : TableSchema) (c : string) : bool :=
  bool_decide (c ∈ column_names s).

Definition has_columns (s : TableSchema) (cs : list string) : bool :=
  forallb (has_column s) cs.

Definition mentions (c : string) (cs : list string) : bool := bool_decide (c ∈ cs).

(** ** Table descriptions: [sa.Table] and the body of [op.create_table] *)

Definition render_column (c : Column) : DbColumn :=
  {| col_name := c_name c;
     col_type := c_type c;
     col_nullable := default (negb (c_primary_key c)) (c_nullable c);
     col_default := c_server_default c |}.

Definition flagged_pk (name : option string) (cols : list Column) : option PrimaryKey :=
  match List.filter c_primary_key cols with
  | [] => None
  | pks => Some {| pk_name := name; pk_columns := c_name <$> pks |}
  end.

Fixpoint explicit_pk (cs : list Constraint) : option PrimaryKey :=
  match cs with
  | [] => None
  | PrimaryKeyConstraint cols name :: _ =>
      Some {| pk_name := Some name; pk_columns := cols |}
  | _ :: cs' => explicit_pk cs'
  end.

Definition unique_of (c : Constraint) : option Unique :=
  match c with
  | UniqueConstraint cols name => Some {| uq_name := name; uq_columns := cols |}
  | _ => None
  end.

Definition foreign_key_of (c : Constraint) : option ForeignKey :=
  match c with
  | ForeignKeyConstraint cols refs name ondelete =>
      Some {| fk_name := name; fk_columns := cols;
              fk_ref_table := from_option fst "" (head refs);
              fk_ref_columns := snd <$> refs;
              fk_ondelete := ondelete |}
  | _ => None
  end.

Definition index_of (c : Constraint) : option Index :=
  match c with
  | sa_Index name cols u => Some {| ix_name := name; ix_columns := cols; ix_unique := u |}
  | _ => None
  end.

(** The schema a list of columns and constraints describes.  An explicit
    [PrimaryKeyConstraint] wins over [primary_key=True] flags; a key that
    only comes from flags is named [pkname]. *)
Definition describe (pkname : option string) (cols : list Column)
    (cs : list Constraint) : TableSchema :=
  {| ts_columns := render_column <$> cols;
     ts_pk := match explicit_pk cs with
              | Some pk => Some pk
              | None => flagged_pk pkname cols
              end;
     ts_uniques := omap unique_of cs;
     ts_fks := omap foreign_key_of cs;
     ts_indexes := omap index_of cs |}.

Record TableDesc : Type := { td_name : string; td_schema : TableSchema }.

(** [sa.MetaData(naming_convention=...)]. *)
Definition MetaData (naming_convention : NamingConvention) : NamingConvention :=
  naming_convention.

(** [sa.Table(name, metadata, *columns, *items)]: constraints left unnamed
    are named by the metadata's convention. *)
Definition sa_Table (name : string) (metadata : NamingConvention)
    (cols : list Column) (items : list Constraint) : TableDesc :=
  {| td_name := name;
     td_schema := describe (Some (nc_pk metadata name)) cols items |}.

(** ** Row-level integrity *)

Definition key_of (cols : list string) (r : Row) : list value := field r <$> cols.

Definition has_null (k : list value) : bool :=
  existsb (λ v, bool_decide (v = VNull)) k.

(** SQL uniqueness: two rows collide when their keys are equal and free
    of NULLs. *)
Definition collides (cols : list string) (r r' : Row) : bool :=
  negb (has_null (key_of cols r)) && bool_decide (key_of cols r = key_of cols r').

Fixpoint unique_on (cols : list string) (rows : list Row) : bool :=
  match rows with
  | [] => true
  | r :: rs => negb (existsb (collides cols r) rs) && unique_on cols rs
  end.

Definition not_null_on (cols : list string) (rows : list Row) : bool :=
  forallb (λ r, negb (has_null (key_of cols r))) rows.

(** A child row references a parent row through [fk]. *)
Definition references (fk : ForeignKey) (child parent : Row) : bool :=
  negb (has_null (key_of (fk_columns fk) child))
  && bool_decide (key_of (fk_columns fk) child = key_of (fk_ref_columns fk) parent).

Definition rows_of (db : DB) (t : string) : list Row :=
  from_option tbl_rows [] (db !! t).

Definition fks_of (db : DB) (t : string) : list ForeignKey :=
  from_option (λ tbl, ts_fks (tbl_schema tbl)) [] (db !! t).

Definition with_rows (t : Table) (rows : list Row) : Table :=
  {| tbl_schema := tbl_schema t; tbl_rows := rows |}.

(** ** INSERT *)

Definition fill_default (r : Row) (c : DbColumn) : Row :=
  match r !! col_name c, col_default c with
  | None, Some d => <[col_name c := VStr d]> r
  | _, _ => r
  end.

Definition fk_satisfied (db : DB) (fk : ForeignKey) (r : Row) : bool :=
  has_null (key_of (fk_columns fk) r)
  || existsb (references fk r) (rows_of db (fk_ref_table fk)).

(** [INSERT INTO t VALUES r]: rejected when a column is unknown, a NOT NULL
    or primary-key column is NULL, a primary key or unique constraint
    already holds the key, or a foreign key has no parent row. *)
Definition insert_row (t : string) (r0 : Row) : Step := λ db,
  tbl ← db !! t;
  let s := tbl_schema tbl in
  let r := fold_left fill_default (ts_columns s) r0 in
  let pk_cols := from_option pk_columns [] (ts_pk s) in
  if bool_decide (map_Forall (λ c _, c ∈ column_names s) r)
     && forallb (λ c, col_nullable c || negb (has_null (key_of [col_name c] r)))
          (ts_columns s)
     && negb (has_null (key_of pk_cols r))
     && match ts_pk s with
        | Some _ => negb (existsb (collides pk_cols r) (tbl_rows tbl))
        | None => true
        end
     && forallb (λ u, negb (existsb (collides (uq_columns u) r) (tbl_rows tbl)))
          (ts_uniques s)
     && forallb (λ fk, fk_satisfied db fk r) (ts_fks s)
  then Some (<[t := with_rows tbl (tbl_rows tbl ++ [r])]> db)
  else None.

(** ** DELETE with referential actions

    A cascade chain never visits a row twice, so following as many links
    as there are rows in the database reaches every row the statement
    removes ([doomed_closed] below). *)

(** Every stored row, tagged with its table. *)
Definition all_rows (db : DB) : list (string * Row) :=
  map_to_list db ≫= (λ kv, pair kv.1 <$> tbl_rows kv.2).

Definition total_rows (db : DB) : nat := length (all_rows db).

(** Row [r], holding the foreign keys [fks], points through a key with
    referential action [a] at a parent row marked [dead]. *)
Definition pulled (a : referential_action) (db : DB) (dead : string → Row → bool)
    (fks : list ForeignKey) (r : Row) : bool :=
  existsb
    (λ fk, bool_decide (fk_ondelete fk = a)
           && existsb (λ p, dead (fk_ref_table fk) p && references fk r p)
                (rows_of db (fk_ref_table fk)))
    fks.

(** [doomed n db t0 victim t r]: row [r] of table [t] is removed by
    deleting the [victim] rows of [t0], through at most [n] ON DELETE
    CASCADE links. *)
Fixpoint doomed (n : nat) (db : DB) (t0 : string) (victim : Row → bool)
    (t : string) (r : Row) : bool :=
  match n with
  | O => bool_decide (t = t0) && victim r
  | S n' =>
      doomed n' db t0 victim t r
      || pulled CASCADE db (doomed n' db t0 victim) (fks_of db t) r
  end.

(** A surviving row that still points at a removed parent through a
    foreign key without CASCADE makes the statement fail. *)
Definition blocks (db : DB) (dead : string → Row → bool) (t : string)
    (tbl : Table) : bool :=
  existsb
    (λ r, negb (dead t r) && pulled NO_ACTION db dead (ts_fks (tbl_schema tbl)) r)
    (tbl_rows tbl).

Definition sweep (dead : string → Row → bool) (t : string) (tbl : Table) : option Table :=
  Some (with_rows tbl (List.filter (λ r, negb (dead t r)) (tbl_rows tbl))).

Definition delete_where (t0 : string) (victim : Row → bool) : Step := λ db,
  _ ← db !! t0;
  let dead := doomed (total_rows db) db t0 victim in
  if bool_decide (map_Forall (λ t tbl, blocks db dead t tbl = false) db)
  then Some (map_imap (sweep dead) db)
  else None.

(** ** Alembic operations *)

(** The only SQL the migration passes to [op.execute]. *)
Inductive sql_text : Type := DELETE_FROM (table : string).

Definition sa_text (s : sql_text) : sql_text := s.

Definition op_execute (s : sql_text) : Step :=
  match s with
  | DELETE_FROM t => delete_where t (λ _, true)
  end.

(** [op.f(name)]: the name already follows the naming convention. *)
Definition f (name : string) : string := name.

(** Statements run in order; the first failure aborts the rest. *)
Fixpoint run (steps : list Step) : Step := λ db,
  match steps with
  | [] => Some db
  | s :: rest => db' ← s db; run rest db'
  end.

Definition fk_target_ok (db : DB) (fk : ForeignKey) : bool :=
  match db !! fk_ref_table fk with
  | Some t => has_columns (tbl_schema t) (fk_ref_columns fk)
  | None => false
  end.

(** [op.create_table(name, *columns, *constraints)]. *)
Definition op_create_table (name : string) (cols : list Column)
    (cs : list Constraint) : Step := λ db,
  match db !! name with
  | Some _ => None
  | None =>
      let s := describe None cols cs in
      if forallb (fk_target_ok db) (ts_fks s)
      then Some (<[name := {| tbl_schema := s; tbl_rows := [] |}]> db)
      else None
  end.

Definition referenced_by (name : string) (tbl : Table) : bool :=
  existsb (λ fk, bool_decide (fk_ref_table fk = name)) (ts_fks (tbl_schema tbl)).

(** [op.drop_table(name)]: refused while another table still has a
    foreign key into it. *)
Definition op_drop_table (name : string) : Step := λ db,
  _ ← db !! name;
  if bool_decide (map_Forall (λ _ tbl, referenced_by name tbl = false) (delete name db))
  then Some (delete name db)
  else None.

(** *** Column order of a rebuilt table

    When a batch rebuilds its table, Alembic's [ApplyBatchImpl] appends
    every added column to its column dictionary and keeps, besides, the
    names of the original columns that are still there
    ([existing_ordering]) and a list of pairs [(a, b)], "a comes before b"
    ([add_col_ordering]).  When the batch ends the columns are sorted
    topologically by these pairs. *)
Record Ordering : Type := {
  existing_ordering : list string;
  add_col_ordering : list (string * string)
}.

(** [l.remove(x)]: the list without its first [x]; a [ValueError] when
    there is none. *)
Fixpoint remove (x : string) (l : list string) : option (list string) :=
  match l with
  | [] => None
  | y :: l' => if bool_decide (y = x) then Some l' else cons y <$> remove x l'
  end.

(** [{b: a for a, b in pairs}[key]]: the last pair that ends in [key]
    wins; a [KeyError] when there is none. *)
Definition before_of (pairs : list (string * string)) (key : string) : option string :=
  fst <$> List.find (λ p, bool_decide (p.2 = key)) (rev pairs).

(** [ApplyBatchImpl._setup_dependencies_for_add_column], as called by
    [add_column(column, insert_before=...)]: the source never passes
    [insert_after] nor a [partial_reordering]. *)
Definition _setup_dependencies_for_add_column (colname : string)
    (insert_before : option string) (o : Ordering) : option Ordering :=
  let index_cols := existing_ordering o in
  match insert_before with
  | Some b =>
      insert_after ←
        match list_find (λ c, c = b) index_cols with
        | Some (idx, _) =>
            (* insert before an existing column *)
            Some (match idx with O => None | S idx' => index_cols !! idx' end)
        | None =>
            (* insert before a column that is also new *)
            Some <$> before_of (add_col_ordering o) b
        end;
      Some {| existing_ordering := index_cols;
              add_col_ordering :=
                add_col_ordering o
                ++ (colname, b)
                   :: match insert_after with Some a => [(a, colname)] | None => [] end |}
  | None =>
      Some {| existing_ordering := index_cols;
              add_col_ordering :=
                add_col_ordering o
                ++ match last index_cols with Some l => [(l, colname)] | None => [] end |}
  end.

(** [sqlalchemy.util.topological.sort]: in rounds, the items none of
    whose parents is still to do are put out, in the order of [allitems];
    a round that puts out nothing is a [CircularDependencyError].  Each
    round takes at least one item, so [length allitems] rounds are
    enough. *)
Fixpoint sort_as_subsets (rounds : nat) (tuples : list (string * string))
    (todo : list string) : option (list string) :=
  match todo, rounds with
  | [], _ => Some []
  | _, O => None
  | _, S rounds' =>
      let output :=
        List.filter
          (λ node, forallb (λ p, negb (bool_decide (p.2 = node) && mentions p.1 todo)) tuples)
          todo in
      match output with
      | [] => None
      | _ =>
          (output ++.)
            <$> sort_as_subsets rounds' tuples
                  (List.filter (λ t, negb (mentions t output)) todo)
      end
  end.

Definition topological_sort (tuples : list (string * string))
    (allitems : list string) : option (list string) :=
  sort_as_subsets (length allitems) tuples allitems.

(** [ApplyBatchImpl._adjust_self_columns_for_partial_reordering]: the
    surviving original columns keep their relative order, and the pairs
    collected by [add_column] place the new ones. *)
Definition _adjust_self_columns_for_partial_reordering (o : Ordering)
    (columns : list DbColumn) : option (list DbColumn) :=
  let col_by_idx := col_name <$> columns in
  let pairs := zip col_by_idx (tail (existing_ordering o)) ++ add_col_ordering o in
  let pairs_list := List.filter (λ p, negb (bool_decide (p.1 = p.2))) pairs in
  sorted_ ← topological_sort pairs_list col_by_idx;
  mapM (λ k, List.find (λ c, bool_decide (col_name c = k)) columns) sorted_.

(** A batch operation acts on the table the batch was opened on; the
    database is only consulted to validate foreign keys.  Alembic records
    the operations of the block and replays them when the block ends,
    either as ALTER statements on the table or on the [ApplyBatchImpl]
    that rebuilds it; in the second case an operation also updates the
    column bookkeeping.  [needs_recreate] marks an operation that is
    refused ([CommandError]) unless the table is rebuilt. *)
Record BatchOp : Type := {
  on_table :> DB → Table → option Table;
  on_ordering : Ordering → option Ordering;
  needs_recreate : bool
}.

(** An operation that leaves the column bookkeeping alone. *)
Definition table_op (alter : DB → Table → option Table) : BatchOp :=
  {| on_table := alter; on_ordering := Some; needs_recreate := false |}.

Definition set_schema (t : Table) (s : TableSchema) : Table :=
  {| tbl_schema := s; tbl_rows := tbl_rows t |}.

Inductive constraint_type : Type := primary | foreignkey | unique.

(** [batch_op.drop_constraint(name, type_=...)]: the named constraint must
    exist. *)
Definition drop_constraint (name : string) (type_ : constraint_type) : BatchOp :=
  table_op (λ _ t,
  let s := tbl_schema t in
  match type_ with
  | primary =>
      match ts_pk s with
      | Some pk =>
          if bool_decide (pk_name pk = Some name)
          then Some (set_schema t
                 {| ts_columns := ts_columns s; ts_pk := None;
                    ts_uniques := ts_uniques s; ts_fks := ts_fks s;
                    ts_indexes := ts_indexes s |})
          else None
      | None => None
      end
  | foreignkey =>
      if existsb (λ fk, bool_decide (fk_name fk = name)) (ts_fks s)
      then Some (set_schema t
             {| ts_columns := ts_columns s; ts_pk := ts_pk s;
                ts_uniques := ts_uniques s;
                ts_fks := List.filter (λ fk, negb (bool_decide (fk_name fk = name)))
                            (ts_fks s);
                ts_indexes := ts_indexes s |})
      else None
  | unique =>
      if existsb (λ u, bool_decide (uq_name u = name)) (ts_uniques s)
      then Some (set_schema t
             {| ts_columns := ts_columns s; ts_pk := ts_pk s;
                ts_uniques := List.filter (λ u, negb (bool_decide (uq_name u = name)))
                                (ts_uniques s);
                ts_fks := ts_fks s;
                ts_indexes := ts_indexes s |})
      else None
  end).

Definition pk_add (c : string) (pk : option PrimaryKey) : option PrimaryKey :=
  match pk with
  | None => Some {| pk_name := None; pk_columns := [c] |}
  | Some p => Some {| pk_name := pk_name p; pk_columns := pk_columns p ++ [c] |}
  end.

Definition initial_value (c : DbColumn) : value :=
  from_option VStr VNull (col_default c).

(** [batch_op.add_column(column, insert_before=...)].  Existing rows get
    the server default or NULL, so a NOT NULL column without a server
    default can only be added to a table that holds no rows.  The column
    goes to the end; [insert_before] is only accepted when the table is
    rebuilt, and then places the column through the bookkeeping. *)
Definition add_column (column : Column) (insert_before : option string) : BatchOp :=
  {| on_table := λ _ t,
       let s := tbl_schema t in
       let c := render_column column in
       if has_column s (col_name c) then None
       else if negb (col_nullable c) && bool_decide (col_default c = None)
               && negb (bool_decide (tbl_rows t = []))
       then None
       else
         Some {| tbl_schema :=
                   {| ts_columns := ts_columns s ++ [c];
                      ts_pk := if c_primary_key column then pk_add (col_name c) (ts_pk s)
                               else ts_pk s;
                      ts_uniques := ts_uniques s; ts_fks := ts_fks s;
                      ts_indexes := ts_indexes s |};
                 tbl_rows := (λ r : Row, <[col_name c := initial_value c]> r)
                               <$> tbl_rows t |};
     on_ordering := _setup_dependencies_for_add_column (c_name column) insert_before;
     needs_recreate := bool_decide (is_Some insert_before) |}.

Definition pk_remove (c : string) (pk : option PrimaryKey) : option PrimaryKey :=
  match pk with
  | None => None
  | Some p =>
      if mentions c (pk_columns p) then
        match List.filter (λ x, negb (bool_decide (x = c))) (pk_columns p) with
        | [] => None
        | cs => Some {| pk_name := pk_name p; pk_columns := cs |}
        end
      else Some p
  end.

(** [batch_op.drop_column(name)].  The column leaves the primary key, and
    unique constraints, foreign keys and indexes built on it go with it.
    In a rebuilt table the column must be one of the original ones
    ([existing_ordering.remove(name)]). *)
Definition drop_column (name : string) : BatchOp :=
  {| on_table := λ _ t,
       let s := tbl_schema t in
       if has_column s name then
         Some {| tbl_schema :=
                   {| ts_columns := List.filter (λ c, negb (bool_decide (col_name c = name)))
                                      (ts_columns s);
                      ts_pk := pk_remove name (ts_pk s);
                      ts_uniques := List.filter (λ u, negb (mentions name (uq_columns u)))
                                      (ts_uniques s);
                      ts_fks := List.filter (λ fk, negb (mentions name (fk_columns fk)))
                                  (ts_fks s);
                      ts_indexes := List.filter (λ i, negb (mentions name (ix_columns i)))
                                      (ts_indexes s) |};
                 tbl_rows := (λ r : Row, delete name r) <$> tbl_rows t |}
       else None;
     on_ordering := λ o,
       existing ← remove name (existing_ordering o);
       Some {| existing_ordering := existing; add_col_ordering := add_col_ordering o |};
     needs_recreate := false |}.

(** [batch_op.create_primary_key(name, columns)].  A key that is already
    there on the same columns (from [primary_key=True] on an added column)
    is replaced by the named one. *)
Definition create_primary_key (name : string) (columns : list string) : BatchOp :=
  table_op (λ _ t,
  let s := tbl_schema t in
  if has_columns s columns
     && match ts_pk s with
        | None => true
        | Some p => bool_decide (pk_columns p = columns)
        end
     && not_null_on columns (tbl_rows t)
     && unique_on columns (tbl_rows t)
  then Some (set_schema t
         {| ts_columns := ts_columns s;
            ts_pk := Some {| pk_name := Some name; pk_columns := columns |};
            ts_uniques := ts_uniques s; ts_fks := ts_fks s;
            ts_indexes := ts_indexes s |})
  else None).

(** [batch_op.create_foreign_key(name, referent_table, local_cols,
    remote_cols, ondelete=...)]: the target must exist and every stored
    row must already satisfy the new key. *)
Definition create_foreign_key (name : string) (referent_table : string)
    (local_cols remote_cols : list string) (ondelete : referential_action) : BatchOp :=
  table_op (λ db t,
    let s := tbl_schema t in
    let fk := {| fk_name := name; fk_columns := local_cols;
                 fk_ref_table := referent_table; fk_ref_columns := remote_cols;
                 fk_ondelete := ondelete |} in
    if fk_target_ok db fk
       && has_columns s local_cols
       && negb (existsb (λ k, bool_decide (fk_name k = name)) (ts_fks s))
       && forallb (fk_satisfied db fk) (tbl_rows t)
    then Some (set_schema t
           {| ts_columns := ts_columns s; ts_pk := ts_pk s;
              ts_uniques := ts_uniques s; ts_fks := ts_fks s ++ [fk];
              ts_indexes := ts_indexes s |})
    else None).

(** [batch_op.create_unique_constraint(name, columns)]. *)
Definition create_unique_constraint (name : string) (columns : list string) : BatchOp :=
  table_op (λ _ t,
    let s := tbl_schema t in
    if has_columns s columns
       && negb (existsb (λ u, bool_decide (uq_name u = name)) (ts_uniques s))
       && unique_on columns (tbl_rows t)
    then Some (set_schema t
           {| ts_columns := ts_columns s; ts_pk := ts_pk s;
              ts_uniques := ts_uniques s ++ [{| uq_name := name; uq_columns := columns |}];
              ts_fks := ts_fks s; ts_indexes := ts_indexes s |})
    else None).

Definition set_nullable (name : string) (b : bool) (c : DbColumn) : DbColumn :=
  if bool_decide (col_name c = name)
  then {| col_name := col_name c; col_type := col_type c; col_nullable := b;
          col_default := col_default c |}
  else c.

(** [batch_op.alter_column(name, nullable=..., onupdate=...)].  Alembic
    only acts on [nullable]; [onupdate] is a client-side hook and changes
    nothing in the database. *)
Definition alter_column (name : string) (nullable_ : option bool)
    (onupdate_ : option callable) : BatchOp :=
  table_op (λ _ t,
  let s := tbl_schema t in
  if has_column s name then
    match nullable_ with
    | None => Some t
    | Some b =>
        if b || not_null_on [name] (tbl_rows t)
        then Some (set_schema t
               {| ts_columns := set_nullable name b <$> ts_columns s;
                  ts_pk := ts_pk s; ts_uniques := ts_uniques s;
                  ts_fks := ts_fks s; ts_indexes := ts_indexes s |})
        else None
    end
  else None).

(** [batch_op.drop_index(name)]. *)
Definition drop_index (name : string) : BatchOp :=
  table_op (λ _ t,
  let s := tbl_schema t in
  if existsb (λ i, bool_decide (ix_name i = name)) (ts_indexes s)
  then Some (set_schema t
         {| ts_columns := ts_columns s; ts_pk := ts_pk s;
            ts_uniques := ts_uniques s; ts_fks := ts_fks s;
            ts_indexes := List.filter (λ i, negb (bool_decide (ix_name i = name)))
                            (ts_indexes s) |})
  else None).

(** [batch_op.create_index(name, columns, unique=...)]. *)
Definition create_index (name : string) (columns : list string) (unique_ : bool) : BatchOp :=
  table_op (λ _ t,
    let s := tbl_schema t in
    if has_columns s columns
       && negb (existsb (λ i, bool_decide (ix_name i = name)) (ts_indexes s))
       && (negb unique_ || unique_on columns (tbl_rows t))
    then Some (set_schema t
           {| ts_columns := ts_columns s; ts_pk := ts_pk s;
              ts_uniques := ts_uniques s; ts_fks := ts_fks s;
              ts_indexes := ts_indexes s
                              ++ [{| ix_name := name; ix_columns := columns;
                                     ix_unique := unique_ |}] |})
    else None).

Inductive recreate_mode : Type := auto | always.

Definition project (cols : list string) (r : Row) : Row :=
  list_to_map ((λ c, (c, field r c))
                 <$> List.filter (λ c, bool_decide (is_Some (r !! c))) cols).

(** With [recreate="always"] and [copy_from], the table is rebuilt from
    the given description instead of the live catalog: the new table
    starts from the described columns and constraints, and the rows are
    copied over column by column (so the live table must have them). *)
Definition rebase (recreate : recreate_mode) (copy_from : option TableDesc)
    (t : Table) : option Table :=
  match recreate, copy_from with
  | always, Some desc =>
      if has_columns (tbl_schema t) (column_names (td_schema desc))
      then Some {| tbl_schema := td_schema desc;
                   tbl_rows := project (column_names (td_schema desc)) <$> tbl_rows t |}
      else None
  | _, _ => Some t
  end.

(** A primary key still unnamed when the batch ends is named by the
    batch's naming convention. *)
Definition name_pk (naming : option NamingConvention) (table_name : string)
    (t : Table) : Table :=
  let s := tbl_schema t in
  match naming, ts_pk s with
  | Some nc, Some {| pk_name := None; pk_columns := cols |} =>
      set_schema t
        {| ts_columns := ts_columns s;
           ts_pk := Some {| pk_name := Some (nc_pk nc table_name); pk_columns := cols |};
           ts_uniques := ts_uniques s; ts_fks := ts_fks s;
           ts_indexes := ts_indexes s |}
  | _, _ => t
  end.

Fixpoint apply_batch (db : DB) (ops : list BatchOp) (t : Table) : option Table :=
  match ops with
  | [] => Some t
  | o :: rest => t' ← o db t; apply_batch db rest t'
  end.

Fixpoint order_batch (ops : list BatchOp) (o : Ordering) : option Ordering :=
  match ops with
  | [] => Some o
  | op :: rest => o' ← on_ordering op o; order_batch rest o'
  end.

Definition set_columns (t : Table) (cols : list DbColumn) : Table :=
  set_schema t
    {| ts_columns := cols; ts_pk := ts_pk (tbl_schema t);
       ts_uniques := ts_uniques (tbl_schema t); ts_fks := ts_fks (tbl_schema t);
       ts_indexes := ts_indexes (tbl_schema t) |}.

(** How the batch ends.  A table altered in place ([recreate="auto"])
    accepts no operation that needs a rebuild.  A rebuilt table
    ([recreate="always"]) gets its columns in the order the bookkeeping
    gives ([ApplyBatchImpl._transfer_elements_to_new_table]): [t0] is the
    table the batch started from, [t1] the table after its operations. *)
Definition arrange (recreate : recreate_mode) (batch_op : list BatchOp)
    (t0 t1 : Table) : option Table :=
  match recreate with
  | auto => if existsb needs_recreate batch_op then None else Some t1
  | always =>
      o ← order_batch batch_op
            {| existing_ordering := column_names (tbl_schema t0); add_col_ordering := [] |};
      match add_col_ordering o with
      | [] => Some t1
      | _ =>
          set_columns t1
            <$> _adjust_self_columns_for_partial_reordering o (ts_columns (tbl_schema t1))
      end
  end.

(** [with op.batch_alter_table(table_name, recreate=..., naming_convention=...,
    copy_from=...) as batch_op: ...]: the operations of the block are
    collected and applied, in order, to [table_name] when the block ends.

    With [recreate="auto"] the table is altered in place, which is what
    Alembic does on PostgreSQL and MySQL; with [recreate="always"] it is
    rebuilt.  On SQLite Alembic rebuilds the table under ["auto"] as well,
    and with foreign keys enforced dropping the old table there fires the
    referential actions of the tables that point at it; that path is not
    modelled. *)
Definition batch_alter_table (table_name : string) (recreate : recreate_mode)
    (naming : option NamingConvention) (copy_from : option TableDesc)
    (batch_op : list BatchOp) : Step := λ db,
  t ← db !! table_name;
  t0 ← rebase recreate copy_from t;
  t1 ← apply_batch db batch_op t0;
  t2 ← arrange recreate batch_op t0 t1;
  Some (<[table_name := name_pk naming table_name t2]> db).

(** ** The migration *)

Section Migration.

(** Imported from [airflow.models.base], which is not part of the
    migration file. *)
Variable ID_LEN : Z.
Variable naming_convention : NamingConvention.

Definition _delete_serdag_and_code : Step :=
  run [ op_execute (sa_text (DELETE_FROM "serialized_dag"));
        op_execute (sa_text (DELETE_FROM "dag_code")) ].

Definition old_dagcode_table : TableDesc :=
  sa_Table "dag_code" (MetaData naming_convention)
    [ sa_Column "fileloc_hash" BigInteger [nullable false; primary_key true];
      sa_Column "fileloc" (String 2000) [nullable false];
      sa_Column "last_updated" UtcDateTime [nullable false];
      sa_Column "source_code" Text_MEDIUMTEXT [nullable false] ]
    [].

Definition old_serialized_table : TableDesc :=
  sa_Table "serialized_dag" (MetaData naming_convention)
    [ sa_Column "dag_id" (String ID_LEN) [nullable false; primary_key true];
      sa_Column "fileloc" (String 2000) [nullable false];
      sa_Column "fileloc_hash" BigInteger [nullable false];
      sa_Column "data" JSONField [nullable true];
      sa_Column "data_compressed" LargeBinary [nullable true];
      sa_Column "dag_hash" (String 32) [nullable false];
      sa_Column "last_updated" UtcDateTime [nullable false];
      sa_Column "processor_subdir" (String 2000) [] ]
    [ sa_Index "idx_fileloc_hash" ["fileloc_hash"] false ].

(** The statements of [upgrade()], in source order. *)
Definition upgrade_statements : list Step :=
  [ _delete_serdag_and_code;
    op_create_table "dag_version"
      [ sa_Column "id" (UUIDType false) [nullable false];
        sa_Column "version_number" Integer [nullable false];
        sa_Column "dag_id" StringID [nullable false];
        sa_Column "created_at" UtcDateTime [nullable false; default_ timezone_utcnow];
        sa_Column "last_updated" UtcDateTime
          [nullable false; default_ timezone_utcnow; onupdate timezone_utcnow] ]
      [ ForeignKeyConstraint ["dag_id"] [("dag", "dag_id")]
          (f "dag_version_dag_id_fkey") CASCADE;
        PrimaryKeyConstraint ["id"] (f "dag_version_pkey");
        UniqueConstraint ["dag_id"; "version_number"]
          "dag_id_v_name_v_number_unique_constraint" ];
    batch_alter_table "dag_code" always (Some naming_convention) (Some old_dagcode_table)
      [ drop_constraint "dag_code_pkey" primary;
        add_column (sa_Column "id" (UUIDType false) [primary_key true])
          (Some "fileloc_hash");
        create_primary_key "dag_code_pkey" ["id"];
        add_column (sa_Column "dag_version_id" (UUIDType false) [nullable false]) None;
        create_foreign_key (f "dag_code_dag_version_id_fkey") "dag_version"
          ["dag_version_id"] ["id"] CASCADE;
        create_unique_constraint "dag_code_dag_version_id_uq" ["dag_version_id"];
        add_column (sa_Column "source_code_hash" (String 32) [nullable false]) None;
        drop_column "fileloc_hash";
        add_column (sa_Column "dag_id" (String 250) [nullable false]) None;
        add_column (sa_Column "created_at" UtcDateTime
                      [nullable false; default_ timezone_utcnow]) None;
        alter_column "last_updated" (Some false) (Some timezone_utcnow) ];
    batch_alter_table "serialized_dag" always (Some naming_convention)
      (Some old_serialized_table)
      [ drop_constraint "serialized_dag_pkey" primary;
        add_column (sa_Column "id" (UUIDType false) [primary_key true]) None;
        drop_index "idx_fileloc_hash";
        drop_column "fileloc_hash";
        drop_column "fileloc";
        create_primary_key "serialized_dag_pkey" ["id"];
        add_column (sa_Column "dag_version_id" (UUIDType false) [nullable false]) None;
        create_foreign_key (f "serialized_dag_dag_version_id_fkey") "dag_version"
          ["dag_version_id"] ["id"] CASCADE;
        create_unique_constraint "serialized_dag_dag_version_id_uq" ["dag_version_id"];
        add_column (sa_Column "created_at" UtcDateTime
                      [nullable false; default_ timezone_utcnow]) None ];
    batch_alter_table "task_instance" auto None None
      [ add_column (sa_Column "dag_version_id" (UUIDType false) []) None;
        create_foreign_key (f "task_instance_dag_version_id_fkey") "dag_version"
          ["dag_version_id"] ["id"] CASCADE ];
    batch_alter_table "task_instance_history" auto None None
      [ add_column (sa_Column "dag_version_id" (UUIDType false) []) None ];
    batch_alter_table "dag_run" auto None None
      [ drop_column "dag_hash" ] ].

(** [upgrade()]: apply add dag versioning. *)
Definition upgrade : Step := run upgrade_statements.

(** The statements of [downgrade()], in source order. *)
Definition downgrade_statements : list Step :=
  [ op_execute (sa_text (DELETE_FROM "dag_version"));
    batch_alter_table "task_instance_history" auto None None
      [ drop_column "dag_version_id" ];
    batch_alter_table "task_instance" auto None None
      [ drop_constraint (f "task_instance_dag_version_id_fkey") foreignkey;
        drop_column "dag_version_id" ];
    batch_alter_table "dag_code" auto None None
      [ drop_column "id";
        drop_constraint (f "dag_code_dag_version_id_fkey") foreignkey;
        drop_column "dag_version_id";
        add_column (sa_Column "fileloc_hash" BigInteger [nullable false]) None;
        create_primary_key "dag_code_pkey" ["fileloc_hash"];
        drop_column "source_code_hash";
        drop_column "dag_id";
        drop_column "created_at" ];
    batch_alter_table "serialized_dag" auto (Some naming_convention) None
      [ drop_column "id";
        add_column (sa_Column "fileloc" (String 2000)
                      [autoincrement false; nullable false]) None;
        add_column (sa_Column "fileloc_hash" BIGINT
                      [autoincrement false; nullable false]) None;
        create_index "idx_fileloc_hash" ["fileloc_hash"] false;
        create_primary_key "serialized_dag_pkey" ["dag_id"];
        drop_constraint (f "serialized_dag_dag_version_id_fkey") foreignkey;
        drop_column "dag_version_id";
        drop_column "created_at" ];
    batch_alter_table "dag_run" auto None None
      [ add_column (sa_Column "dag_hash" (String 32)
                      [autoincrement false; nullable true]) None ];
    op_drop_table "dag_version" ].

(** [downgrade()]: unapply add dag versioning. *)
Definition downgrade : Step := run downgrade_statements.

End Migration.

(** * The licence check: [scripts/ci/pre_commit/check_license.py]

    The script is a straight run of effects on its surroundings: it
    creates a directory, prints, runs Apache RAT in docker and reads the
    answer.  Each piece yields the events it causes and either a value or
    the way it stops the script. *)

Module check_license.

(** A Python [str]: a sequence of Unicode code points. *)
Definition str : Type := list N.

(** A string literal of the source (ASCII only). *)
Definition lit (s : string) : str := Ascii.N_of_ascii <$> String.list_ascii_of_string s.

(** [str(n)] for an [int]. *)
Definition str_of_int (n : Z) : str := lit (NilZero.string_of_int (Z.to_int n)).

(** [sep.join(parts)]. *)
Fixpoint join (sep : str) (parts : list str) : str :=
  match parts with
  | [] => []
  | [p] => p
  | p :: rest => p ++ sep ++ join sep rest
  end.

Fixpoint startswith (prefix s : str) : bool :=
  match prefix, s with
  | [], _ => true
  | _ :: _, [] => false
  | p :: prefix', c :: s' => (p =? c)%N && startswith prefix' s'
  end.

(** [sub in s]. *)
Fixpoint contains (sub s : str) : bool :=
  startswith sub s
  || match s with
     | [] => false
     | _ :: s' => contains sub s'
     end.

(** The characters [str.splitlines] breaks lines at: [\n], [\v], [\f],
    [\r], [\x1c], [\x1d], [\x1e], [\x85], U+2028 and U+2029. *)
Definition is_linebreak (c : N) : bool :=
  existsb (N.eqb c) [10; 11; 12; 13; 28; 29; 30; 133; 8232; 8233]%N.

(** [s.splitlines()], with [line] the part of the current line already
    read.  ["\r\n"] counts as one break, and a break at the very end
    opens no further line. *)
Fixpoint splitlines_from (line s : str) {struct s} : list str :=
  match s with
  | [] => match line with [] => [] | _ => [line] end
  | c :: rest =>
      if is_linebreak c then
        line :: match rest with
                | c' :: rest' =>
                    if (c =? 13)%N && (c' =? 10)%N then splitlines_from [] rest'
                    else splitlines_from [] rest
                | [] => []
                end
      else splitlines_from (line ++ [c]) rest
  end.

Definition splitlines (s : str) : list str := splitlines_from [] s.

(** [pathlib.Path]: a root, by its string form, and the parts joined to
    it with [/]. *)
Record Path : Type := { path_root : str; path_parts : list str }.

Definition Path_of (root : str) : Path := {| path_root := root; path_parts := [] |}.

Definition joinpath (p : Path) (part : string) : Path :=
  {| path_root := path_root p; path_parts := path_parts p ++ [lit part] |}.

Declare Scope path_scope.
Delimit Scope path_scope with path.
Infix "/" := joinpath : path_scope.

Inductive OSError : Type := os_error (errno : Z).

(** [subprocess.CompletedProcess], as far as the script reads it. *)
Record CompletedProcess : Type := { returncode : Z; stdout : str }.

(** What the script asks of its surroundings.  [AIRFLOW_ROOT_PATH] is
    imported from [common_precommit_utils] and stands here for its string
    form; [os.makedirs] and [subprocess.run] may raise. *)
Record Env : Type := {
  AIRFLOW_ROOT_PATH : str;
  os_getuid : Z;
  os_getgid : Z;
  os_makedirs : Path → bool → option OSError;
  subprocess_run : list str → OSError + CompletedProcess
}.

(** The visible effects, in order. *)
Inductive event : Type :=
| ev_makedirs (path : Path) (exist_ok : bool)
| ev_print (text : str)
| ev_run (cmd : list str) (capture_output text check : bool).

(** How a run ends other than by reaching the end of the file. *)
Inductive exit : Type :=
| SystemExit (code : Z)
| Uncaught (e : OSError).

(** A piece of the script: the events it causes, and either the way it
    stops the script or its value. *)
Definition io (A : Type) : Type := list event * (exit + A).

#[export] Instance io_ret : MRet io := λ A a, ([], inr a).

#[export] Instance io_bind : MBind io := λ A B k m,
  match m with
  | (tr, inl e) => (tr, inl e)
  | (tr, inr a) => (tr ++ (k a).1, (k a).2)
  end.

Definition print (text : str) : io unit := ([ev_print text], inr tt).

Definition sys_exit (code : Z) : io unit := ([], inl (SystemExit code)).

Definition makedirs (env : Env) (path : Path) (exist_ok : bool) : io unit :=
  ([ev_makedirs path exist_ok],
   match os_makedirs env path exist_ok with
   | Some e => inl (Uncaught e)
   | None => inr tt
   end).

Definition run (env : Env) (cmd : list str) (capture_output text check : bool) :
    io CompletedProcess :=
  ([ev_run cmd capture_output text check],
   match subprocess_run env cmd with
   | inl e => inl (Uncaught e)
   | inr result => inr result
   end).

(** [for x in xs: body(x)]. *)
Fixpoint for_ {A} (xs : list A) (body : A → io unit) : io unit :=
  match xs with
  | [] => mret tt
  | x :: rest => body x ≫= λ _, for_ rest body
  end.

(** ["\033[0;31m"] and ["\033[0m"]. *)
Definition red : str := 27%N :: lit "[0;31m".
Definition reset : str := 27%N :: lit "[0m".

Definition cmd (env : Env) : list str :=
  [ lit "docker";
    lit "run";
    lit "-v";
    AIRFLOW_ROOT_PATH env ++ lit ":/opt/airflow";
    lit "-t";
    lit "--user";
    str_of_int (os_getuid env) ++ lit ":" ++ str_of_int (os_getgid env);
    lit "--rm";
    lit "--platform";
    lit "linux/amd64";
    lit "ghcr.io/apache/airflow-apache-rat:0.16.1-2024.03.23@sha256:83c4d2610ec4a439d1809a67fadbdc9a1df089ab130b32209351bdd4527a3f02";
    lit "-d";
    lit "/opt/airflow";
    lit "--exclude-file";
    lit "/opt/airflow/.rat-excludes" ].

(** The directory the script creates first. *)
Definition docs_html (env : Env) : Path :=
  (Path_of (AIRFLOW_ROOT_PATH env) / "docs" / "_build" / "html")%path.

Definition unknown_licences (output : str) : list str :=
  List.filter (contains (lit "??")) (splitlines output).

(** The script, top to bottom. *)
Definition main (env : Env) : io unit :=
  makedirs env (docs_html env) true ≫= λ _,
  print (lit "Running command:") ≫= λ _,
  print (join (lit " ") (cmd env)) ≫= λ _,
  print [] ≫= λ _,
  run env (cmd env) true true false ≫= λ result,
  let output := stdout result in
  (if bool_decide (returncode result ≠ 0) then
     print (red ++ lit "ERROR: " ++ str_of_int (returncode result)
              ++ lit " when running rat" ++ reset ++ [10%N]) ≫= λ _,
     print output ≫= λ _,
     sys_exit (returncode result)
   else mret tt) ≫= λ _,
  (if bool_decide (unknown_licences output ≠ []) then
     print (red ++ lit "ERROR: Could not find Apache licences in some files:"
              ++ reset ++ [10%N]) ≫= λ _,
     for_ (unknown_licences output) print ≫= λ _,
     print [] ≫= λ _,
     sys_exit 1
   else mret tt).

(** A sample run: RAT answers with exit status [rc] and the report
    [out]; nothing raises. *)
Definition sample_env (rc : Z) (out : str) : Env :=
  {| AIRFLOW_ROOT_PATH := lit "/opt/src/airflow";
     os_getuid := 1000;
     os_getgid := 1000;
     os_makedirs := λ _ _, None;
     subprocess_run := λ _, inr {| returncode := rc; stdout := out |} |}.

Definition sample_report : str :=
  lit " AL    /opt/airflow/setup.py" ++ [13; 10]%N
  ++ lit " ??    /opt/airflow/scripts/new_tool.py" ++ [13; 10]%N.

End check_license.

(** * Vocabulary of the proofs *)

(** [marked db t0 victim n (t, r)]: row [r] of [t] is removed at cascade
    depth [n]; level [n] is settled when depth [n+1] marks no further
    stored row. *)
Definition marked (db : DB) (t0 : string) (victim : Row → bool) (n : nat)
    (kv : string * Row) : bool :=
  doomed n db t0 victim kv.1 kv.2.

Definition settled (db : DB) (t0 : string) (victim : Row → bool) (n : nat) : Prop :=
  ∀ kv, kv ∈ all_rows db → marked db t0 victim (S n) kv = marked db t0 victim n kv.

Definition catalog (db : DB) (t : string) : option TableSchema :=
  tbl_schema <$> db !! t.

Definition filled (s : TableSchema) (r : Row) : Row :=
  fold_left fill_default (ts_columns s) r.

(** Every foreign key a row satisfied before the DELETE it still
    satisfies afterwards: ON DELETE CASCADE removes the row together with
    its parent, and any other key makes the statement fail instead. *)
Definition fk_holds (db : DB) (t : string) (fk : ForeignKey) : Prop :=
  ∀ r, r ∈ rows_of db t → fk_satisfied db fk r = true.

Definition no_inbound (db : DB) (t0 : string) : Prop :=
  map_Forall (λ _ tbl, referenced_by t0 tbl = false) db.

Definition declared_unique (db : DB) (t : string) (cols : list string) : Prop :=
  ∃ s u, catalog db t = Some s ∧ u ∈ ts_uniques s ∧ uq_columns u = cols.

Definition declared_not_null (db : DB) (t : string) (c : string) : Prop :=
  ∃ s col, catalog db t = Some s ∧ col ∈ ts_columns s
           ∧ col_name col = c ∧ col_nullable col = false.

Definition keyed (db : DB) (t : string) (c : string) : Prop :=
  ∀ r, r ∈ rows_of db t → field r c ≠ VNull.

Inductive dml : Type :=
| INSERT (t : string) (r : Row)
| DELETE (t : string) (victim : Row → bool).

Definition statement (s : dml) : Step :=
  match s with
  | INSERT t r => insert_row t r
  | DELETE t victim => delete_where t victim
  end.

(** A rejected statement leaves the database as it was. *)
Definition exec (db : DB) (s : dml) : DB := default db (statement s db).

Definition session (db : DB) (l : list dml) : DB := fold_left exec l db.

(** A reference, held in column [column_] of [child], to the row of
    [parent] whose [pcolumn] has the same value, resolves when it is NULL
    or that row exists. *)
Definition resolves (db : DB) (child column_ parent pcolumn : string) : bool :=
  forallb
    (λ r, bool_decide (field r column_ = VNull)
          || existsb (λ p, bool_decide (field p pcolumn = field r column_))
               (rows_of db parent))
    (rows_of db child).

(** The column called [name], if the table has one. *)
Definition column (s : TableSchema) (name : string) : option DbColumn :=
  List.find (λ c, bool_decide (col_name c = name)) (ts_columns s).

(** [c] appears in a constraint or index of the table. *)
Definition constrained (s : TableSchema) (c : string) : bool :=
  from_option (λ pk, mentions c (pk_columns pk)) false (ts_pk s)
  || existsb (λ u, mentions c (uq_columns u)) (ts_uniques s)
  || existsb (λ fk, mentions c (fk_columns fk)) (ts_fks s)
  || existsb (λ i, mentions c (ix_columns i)) (ts_indexes s).

Definition col (name : string) (ty : sa_type) (null : bool) : DbColumn :=
  {| col_name := name; col_type := ty; col_nullable := null; col_default := None |}.

Definition fk_to_dag_version (name : string) : ForeignKey :=
  {| fk_name := name; fk_columns := ["dag_version_id"];
     fk_ref_table := "dag_version"; fk_ref_columns := ["id"];
     fk_ondelete := CASCADE |}.

Definition fk_dag_version_to_dag : ForeignKey :=
  {| fk_name := "dag_version_dag_id_fkey"; fk_columns := ["dag_id"];
     fk_ref_table := "dag"; fk_ref_columns := ["dag_id"]; fk_ondelete := CASCADE |}.

(** The four foreign keys [upgrade()] declares, with the table that
    holds each. *)
Definition version_keys : list (string * ForeignKey) :=
  [ ("dag_version", fk_dag_version_to_dag);
    ("dag_code", fk_to_dag_version "dag_code_dag_version_id_fkey");
    ("serialized_dag", fk_to_dag_version "serialized_dag_dag_version_id_fkey");
    ("task_instance", fk_to_dag_version "task_instance_dag_version_id_fkey") ].

(** A batch operation is local to [ref] when the database only matters
    through the table [ref]. *)
Definition local_to (ref : string) (o : BatchOp) : Prop :=
  ∀ db db' t, db !! ref = db' !! ref → o db t = o db' t.

Definition failing : Step := λ _, None.

(** A table after [add_column(Column("dag_version_id", UUIDType))]. *)
Definition with_dag_version_id (extra_fks : list ForeignKey) (t : Table) : Table :=
  {| tbl_schema :=
       {| ts_columns := ts_columns (tbl_schema t)
                          ++ [col "dag_version_id" (UUIDType false) true];
          ts_pk := ts_pk (tbl_schema t);
          ts_uniques := ts_uniques (tbl_schema t);
          ts_fks := ts_fks (tbl_schema t) ++ extra_fks;
          ts_indexes := ts_indexes (tbl_schema t) |};
     tbl_rows := (λ r : Row, <["dag_version_id" := VNull]> r) <$> tbl_rows t |}.

(** A table after [drop_column(name)]. *)
Definition without_column (name : string) (t : Table) : Table :=
  {| tbl_schema :=
       {| ts_columns := List.filter (λ c, negb (bool_decide (col_name c = name)))
                          (ts_columns (tbl_schema t));
          ts_pk := pk_remove name (ts_pk (tbl_schema t));
          ts_uniques := List.filter (λ u, negb (mentions name (uq_columns u)))
                          (ts_uniques (tbl_schema t));
          ts_fks := List.filter (λ fk, negb (mentions name (fk_columns fk)))
                      (ts_fks (tbl_schema t));
          ts_indexes := List.filter (λ i, negb (mentions name (ix_columns i)))
                          (ts_indexes (tbl_schema t)) |};
     tbl_rows := (λ r : Row, delete name r) <$> tbl_rows t |}.

(** A table after [drop_constraint(name, type_="foreignkey")]. *)
Definition without_fk (name : string) (t : Table) : Table :=
  set_schema t
    {| ts_columns := ts_columns (tbl_schema t); ts_pk := ts_pk (tbl_schema t);
       ts_uniques := ts_uniques (tbl_schema t);
       ts_fks := List.filter (λ fk, negb (bool_decide (fk_name fk = name)))
                   (ts_fks (tbl_schema t));
       ts_indexes := ts_indexes (tbl_schema t) |}.

(** A table after [add_column(Column("dag_hash", String(32), nullable=True))]. *)
Definition with_dag_hash (t : Table) : Table :=
  {| tbl_schema :=
       {| ts_columns := ts_columns (tbl_schema t) ++ [col "dag_hash" (String 32) true];
          ts_pk := ts_pk (tbl_schema t);
          ts_uniques := ts_uniques (tbl_schema t);
          ts_fks := ts_fks (tbl_schema t);
          ts_indexes := ts_indexes (tbl_schema t) |};
     tbl_rows := (λ r : Row, <["dag_hash" := VNull]> r) <$> tbl_rows t |}.

(** The catalog entries [upgrade()] produces. *)
Definition dag_version_schema : TableSchema :=
  {| ts_columns := [ col "id" (UUIDType false) false;
                     col "version_number" Integer false;
                     col "dag_id" StringID false;
                     col "created_at" UtcDateTime false;
                     col "last_updated" UtcDateTime false ];
     ts_pk := Some {| pk_name := Some "dag_version_pkey"; pk_columns := ["id"] |};
     ts_uniques := [ {| uq_name := "dag_id_v_name_v_number_unique_constraint";
                        uq_columns := ["dag_id"; "version_number"] |} ];
     ts_fks := [ {| fk_name := "dag_version_dag_id_fkey"; fk_columns := ["dag_id"];
                    fk_ref_table := "dag"; fk_ref_columns := ["dag_id"];
                    fk_ondelete := CASCADE |} ];
     ts_indexes := [] |}.

Definition dag_version_table : Table :=
  {| tbl_schema := dag_version_schema; tbl_rows := [] |}.

(** dag_code when the operations of its batch are through: the added
    columns stand at the end, in the order they were added. *)
Definition appended_dagcode_schema : TableSchema :=
  {| ts_columns := [ col "fileloc" (String 2000) false;
                     col "last_updated" UtcDateTime false;
                     col "source_code" Text_MEDIUMTEXT false;
                     col "id" (UUIDType false) false;
                     col "dag_version_id" (UUIDType false) false;
                     col "source_code_hash" (String 32) false;
                     col "dag_id" (String 250) false;
                     col "created_at" UtcDateTime false ];
     ts_pk := Some {| pk_name := Some "dag_code_pkey"; pk_columns := ["id"] |};
     ts_uniques := [ {| uq_name := "dag_code_dag_version_id_uq";
                        uq_columns := ["dag_version_id"] |} ];
     ts_fks := [ fk_to_dag_version "dag_code_dag_version_id_fkey" ];
     ts_indexes := [] |}.

(** The same with its columns in place: [id], asked for before
    [fileloc_hash], is no longer tied to any column once [fileloc_hash]
    is dropped, and comes out of the sort after [fileloc]. *)
Definition new_dagcode_schema : TableSchema :=
  {| ts_columns := [ col "fileloc" (String 2000) false;
                     col "id" (UUIDType false) false;
                     col "last_updated" UtcDateTime false;
                     col "source_code" Text_MEDIUMTEXT false;
                     col "dag_version_id" (UUIDType false) false;
                     col "source_code_hash" (String 32) false;
                     col "dag_id" (String 250) false;
                     col "created_at" UtcDateTime false ];
     ts_pk := Some {| pk_name := Some "dag_code_pkey"; pk_columns := ["id"] |};
     ts_uniques := [ {| uq_name := "dag_code_dag_version_id_uq";
                        uq_columns := ["dag_version_id"] |} ];
     ts_fks := [ fk_to_dag_version "dag_code_dag_version_id_fkey" ];
     ts_indexes := [] |}.

Definition downgraded_dagcode_schema : TableSchema :=
  {| ts_columns := [ col "fileloc" (String 2000) false;
                     col "last_updated" UtcDateTime false;
                     col "source_code" Text_MEDIUMTEXT false;
                     col "fileloc_hash" BigInteger false ];
     ts_pk := Some {| pk_name := Some "dag_code_pkey"; pk_columns := ["fileloc_hash"] |};
     ts_uniques := []; ts_fks := []; ts_indexes := [] |}.

(** What the round trip assumes of the tables the source does not
    describe: no constraint or index names the column [upgrade()] is about
    to add, and [dag_run.dag_hash] is the unconstrained nullable
    [String(32)] that [downgrade()] puts back. *)
Record roundtrip_ready (db : DB) : Prop := {
  rt_task_instance :
    ∃ s, catalog db "task_instance" = Some s ∧ constrained s "dag_version_id" = false;
  rt_task_instance_history :
    ∃ s, catalog db "task_instance_history" = Some s
         ∧ constrained s "dag_version_id" = false;
  rt_dag_run :
    ∃ s, catalog db "dag_run" = Some s
         ∧ constrained s "dag_hash" = false
         ∧ NoDup (column_names s)
         ∧ col "dag_hash" (String 32) true ∈ ts_columns s
}.

Section Vocabulary.

Context (ID_LEN : Z) (naming_convention : NamingConvention).

(** What [upgrade()] expects to find.  The two artifact tables are the
    ones the source describes; of the other tables only the columns the
    migration names are constrained.  No table references the artifact
    tables, and the naming convention names primary keys [<table>_pkey]. *)
Record pre_migration (db : DB) : Prop := {
  pre_naming_dag_code : nc_pk naming_convention "dag_code" = "dag_code_pkey";
  pre_naming_serialized_dag :
    nc_pk naming_convention "serialized_dag" = "serialized_dag_pkey";
  pre_dag_code :
    catalog db "dag_code" = Some (td_schema (old_dagcode_table naming_convention));
  pre_serialized_dag :
    catalog db "serialized_dag"
    = Some (td_schema (old_serialized_table ID_LEN naming_convention));
  pre_dag_version : db !! "dag_version" = None;
  pre_dag : ∃ s, catalog db "dag" = Some s ∧ has_column s "dag_id" = true;
  pre_task_instance :
    ∃ s, catalog db "task_instance" = Some s
         ∧ has_column s "dag_version_id" = false
         ∧ existsb (λ k, bool_decide (fk_name k = "task_instance_dag_version_id_fkey"))
             (ts_fks s) = false;
  pre_task_instance_history :
    ∃ s, catalog db "task_instance_history" = Some s
         ∧ has_column s "dag_version_id" = false;
  pre_dag_run :
    ∃ s, catalog db "dag_run" = Some s ∧ has_column s "dag_hash" = true;
  pre_inbound_dag_code : no_inbound db "dag_code";
  pre_inbound_serialized_dag : no_inbound db "serialized_dag";
  pre_inbound_dag_version : no_inbound db "dag_version"
}.

Definition new_serialized_schema : TableSchema :=
  {| ts_columns := [ col "dag_id" (String ID_LEN) false;
                     col "data" JSONField true;
                     col "data_compressed" LargeBinary true;
                     col "dag_hash" (String 32) false;
                     col "last_updated" UtcDateTime false;
                     col "processor_subdir" (String 2000) true;
                     col "id" (UUIDType false) false;
                     col "dag_version_id" (UUIDType false) false;
                     col "created_at" UtcDateTime false ];
     ts_pk := Some {| pk_name := Some "serialized_dag_pkey"; pk_columns := ["id"] |};
     ts_uniques := [ {| uq_name := "serialized_dag_dag_version_id_uq";
                        uq_columns := ["dag_version_id"] |} ];
     ts_fks := [ fk_to_dag_version "serialized_dag_dag_version_id_fkey" ];
     ts_indexes := [] |}.

(** The database [upgrade()] returns, as a function of the one it
    starts from. *)
Definition upgraded (db : DB) : DB :=
  alter (without_column "dag_hash") "dag_run"
    (alter (with_dag_version_id []) "task_instance_history"
      (alter (with_dag_version_id
                [fk_to_dag_version "task_instance_dag_version_id_fkey"]) "task_instance"
        (<["serialized_dag" :=
            {| tbl_schema := new_serialized_schema; tbl_rows := [] |}]>
          (<["dag_code" := {| tbl_schema := new_dagcode_schema; tbl_rows := [] |}]>
            (<["dag_version" := dag_version_table]> db))))).

(** What [downgrade()] expects to find: the catalog [upgrade()] leaves,
    with any rows.  Besides the three keys the migration created, nothing
    references dag_version. *)
Record post_migration (db : DB) : Prop := {
  post_dag_version : catalog db "dag_version" = Some dag_version_schema;
  post_dag_code : catalog db "dag_code" = Some new_dagcode_schema;
  post_serialized_dag : catalog db "serialized_dag" = Some new_serialized_schema;
  post_task_instance :
    ∃ s, catalog db "task_instance" = Some s
         ∧ has_column s "dag_version_id" = true
         ∧ existsb (λ k, bool_decide (fk_name k = "task_instance_dag_version_id_fkey"))
             (ts_fks s) = true
         ∧ forallb (λ k, negb (bool_decide (fk_ref_table k = "dag_version"))
                         || bool_decide (fk_name k = "task_instance_dag_version_id_fkey")
                         || mentions "dag_version_id" (fk_columns k))
             (ts_fks s) = true;
  post_task_instance_history :
    ∃ s, catalog db "task_instance_history" = Some s
         ∧ has_column s "dag_version_id" = true;
  post_dag_run :
    ∃ s, catalog db "dag_run" = Some s ∧ has_column s "dag_hash" = false;
  post_inbound :
    ∀ k s, k ∉ ["dag_code"; "serialized_dag"; "task_instance"; "dag_version"] →
           catalog db k = Some s →
           existsb (λ fk, bool_decide (fk_ref_table fk = "dag_version")) (ts_fks s) = false
}.

Definition downgraded_serialized_schema : TableSchema :=
  {| ts_columns := [ col "dag_id" (String ID_LEN) false;
                     col "data" JSONField true;
                     col "data_compressed" LargeBinary true;
                     col "dag_hash" (String 32) false;
                     col "last_updated" UtcDateTime false;
                     col "processor_subdir" (String 2000) true;
                     col "fileloc" (String 2000) false;
                     col "fileloc_hash" BigInteger false ];
     ts_pk := Some {| pk_name := Some "serialized_dag_pkey"; pk_columns := ["dag_id"] |};
     ts_uniques := []; ts_fks := [];
     ts_indexes := [ {| ix_name := "idx_fileloc_hash"; ix_columns := ["fileloc_hash"];
                        ix_unique := false |} ] |}.

(** The database [downgrade()] returns, as a function of the state its
    opening DELETE leaves. *)
Definition downgraded (db1 : DB) : DB :=
  delete "dag_version"
    (alter with_dag_hash "dag_run"
      (<["serialized_dag" :=
          {| tbl_schema := downgraded_serialized_schema; tbl_rows := [] |}]>
        (<["dag_code" := {| tbl_schema := downgraded_dagcode_schema; tbl_rows := [] |}]>
          (alter (λ t, without_column "dag_version_id"
                         (without_fk "task_instance_dag_version_id_fkey" t))
             "task_instance"
            (alter (without_column "dag_version_id") "task_instance_history" db1))))).

(** What [upgrade()] needs of the database.  Of dag_code and
    serialized_dag only the columns that [old_dagcode_table] and
    [old_serialized_table] name, and the primary key under the name the
    descriptions give it: the batch rebuilds both tables from those
    descriptions, not from the live catalog, and on PostgreSQL it first
    drops that key from the live table, by name. *)
Record upgradable (db : DB) : Prop := {
  up_naming_dag_code : nc_pk naming_convention "dag_code" = "dag_code_pkey";
  up_naming_serialized_dag :
    nc_pk naming_convention "serialized_dag" = "serialized_dag_pkey";
  up_dag_code :
    ∃ s, catalog db "dag_code" = Some s
         ∧ has_columns s (column_names (td_schema (old_dagcode_table naming_convention)))
           = true
         ∧ pk_name <$> ts_pk s = Some (Some "dag_code_pkey");
  up_serialized_dag :
    ∃ s, catalog db "serialized_dag" = Some s
         ∧ has_columns s
             (column_names (td_schema (old_serialized_table ID_LEN naming_convention)))
           = true
         ∧ pk_name <$> ts_pk s = Some (Some "serialized_dag_pkey");
  up_dag_version : db !! "dag_version" = None;
  up_dag : ∃ s, catalog db "dag" = Some s ∧ has_column s "dag_id" = true;
  up_task_instance :
    ∃ s, catalog db "task_instance" = Some s
         ∧ has_column s "dag_version_id" = false
         ∧ existsb (λ k, bool_decide (fk_name k = "task_instance_dag_version_id_fkey"))
             (ts_fks s) = false;
  up_task_instance_history :
    ∃ s, catalog db "task_instance_history" = Some s
         ∧ has_column s "dag_version_id" = false;
  up_dag_run :
    ∃ s, catalog db "dag_run" = Some s ∧ has_column s "dag_hash" = true;
  up_inbound_dag_code : no_inbound db "dag_code";
  up_inbound_serialized_dag : no_inbound db "serialized_dag";
  up_inbound_dag_version : no_inbound db "dag_version"
}.

End Vocabulary.

(** * A concrete database *)

(** The convention of [airflow.models.base]: primary keys are called
    [<table>_pkey]. *)
Definition sample_naming_convention : NamingConvention :=
  {| nc_pk := λ table_name, (table_name ++ "_pkey")%string |}.

Definition row (fields : list (string * value)) : Row := list_to_map fields.

Definition sample_table (d : TableDesc) (rows : list Row) : Table :=
  {| tbl_schema := td_schema d; tbl_rows := rows |}.

(** A small pre-migration database: one dag with its source and
    serialized form, one run, one task instance and its history row. *)
Definition sample_db : DB :=
  list_to_map
    [ ("dag",
       sample_table
         (sa_Table "dag" sample_naming_convention
            [ sa_Column "dag_id" (String 250) [primary_key true] ] [])
         [ row [("dag_id", VStr "etl_daily")] ]);
      ("dag_code",
       sample_table (old_dagcode_table sample_naming_convention)
         [ row [("fileloc_hash", VInt 7); ("fileloc", VStr "/dags/etl.py");
                ("last_updated", VStr "2024-10-01"); ("source_code", VStr "pass")] ]);
      ("serialized_dag",
       sample_table (old_serialized_table 250 sample_naming_convention)
         [ row [("dag_id", VStr "etl_daily"); ("fileloc", VStr "/dags/etl.py");
                ("fileloc_hash", VInt 7); ("data", VStr "{}"); ("dag_hash", VStr "abc");
                ("last_updated", VStr "2024-10-01")] ]);
      ("dag_run",
       sample_table
         (sa_Table "dag_run" sample_naming_convention
            [ sa_Column "id" Integer [primary_key true];
              sa_Column "dag_id" (String 250) [nullable false];
              sa_Column "run_id" (String 250) [nullable false];
              sa_Column "dag_hash" (String 32) [] ] [])
         [ row [("id", VInt 1); ("dag_id", VStr "etl_daily"); ("run_id", VStr "r1");
                ("dag_hash", VStr "abc")] ]);
      ("task_instance",
       sample_table
         (sa_Table "task_instance" sample_naming_convention
            [ sa_Column "task_id" (String 250) [primary_key true];
              sa_Column "dag_id" (String 250) [primary_key true];
              sa_Column "run_id" (String 250) [primary_key true] ] [])
         [ row [("task_id", VStr "extract"); ("dag_id", VStr "etl_daily");
                ("run_id", VStr "r1")] ]);
      ("task_instance_history",
       sample_table
         (sa_Table "task_instance_history" sample_naming_convention
            [ sa_Column "id" Integer [primary_key true];
              sa_Column "task_id" (String 250) [nullable false];
              sa_Column "dag_id" (String 250) [nullable false];
              sa_Column "run_id" (String 250) [nullable false];
              sa_Column "try_number" Integer [nullable false] ]
            [ ForeignKeyConstraint ["task_id"; "dag_id"; "run_id"]
                [("task_instance", "task_id"); ("task_instance", "dag_id");
                 ("task_instance", "run_id")]
                "task_instance_history_ti_fkey" CASCADE ])
         [ row [("id", VInt 1); ("task_id", VStr "extract"); ("dag_id", VStr "etl_daily");
                ("run_id", VStr "r1"); ("try_number", VInt 1)] ]) ].

Definition version_row (id : string) (number : Z) : Row :=
  row [("id", VStr id); ("version_number", VInt number); ("dag_id", VStr "etl_daily");
       ("created_at", VStr "2024-10-09"); ("last_updated", VStr "2024-10-09")].

(** Two versions of the dag, the artifacts of the first, a task instance
    that ran on the second and a history row of the same task on the
    first. *)
Definition sample_code_row (id : string) : Row :=
  row [("id", VStr id); ("fileloc", VStr "/dags/etl.py");
       ("last_updated", VStr "2024-10-09"); ("source_code", VStr "pass");
       ("dag_version_id", VStr "v1"); ("source_code_hash", VStr "d41d8");
       ("dag_id", VStr "etl_daily"); ("created_at", VStr "2024-10-09")].

Definition sample_session : list dml :=
  [ INSERT "dag_version" (version_row "v1" 1);
    INSERT "dag_version" (version_row "v2" 2);
    INSERT "dag_code" (sample_code_row "c1");
    INSERT "serialized_dag"
      (row [("dag_id", VStr "etl_daily"); ("data", VStr "{}"); ("dag_hash", VStr "abc");
            ("last_updated", VStr "2024-10-09"); ("id", VStr "s1");
            ("dag_version_id", VStr "v1"); ("created_at", VStr "2024-10-09")]);
    INSERT "task_instance"
      (row [("task_id", VStr "load"); ("dag_id", VStr "etl_daily"); ("run_id", VStr "r1");
            ("dag_version_id", VStr "v2")]);
    INSERT "task_instance_history"
      (row [("id", VInt 2); ("task_id", VStr "load"); ("dag_id", VStr "etl_daily");
            ("run_id", VStr "r1"); ("try_number", VInt 1);
            ("dag_version_id", VStr "v1")]) ].

Definition has_id (v : string) (r : Row) : bool := bool_decide (field r "id" = VStr v).

Definition has_dag_id (d : string) (r : Row) : bool :=
  bool_decide (field r "dag_id" = VStr d).

(** The sample database after [upgrade()] and [sample_session]; after
    deleting version v1 from it; after deleting the dag from it; and
    after the DELETE that opens [downgrade()]. *)
Definition sample_versioned : DB := session (upgraded 250 sample_db) sample_session.

Definition sample_without_v1 : DB :=
  default ∅ (delete_where "dag_version" (has_id "v1") sample_versioned).

Definition sample_without_dag : DB :=
  default ∅ (delete_where "dag" (has_dag_id "etl_daily") sample_versioned).

Definition sample_emptied : DB :=
  default ∅ (op_execute (sa_text (DELETE_FROM "dag_version")) sample_versioned).

(** The sample database after the purge alone, and after [upgrade()],
    [sample_session] and [downgrade()]. *)
Definition sample_purged : DB := default ∅ (_delete_serdag_and_code sample_db).

Definition sample_downgraded : DB :=
  default ∅ (downgrade sample_naming_convention sample_versioned).

(** The sample database with a dag_code table that has drifted from the
    description in the migration: a column and an index more. *)
Definition sample_drifted : DB :=
  <["dag_code" :=
      sample_table
        (sa_Table "dag_code" sample_naming_convention
           [ sa_Column "fileloc_hash" BigInteger [nullable false; primary_key true];
             sa_Column "fileloc" (String 2000) [nullable false];
             sa_Column "last_updated" UtcDateTime [nullable false];
             sa_Column "source_code" Text_MEDIUMTEXT [nullable false];
             sa_Column "reviewed_by" (String 100) [] ]
           [ sa_Index "idx_dag_code_fileloc" ["fileloc"] false ])
        [ row [("fileloc_hash", VInt 7); ("fileloc", VStr "/dags/etl.py");
               ("last_updated", VStr "2024-10-01"); ("source_code", VStr "pass");
               ("reviewed_by", VStr "ops")] ]]> sample_db.

(** A version row built without the client-side defaults. *)
Definition sample_bare_version : Row :=
  row [("id", VStr "v3"); ("version_number", VInt 3); ("dag_id", VStr "etl_daily")].

(** * Properties of the database model *)

Section Engine.

Implicit Types (db : DB) (t : string) (r : Row) (fk : ForeignKey).

Lemma elem_of_all_rows db t r : (t, r) ∈ all_rows db ↔ r ∈ rows_of db t.
Proof.
  unfold all_rows, rows_of. rewrite list_elem_of_bind. split.
  - intros [[k tbl] [Hin Hk]]. simpl in Hin.
    apply list_elem_of_fmap in Hin as [r' [Heq Hr']].
    apply elem_of_map_to_list in Hk. simplify_eq. by rewrite Hk.
  - destruct (db !! t) as [tbl|] eqn:E; simpl; [|by intros ?%elem_of_nil].
    intros Hr. exists (t, tbl). split.
    + simpl. apply list_elem_of_fmap. eauto.
    + by apply elem_of_map_to_list.
Qed.

Lemma existsb_elem_of {A} (p : A → bool) (l : list A) :
  existsb p l = true ↔ ∃ x, x ∈ l ∧ p x = true.
Proof.
  rewrite existsb_exists. split; intros [x [H1 H2]]; exists x; split; auto;
    by apply list_elem_of_In.
Qed.

Lemma forallb_elem_of {A} (p : A → bool) (l : list A) :
  forallb p l = true ↔ ∀ x, x ∈ l → p x = true.
Proof.
  rewrite forallb_forall. split; intros H x Hx; apply H; by apply list_elem_of_In.
Qed.

Lemma elem_of_filter_bool {A} (p : A → bool) (l : list A) x :
  x ∈ List.filter p l ↔ x ∈ l ∧ p x = true.
Proof. rewrite !list_elem_of_In. apply filter_In. Qed.

Lemma pulled_spec a db dead fks r :
  pulled a db dead fks r = true ↔
  ∃ fk p, fk ∈ fks ∧ fk_ondelete fk = a ∧ p ∈ rows_of db (fk_ref_table fk)
          ∧ dead (fk_ref_table fk) p = true ∧ references fk r p = true.
Proof.
  unfold pulled. rewrite existsb_elem_of. split.
  - intros [fk [Hfk H]]. apply andb_true_iff in H as [Ha H].
    apply bool_decide_eq_true in Ha. apply existsb_elem_of in H as [p [Hp H]].
    apply andb_true_iff in H as [Hd Hr]. eauto 10.
  - intros (fk & p & Hfk & Ha & Hp & Hd & Hr). exists fk. split; [done|].
    apply andb_true_iff. split; [by apply bool_decide_eq_true|].
    apply existsb_elem_of. exists p. split; [done|]. by rewrite Hd, Hr.
Qed.

Lemma pulled_ext a db d1 d2 fks r :
  (∀ t p, p ∈ rows_of db t → d1 t p = d2 t p) →
  pulled a db d1 fks r = pulled a db d2 fks r.
Proof.
  intros Hext. apply eq_true_iff_eq. rewrite !pulled_spec.
  split; intros (fk & p & ? & ? & Hp & Hd & ?); exists fk, p;
    repeat split; auto; [rewrite <- Hext | rewrite Hext]; auto.
Qed.

Section Closure.

Variables (db : DB) (t0 : string) (victim : Row → bool).

Local Abbreviation dead := (marked db t0 victim).
Local Abbreviation settled := (settled db t0 victim).

Lemma doomed_S n t r :
  doomed n db t0 victim t r = true → doomed (S n) db t0 victim t r = true.
Proof. simpl. intros ->. done. Qed.

Lemma doomed_le n m t r :
  (n ≤ m)%nat → doomed n db t0 victim t r = true → doomed m db t0 victim t r = true.
Proof. induction 1; auto using doomed_S. Qed.

Lemma settled_next n t r :
  settled n → doomed (S (S n)) db t0 victim t r = doomed (S n) db t0 victim t r.
Proof.
  intros Hs.
  change (doomed (S (S n)) db t0 victim t r)
    with (doomed (S n) db t0 victim t r
          || pulled CASCADE db (doomed (S n) db t0 victim) (fks_of db t) r).
  rewrite (pulled_ext _ _ (doomed (S n) db t0 victim) (doomed n db t0 victim)).
  - simpl. by destruct (doomed n db t0 victim t r), (pulled _ _ _ _ _).
  - intros t' p Hp. apply (Hs (t', p)). by apply elem_of_all_rows.
Qed.

Lemma settled_S n : settled n → settled (S n).
Proof. intros Hs [t r] _. apply settled_next, Hs. Qed.

Lemma filter_length_mono {A} (p q : A → bool) (l : list A) :
  (∀ x, x ∈ l → p x = true → q x = true) →
  (length (List.filter p l) ≤ length (List.filter q l))%nat.
Proof.
  induction l as [|x l IH]; intros H; simpl; [lia|].
  assert (IH' := IH (λ y Hy, H y (list_elem_of_further _ _ _ Hy))).
  destruct (p x) eqn:Hp.
  - rewrite (H x (list_elem_of_here _ _) Hp). simpl. lia.
  - destruct (q x); simpl; lia.
Qed.

Lemma filter_length_lt {A} (p q : A → bool) (l : list A) x :
  (∀ y, y ∈ l → p y = true → q y = true) →
  x ∈ l → p x = false → q x = true →
  (length (List.filter p l) < length (List.filter q l))%nat.
Proof.
  induction l as [|y l IH]; intros H Hx Hp Hq; [by apply elem_of_nil in Hx|].
  assert (Hl : ∀ z, z ∈ l → p z = true → q z = true)
    by (intros z Hz; apply H; by apply list_elem_of_further).
  apply elem_of_cons in Hx as [->|Hx]; simpl.
  - rewrite Hp, Hq. simpl. pose proof (filter_length_mono p q l Hl). lia.
  - specialize (IH Hl Hx Hp Hq). destruct (p y) eqn:Hpy.
    + rewrite (H y (list_elem_of_here _ _) Hpy). simpl. lia.
    + destruct (q y); simpl; lia.
Qed.

Lemma filter_length_all {A} (p : A → bool) (l : list A) :
  length (List.filter p l) = length l → ∀ x, x ∈ l → p x = true.
Proof.
  induction l as [|y l IH]; intros Hlen x Hx; [by apply elem_of_nil in Hx|].
  simpl in Hlen. pose proof (List.filter_length_le p l) as Hle.
  destruct (p y) eqn:Hpy; simpl in Hlen; [|lia].
  apply elem_of_cons in Hx as [->|Hx]; [done|]. apply IH; [lia|done].
Qed.

Lemma settled_or_grows n :
  settled n ∨ (n ≤ length (List.filter (dead n) (all_rows db)))%nat.
Proof.
  induction n as [|n [Hs|Hn]]; [right; lia | left; by apply settled_S |].
  destruct (decide (Forall (λ kv, dead (S n) kv = dead n kv) (all_rows db)))
    as [Hall|Hex].
  - left. apply settled_S. intros kv Hkv. rewrite Forall_forall in Hall. by apply Hall.
  - right. apply not_Forall_Exists in Hex; [|intros ?; apply _].
    apply Exists_exists in Hex as [kv [Hkv Hne]].
    assert (Hmono : ∀ y, y ∈ all_rows db → dead n y = true → dead (S n) y = true)
      by (intros [? ?] _; apply doomed_S).
    assert (dead n kv = false ∧ dead (S n) kv = true) as [H0 H1].
    { simpl in Hne. pose proof (Hmono kv Hkv) as Hm.
      destruct (dead n kv), (dead (S n) kv); try done. by specialize (Hm eq_refl). }
    pose proof (filter_length_lt (dead n) (dead (S n)) _ kv Hmono Hkv H0 H1). lia.
Qed.

(** Following [total_rows db] cascade links is enough: one more round
    marks no further stored row. *)
Lemma doomed_closed t r :
  r ∈ rows_of db t →
  doomed (S (total_rows db)) db t0 victim t r = doomed (total_rows db) db t0 victim t r.
Proof.
  intros Hr. apply elem_of_all_rows in Hr.
  destruct (settled_or_grows (total_rows db)) as [Hs|Hn]; [by apply (Hs (t, r))|].
  pose proof (List.filter_length_le (dead (total_rows db)) (all_rows db)) as Hle.
  assert (Hall := filter_length_all (dead (total_rows db)) (all_rows db)).
  unfold total_rows in *. specialize (Hall ltac:(lia) (t, r) Hr).
  unfold dead in Hall. simpl in Hall. by rewrite (doomed_S _ _ _ Hall), Hall.
Qed.

End Closure.

(** *** What a successful DELETE leaves behind *)

Lemma with_rows_id (tbl : Table) : with_rows tbl (tbl_rows tbl) = tbl.
Proof. by destruct tbl. Qed.

Lemma filter_all {A} (p : A → bool) (l : list A) :
  (∀ x, x ∈ l → p x = true) → List.filter p l = l.
Proof.
  induction l as [|x l IH]; intros H; simpl; [done|].
  rewrite (H x (list_elem_of_here _ _)). f_equal. apply IH.
  intros y Hy. apply H. by apply list_elem_of_further.
Qed.

Lemma filter_none {A} (p : A → bool) (l : list A) :
  (∀ x, x ∈ l → p x = false) → List.filter p l = [].
Proof.
  induction l as [|x l IH]; intros H; simpl; [done|].
  rewrite (H x (list_elem_of_here _ _)). apply IH.
  intros y Hy. apply H. by apply list_elem_of_further.
Qed.

Lemma delete_where_lookup t0 victim db db' t :
  delete_where t0 victim db = Some db' →
  db' !! t =
    (λ tbl, with_rows tbl
              (List.filter (λ r, negb (doomed (total_rows db) db t0 victim t r))
                 (tbl_rows tbl))) <$> db !! t.
Proof.
  unfold delete_where. intros H. destruct (db !! t0); simplify_eq/=.
  case_bool_decide; simplify_eq. rewrite map_lookup_imap. by destruct (db !! t).
Qed.

Lemma delete_where_rows t0 victim db db' t :
  delete_where t0 victim db = Some db' →
  rows_of db' t =
    List.filter (λ r, negb (doomed (total_rows db) db t0 victim t r)) (rows_of db t).
Proof.
  intros H. unfold rows_of. rewrite (delete_where_lookup _ _ _ _ t H).
  by destruct (db !! t).
Qed.

Lemma delete_where_schema t0 victim db db' t :
  delete_where t0 victim db = Some db' →
  tbl_schema <$> db' !! t = tbl_schema <$> db !! t.
Proof.
  intros H. rewrite (delete_where_lookup _ _ _ _ t H). by destruct (db !! t).
Qed.

Lemma delete_where_subset t0 victim db db' t r :
  delete_where t0 victim db = Some db' → r ∈ rows_of db' t → r ∈ rows_of db t.
Proof.
  intros H. rewrite (delete_where_rows _ _ _ _ t H), elem_of_filter_bool. tauto.
Qed.

(** The selected rows are gone. *)
Lemma delete_where_victims t0 victim db db' r :
  delete_where t0 victim db = Some db' → r ∈ rows_of db' t0 → victim r = false.
Proof.
  intros H. rewrite (delete_where_rows _ _ _ _ t0 H), elem_of_filter_bool.
  intros [_ Hd]. apply negb_true_iff in Hd.
  destruct (victim r) eqn:Hv; [|done].
  rewrite (doomed_le db t0 victim 0 (total_rows db) t0 r) in Hd; [done|lia|].
  simpl. rewrite Hv. by rewrite bool_decide_eq_true_2.
Qed.

Lemma delete_where_fk_holds t0 victim db db' t fk :
  delete_where t0 victim db = Some db' →
  fk ∈ fks_of db t →
  fk_holds db t fk → fk_holds db' t fk.
Proof.
  intros Hdel Hfk Hold r Hr.
  pose proof Hr as Hr'. rewrite (delete_where_rows _ _ _ _ t Hdel) in Hr'.
  apply elem_of_filter_bool in Hr' as [Hr0 Halive]. apply negb_true_iff in Halive.
  specialize (Hold r Hr0). unfold fk_satisfied in *.
  apply orb_true_iff in Hold as [Hnull|Hpar]; [by rewrite Hnull|].
  apply orb_true_iff. right.
  apply existsb_elem_of in Hpar as [p [Hp Href]].
  apply existsb_elem_of. exists p. split; [|done].
  rewrite (delete_where_rows _ _ _ _ _ Hdel). apply elem_of_filter_bool.
  split; [done|]. apply negb_true_iff.
  destruct (doomed (total_rows db) db t0 victim (fk_ref_table fk) p) eqn:Hdead; [|done].
  exfalso. destruct (fk_ondelete fk) eqn:Hact.
  - (* NO_ACTION: the statement would have been refused *)
    unfold delete_where in Hdel. destruct (db !! t0); simplify_eq/=.
    case_bool_decide as Hok; simplify_eq.
    unfold fks_of, rows_of in Hfk, Hr0. destruct (db !! t) as [tbl|] eqn:Ht;
      simpl in *; [|by apply elem_of_nil in Hfk].
    specialize (Hok t tbl Ht). simpl in Hok.
    apply not_true_iff_false in Hok. apply Hok.
    apply existsb_elem_of. exists r. split; [done|].
    rewrite Halive. simpl. apply pulled_spec. eauto 10.
  - (* CASCADE: the row would have been removed as well *)
    rewrite <- (doomed_closed db t0 victim t r Hr0) in Halive.
    simpl in Halive. apply orb_false_iff in Halive as [_ Hnp].
    apply not_true_iff_false in Hnp. apply Hnp.
    apply pulled_spec. eauto 10.
Qed.

(** *** Two cases where the DELETE touches a single table *)

Lemma no_inbound_fk db t0 t fk :
  no_inbound db t0 → fk ∈ fks_of db t → fk_ref_table fk ≠ t0.
Proof.
  intros Hno Hfk Heq. unfold fks_of in Hfk.
  destruct (db !! t) as [tbl|] eqn:Ht; simpl in Hfk; [|by apply elem_of_nil in Hfk].
  specialize (Hno t tbl Ht). simpl in Hno. apply not_true_iff_false in Hno.
  apply Hno. apply existsb_elem_of. exists fk. split; [done|].
  by apply bool_decide_eq_true.
Qed.

Lemma doomed_no_inbound n db t0 victim t r :
  no_inbound db t0 →
  doomed n db t0 victim t r = bool_decide (t = t0) && victim r.
Proof.
  intros Hno. revert t r. induction n as [|n IH]; intros t r; [done|].
  simpl. rewrite IH.
  destruct (pulled CASCADE db (doomed n db t0 victim) (fks_of db t) r) eqn:Hp;
    [|by rewrite orb_false_r].
  apply pulled_spec in Hp as (fk & p & Hfk & _ & _ & Hd & _).
  rewrite IH in Hd. apply andb_true_iff in Hd as [Hd _].
  apply bool_decide_eq_true in Hd. by destruct (no_inbound_fk _ _ _ _ Hno Hfk).
Qed.

Lemma delete_where_no_inbound t0 victim db tbl :
  db !! t0 = Some tbl → no_inbound db t0 →
  delete_where t0 victim db
  = Some (<[t0 := with_rows tbl (List.filter (λ r, negb (victim r)) (tbl_rows tbl))]> db).
Proof.
  intros Ht0 Hno. unfold delete_where. rewrite Ht0. simpl.
  rewrite bool_decide_eq_true_2.
  - f_equal. apply map_eq. intros i. rewrite map_lookup_imap.
    destruct (decide (i = t0)) as [->|Hne].
    + rewrite lookup_insert_eq, Ht0. simpl. unfold sweep. do 2 f_equal.
      apply filter_ext. intros r. rewrite doomed_no_inbound by done.
      by rewrite bool_decide_eq_true_2.
    + rewrite lookup_insert_ne by done. destruct (db !! i) as [ti|] eqn:Hi; [|done].
      simpl. unfold sweep. f_equal. rewrite <- (with_rows_id ti) at 1. destruct ti as [si ri]; unfold with_rows; simpl. f_equal.
      apply filter_all. intros r _. rewrite doomed_no_inbound by done.
      by rewrite bool_decide_eq_false_2.
  - intros t ti Ht. simpl. apply not_true_iff_false. intros Hb.
    apply existsb_elem_of in Hb as [r [_ Hb]]. apply andb_true_iff in Hb as [_ Hb].
    apply pulled_spec in Hb as (fk & p & Hfk & _ & _ & Hd & _).
    rewrite doomed_no_inbound in Hd by done.
    apply andb_true_iff in Hd as [Hd _]. apply bool_decide_eq_true in Hd.
    refine (no_inbound_fk db t0 t fk Hno _ Hd). unfold fks_of. by rewrite Ht.
Qed.

Lemma doomed_empty n db t0 victim t r :
  rows_of db t0 = [] → r ∈ rows_of db t → doomed n db t0 victim t r = false.
Proof.
  intros Hempty. revert t r. induction n as [|n IH]; intros t r Hr; simpl.
  - case_bool_decide; [subst|done]. rewrite Hempty in Hr. by apply elem_of_nil in Hr.
  - rewrite IH by done. simpl. apply not_true_iff_false. intros Hp.
    apply pulled_spec in Hp as (fk & p & _ & _ & Hp & Hd & _).
    by rewrite IH in Hd.
Qed.

Lemma delete_where_empty t0 victim db tbl :
  db !! t0 = Some tbl → tbl_rows tbl = [] → delete_where t0 victim db = Some db.
Proof.
  intros Ht0 Hrows.
  assert (Hempty : rows_of db t0 = []) by (unfold rows_of; by rewrite Ht0).
  unfold delete_where. rewrite Ht0. simpl. rewrite bool_decide_eq_true_2.
  - f_equal. apply map_eq. intros i. rewrite map_lookup_imap.
    destruct (db !! i) as [ti|] eqn:Hi; [|done]. simpl. unfold sweep. f_equal.
    rewrite <- (with_rows_id ti) at 1. destruct ti as [si ri]; unfold with_rows; simpl. f_equal. apply filter_all. intros r Hr.
    rewrite doomed_empty; [done..|]. unfold rows_of. by rewrite Hi.
  - intros t ti Ht. simpl. apply not_true_iff_false. intros Hb.
    apply existsb_elem_of in Hb as [r [_ Hb]]. apply andb_true_iff in Hb as [_ Hb].
    apply pulled_spec in Hb as (fk & p & _ & _ & Hp & Hd & _).
    by rewrite doomed_empty in Hd.
Qed.

(** *** INSERT and the declared constraints *)

Lemma insert_row_inv t r0 db db' :
  insert_row t r0 db = Some db' →
  ∃ tbl, db !! t = Some tbl
    ∧ db' = <[t := with_rows tbl (tbl_rows tbl ++ [filled (tbl_schema tbl) r0])]> db
    ∧ (∀ c, c ∈ ts_columns (tbl_schema tbl) → col_nullable c = false →
         has_null (key_of [col_name c] (filled (tbl_schema tbl) r0)) = false)
    ∧ (∀ u, u ∈ ts_uniques (tbl_schema tbl) →
         existsb (collides (uq_columns u) (filled (tbl_schema tbl) r0)) (tbl_rows tbl)
         = false)
    ∧ (∀ fk, fk ∈ ts_fks (tbl_schema tbl) →
         fk_satisfied db fk (filled (tbl_schema tbl) r0) = true).
Proof.
  unfold insert_row. intros H. destruct (db !! t) as [tbl|]; simplify_eq/=.
  fold (filled (tbl_schema tbl) r0) in H.
  destruct (_ && _) eqn:Hc in H; simplify_eq.
  repeat (apply andb_true_iff in Hc as [Hc ?]).
  exists tbl. repeat split; auto.
  - intros c Hin Hnn. match goal with H : forallb _ (ts_columns _) = true |- _ =>
      rewrite forallb_elem_of in H; specialize (H c Hin) end.
    rewrite Hnn in *. simpl in *. by apply negb_true_iff.
  - intros u Hu. match goal with H : forallb _ (ts_uniques _) = true |- _ =>
      rewrite forallb_elem_of in H; specialize (H u Hu) end.
    by apply negb_true_iff.
  - intros fk Hfk. match goal with H : forallb _ (ts_fks _) = true |- _ =>
      rewrite forallb_elem_of in H; by apply H end.
Qed.

Lemma insert_row_rows t r0 db db' t' :
  insert_row t r0 db = Some db' →
  rows_of db' t' =
    rows_of db t' ++ (if decide (t' = t)
                      then [filled (default (Build_TableSchema [] None [] [] [])
                                      (catalog db t)) r0]
                      else []).
Proof.
  intros (tbl & Ht & -> & _)%insert_row_inv. unfold rows_of, catalog.
  destruct (decide (t' = t)) as [->|Hne].
  - by rewrite lookup_insert_eq, Ht.
  - rewrite lookup_insert_ne by done. by rewrite app_nil_r.
Qed.

Lemma insert_row_catalog t r0 db db' t' :
  insert_row t r0 db = Some db' → catalog db' t' = catalog db t'.
Proof.
  intros (tbl & Ht & -> & _)%insert_row_inv. unfold catalog.
  destruct (decide (t' = t)) as [->|Hne].
  - by rewrite lookup_insert_eq, Ht.
  - by rewrite lookup_insert_ne.
Qed.

Lemma collides_sym cols r r' : collides cols r r' = collides cols r' r.
Proof.
  unfold collides. destruct (decide (key_of cols r = key_of cols r')) as [He|Hne].
  - rewrite He. by rewrite !bool_decide_eq_true_2.
  - rewrite !bool_decide_eq_false_2 by done. by rewrite !andb_false_r.
Qed.

Lemma unique_on_snoc cols rows r :
  unique_on cols (rows ++ [r])
  = unique_on cols rows && negb (existsb (collides cols r) rows).
Proof.
  induction rows as [|x rows IH]; simpl; [done|].
  rewrite IH, existsb_app. simpl. rewrite (collides_sym cols r x).
  destruct (existsb (collides cols x) rows), (collides cols x r),
    (unique_on cols rows), (existsb (collides cols r) rows); done.
Qed.

Lemma unique_on_filter cols (p : Row → bool) rows :
  unique_on cols rows = true → unique_on cols (List.filter p rows) = true.
Proof.
  induction rows as [|x rows IH]; simpl; [done|].
  intros [Hx Hrest]%andb_true_iff. destruct (p x); simpl; [|by apply IH].
  rewrite IH by done. rewrite andb_true_r. apply negb_true_iff in Hx.
  apply negb_true_iff, not_true_iff_false. intros Hex.
  apply not_true_iff_false in Hx. apply Hx.
  apply existsb_elem_of in Hex as [y [Hy Hc]]. apply existsb_elem_of.
  exists y. split; [|done]. apply elem_of_filter_bool in Hy. tauto.
Qed.

(** A key that is free of NULLs is held by at most one row. *)
Lemma unique_on_count cols rows k :
  unique_on cols rows = true → has_null k = false →
  (length (List.filter (λ r, bool_decide (key_of cols r = k)) rows) ≤ 1)%nat.
Proof.
  intros Hu Hk. induction rows as [|x rows IH]; simpl; [lia|].
  simpl in Hu. apply andb_true_iff in Hu as [Hx Hrest].
  case_bool_decide as Hkx; simpl; [|by apply IH].
  rewrite filter_none; [simpl; lia|].
  intros y Hy. apply bool_decide_eq_false. intros Hky.
  apply negb_true_iff, not_true_iff_false in Hx. apply Hx.
  apply existsb_elem_of. exists y. split; [done|].
  unfold collides. rewrite Hkx, Hk, Hky. simpl. by apply bool_decide_eq_true.
Qed.

Lemma catalog_Some db t s :
  catalog db t = Some s → ∃ tbl, db !! t = Some tbl ∧ tbl_schema tbl = s.
Proof. unfold catalog. destruct (db !! t); intros; simplify_eq/=; eauto. Qed.

(** An INSERT whose key is already stored under a unique constraint is
    rejected. *)
Lemma insert_row_duplicate t r0 db cols x s :
  catalog db t = Some s →
  (∃ u, u ∈ ts_uniques s ∧ uq_columns u = cols) →
  x ∈ rows_of db t →
  key_of cols (filled s r0) = key_of cols x →
  has_null (key_of cols x) = false →
  insert_row t r0 db = None.
Proof.
  intros (tbl & Ht & <-)%catalog_Some (u & Hu & <-) Hx Hkey Hnn.
  destruct (insert_row t r0 db) as [db'|] eqn:Hins; [|done]. exfalso.
  apply insert_row_inv in Hins as (tbl' & Ht' & _ & _ & Huq & _).
  simplify_eq. specialize (Huq u Hu). apply not_true_iff_false in Huq. apply Huq.
  apply existsb_elem_of. exists x. unfold rows_of in Hx. rewrite Ht in Hx.
  split; [done|]. unfold collides. rewrite Hkey, Hnn. simpl.
  by apply bool_decide_eq_true.
Qed.

Lemma fill_default_keeps r c col v :
  r !! c = Some v → fill_default r col !! c = Some v.
Proof.
  intros Hr. unfold fill_default.
  destruct (r !! col_name col) eqn:E, (col_default col); try done.
  rewrite lookup_insert_ne; [done|]. intros Heq. rewrite Heq in E. congruence.
Qed.

Lemma filled_keeps s r c v : r !! c = Some v → filled s r !! c = Some v.
Proof.
  unfold filled. generalize (ts_columns s). intros cols. revert r.
  induction cols as [|col cols IH]; intros r Hr; simpl; [done|].
  apply IH. by apply fill_default_keeps.
Qed.

Lemma filled_field s r c : field r c ≠ VNull → field (filled s r) c = field r c.
Proof.
  unfold field. destruct (r !! c) as [v|] eqn:E; simpl; [|done].
  intros _. by rewrite (filled_keeps s r c v E).
Qed.

(** *** Sessions of INSERT and DELETE statements *)

Lemma exec_catalog db s t : catalog (exec db s) t = catalog db t.
Proof.
  unfold exec. destruct (statement s db) as [db'|] eqn:H; simpl; [|done].
  destruct s; simpl in H.
  - by eapply insert_row_catalog.
  - by eapply delete_where_schema.
Qed.

Lemma session_catalog db l t : catalog (session db l) t = catalog db t.
Proof.
  revert db. induction l as [|s l IH]; intros db; simpl; [done|].
  by rewrite IH, exec_catalog.
Qed.

Lemma fks_of_catalog db db' t : catalog db' t = catalog db t → fks_of db' t = fks_of db t.
Proof.
  unfold catalog, fks_of. destruct (db' !! t), (db !! t); intros; simplify_eq/=; congruence.
Qed.

Lemma exec_unique db s t cols :
  declared_unique db t cols →
  unique_on cols (rows_of db t) = true → unique_on cols (rows_of (exec db s) t) = true.
Proof.
  intros (sch & u & Hcat & Hu & Hcols) Hold. unfold exec.
  destruct (statement s db) as [db'|] eqn:H; simpl; [|done].
  destruct s as [t' r0|t' victim]; simpl in H.
  - rewrite (insert_row_rows _ _ _ _ t H). case_decide; [subst|by rewrite app_nil_r].
    rewrite unique_on_snoc, Hold. simpl. apply negb_true_iff.
    apply insert_row_inv in H as (tbl & Ht & _ & _ & Huq & _).
    unfold catalog in *. rewrite Ht in *. simplify_eq/=.
    unfold rows_of. rewrite Ht. simpl. by apply Huq.
  - rewrite (delete_where_rows _ _ _ _ t H). by apply unique_on_filter.
Qed.

Lemma session_unique db l t cols :
  declared_unique db t cols →
  unique_on cols (rows_of db t) = true →
  unique_on cols (rows_of (session db l) t) = true.
Proof.
  revert db. induction l as [|s l IH]; intros db Hd Hu; simpl; [done|].
  apply IH; [|by apply exec_unique].
  destruct Hd as (sch & u & ? & ? & ?). exists sch, u. by rewrite exec_catalog.
Qed.

Lemma has_null_single r c : has_null (key_of [c] r) = false ↔ field r c ≠ VNull.
Proof.
  simpl. rewrite orb_false_r. split.
  - by intros ?%bool_decide_eq_false.
  - intros. by apply bool_decide_eq_false.
Qed.

Lemma exec_keyed db s t c :
  declared_not_null db t c → keyed db t c → keyed (exec db s) t c.
Proof.
  intros (sch & col & Hcat & Hcol & Hname & Hnn) Hold. unfold exec.
  destruct (statement s db) as [db'|] eqn:H; simpl; [|done].
  destruct s as [t' r0|t' victim]; simpl in H; intros r Hr.
  - rewrite (insert_row_rows _ _ _ _ t H) in Hr. apply elem_of_app in Hr as [Hr|Hr];
      [by apply Hold|].
    case_decide; [subst t'|by apply elem_of_nil in Hr].
    apply list_elem_of_singleton in Hr as ->.
    apply insert_row_inv in H as (tbl & Ht & _ & Hnull & _).
    unfold catalog in *. rewrite Ht in *. simplify_eq/=.
    apply has_null_single. by apply Hnull.
  - apply Hold. by eapply delete_where_subset.
Qed.

Lemma session_keyed db l t c :
  declared_not_null db t c → keyed db t c → keyed (session db l) t c.
Proof.
  revert db. induction l as [|s l IH]; intros db Hd Hk; simpl; [done|].
  apply IH; [|by apply exec_keyed].
  destruct Hd as (sch & col & ? & ?). exists sch, col. by rewrite exec_catalog.
Qed.

Lemma fk_satisfied_mono db db' fk r :
  (∀ p, p ∈ rows_of db (fk_ref_table fk) → p ∈ rows_of db' (fk_ref_table fk)) →
  fk_satisfied db fk r = true → fk_satisfied db' fk r = true.
Proof.
  unfold fk_satisfied. intros Hsub [Hn|Hp]%orb_true_iff; [by rewrite Hn|].
  apply orb_true_iff. right. apply existsb_elem_of in Hp as [p [Hp Hr]].
  apply existsb_elem_of. eauto.
Qed.

Lemma exec_fk_holds db s t fk :
  fk ∈ fks_of db t → fk_holds db t fk → fk_holds (exec db s) t fk.
Proof.
  intros Hfk Hold. unfold exec.
  destruct (statement s db) as [db'|] eqn:H; simpl; [|done].
  destruct s as [t' r0|t' victim]; simpl in H.
  - intros r Hr. apply (fk_satisfied_mono db).
    { intros p Hp. rewrite (insert_row_rows _ _ _ _ _ H). apply elem_of_app. by left. }
    rewrite (insert_row_rows _ _ _ _ t H) in Hr. apply elem_of_app in Hr as [Hr|Hr];
      [by apply Hold|].
    case_decide; [subst t'|by apply elem_of_nil in Hr].
    apply list_elem_of_singleton in Hr as ->.
    apply insert_row_inv in H as (tbl & Ht & _ & _ & _ & Hfks).
    unfold catalog, fks_of in *. rewrite Ht in *. simpl in *. by apply Hfks.
  - by eapply delete_where_fk_holds.
Qed.

Lemma session_fk_holds db l t fk :
  fk ∈ fks_of db t → fk_holds db t fk → fk_holds (session db l) t fk.
Proof.
  revert db. induction l as [|s l IH]; intros db Hfk Hh; simpl; [done|].
  apply IH; [|by apply exec_fk_holds].
  by rewrite (fks_of_catalog db (exec db s) t (exec_catalog db s t)).
Qed.

End Engine.

(** * The migration on a pre-migration database *)

Section Verification.

Context (ID_LEN : Z) (naming_convention : NamingConvention).

Implicit Types (db : DB) (t : Table) (s : TableSchema).

Local Abbreviation pre_migration := (pre_migration ID_LEN naming_convention).
Local Abbreviation new_serialized_schema := (new_serialized_schema ID_LEN).
Local Abbreviation upgraded := (upgraded ID_LEN).
Local Abbreviation post_migration := (post_migration ID_LEN).
Local Abbreviation downgraded_serialized_schema := (downgraded_serialized_schema ID_LEN).
Local Abbreviation downgraded := (downgraded ID_LEN).

Lemma run_cons (st : Step) (rest : list Step) db db' :
  st db = Some db' → run (st :: rest) db = run rest db'.
Proof. intros H. simpl. by rewrite H. Qed.

Lemma filter_negb_true {A} (l : list A) : List.filter (λ _, negb true) l = [].
Proof. by induction l. Qed.

Lemma op_execute_delete_no_inbound name db t :
  db !! name = Some t → no_inbound db name →
  op_execute (DELETE_FROM name) db = Some (<[name := with_rows t []]> db).
Proof.
  intros Ht Hno. simpl. rewrite (delete_where_no_inbound _ _ _ _ Ht Hno).
  by rewrite filter_negb_true.
Qed.

Lemma no_inbound_insert db name k t :
  no_inbound db name → referenced_by name t = false → no_inbound (<[k := t]> db) name.
Proof. intros Hno Ht. by apply map_Forall_insert_2. Qed.

Lemma no_inbound_lookup db name k t :
  no_inbound db name → db !! k = Some t → referenced_by name t = false.
Proof. intros Hno Hk. by apply (Hno k t Hk). Qed.

Lemma catalog_insert db k t k' :
  catalog (<[k := t]> db) k' = if decide (k = k') then Some (tbl_schema t) else catalog db k'.
Proof.
  unfold catalog. case_decide; [subst; by rewrite lookup_insert_eq|].
  by rewrite lookup_insert_ne.
Qed.

(** Step 1: the purge. *)
Lemma purge_spec db tdc tsd :
  db !! "dag_code" = Some tdc → db !! "serialized_dag" = Some tsd →
  no_inbound db "dag_code" → no_inbound db "serialized_dag" →
  _delete_serdag_and_code db
  = Some (<["dag_code" := with_rows tdc []]> (<["serialized_dag" := with_rows tsd []]> db)).
Proof.
  intros Hdc Hsd Hidc Hisd. unfold _delete_serdag_and_code, sa_text.
  rewrite (run_cons _ _ _ _ (op_execute_delete_no_inbound _ _ _ Hsd Hisd)).
  erewrite run_cons; [reflexivity|]. apply op_execute_delete_no_inbound.
  - by rewrite lookup_insert_ne.
  - apply no_inbound_insert; [done|]. apply (no_inbound_lookup _ _ _ _ Hidc Hsd).
Qed.

Lemma create_foreign_key_local name ref l r a : local_to ref (create_foreign_key name ref l r a).
Proof.
  intros db db' t Href. unfold create_foreign_key, fk_target_ok, fk_satisfied, rows_of.
  simpl. by rewrite Href.
Qed.

Lemma apply_batch_local ref ops db db' t :
  Forall (local_to ref) ops → db !! ref = db' !! ref →
  apply_batch db ops t = apply_batch db' ops t.
Proof.
  intros Hops Href. revert t. induction Hops as [|o ops Ho _ IH]; intros t; simpl; [done|].
  rewrite (Ho db db' t Href). destruct (o db' t); simpl; auto.
Qed.

Ltac local_ops :=
  repeat first [ apply Forall_nil_2
               | apply Forall_cons_2;
                 [ first [ apply create_foreign_key_local | by intros ? ? ? ? ] | ] ].

Lemma batch_alter_table_eq name rc nm cf ops db t t0 t1 t2 :
  db !! name = Some t → rebase rc cf t = Some t0 → apply_batch db ops t0 = Some t1 →
  arrange rc ops t0 t1 = Some t2 →
  batch_alter_table name rc nm cf ops db = Some (<[name := name_pk nm name t2]> db).
Proof.
  intros Ht H0 H1 H2. unfold batch_alter_table.
  by rewrite Ht; simpl; rewrite H0; simpl; rewrite H1; simpl; rewrite H2.
Qed.

(** A batch that alters its table in place. *)
Lemma batch_alter_table_in_place name nm cf ops db t t1 :
  db !! name = Some t → existsb needs_recreate ops = false →
  apply_batch db ops t = Some t1 →
  batch_alter_table name auto nm cf ops db = Some (<[name := name_pk nm name t1]> db).
Proof.
  intros Ht Hops H1. apply (batch_alter_table_eq _ _ _ _ _ _ t t t1); try done.
  unfold arrange. by rewrite Hops.
Qed.

Lemma old_dagcode_schema_eq :
  nc_pk naming_convention "dag_code" = "dag_code_pkey" →
  td_schema (old_dagcode_table naming_convention)
  = {| ts_columns := [ col "fileloc_hash" BigInteger false;
                       col "fileloc" (String 2000) false;
                       col "last_updated" UtcDateTime false;
                       col "source_code" Text_MEDIUMTEXT false ];
       ts_pk := Some {| pk_name := Some "dag_code_pkey"; pk_columns := ["fileloc_hash"] |};
       ts_uniques := []; ts_fks := []; ts_indexes := [] |}.
Proof.
  intros H. unfold old_dagcode_table, sa_Table, MetaData, describe. simpl.
  unfold flagged_pk. simpl. by rewrite H.
Qed.

Lemma old_serialized_schema_eq :
  nc_pk naming_convention "serialized_dag" = "serialized_dag_pkey" →
  td_schema (old_serialized_table ID_LEN naming_convention)
  = {| ts_columns := [ col "dag_id" (String ID_LEN) false;
                       col "fileloc" (String 2000) false;
                       col "fileloc_hash" BigInteger false;
                       col "data" JSONField true;
                       col "data_compressed" LargeBinary true;
                       col "dag_hash" (String 32) false;
                       col "last_updated" UtcDateTime false;
                       col "processor_subdir" (String 2000) true ];
       ts_pk := Some {| pk_name := Some "serialized_dag_pkey"; pk_columns := ["dag_id"] |};
       ts_uniques := []; ts_fks := [];
       ts_indexes := [ {| ix_name := "idx_fileloc_hash"; ix_columns := ["fileloc_hash"];
                          ix_unique := false |} ] |}.
Proof.
  intros H. unfold old_serialized_table, sa_Table, MetaData, describe. simpl.
  unfold flagged_pk. simpl. by rewrite H.
Qed.

Lemma lookup_ctx (tbl : Table) :
  ({["dag_version" := tbl]} : DB) !! "dag_version" = Some tbl.
Proof. apply lookup_singleton_eq. Qed.

(** Step 3: the dag_code rewrite, on a purged table. *)
Lemma upgrade_dag_code_step db t :
  nc_pk naming_convention "dag_code" = "dag_code_pkey" →
  db !! "dag_code" = Some t →
  tbl_schema t = td_schema (old_dagcode_table naming_convention) →
  tbl_rows t = [] →
  db !! "dag_version" = Some dag_version_table →
  nth 2 (upgrade_statements ID_LEN naming_convention) failing db
  = Some (<["dag_code" := {| tbl_schema := new_dagcode_schema; tbl_rows := [] |}]> db).
Proof.
  intros Hnc Ht Hs Hr Hdv. cbn [nth upgrade_statements].
  pose proof (old_dagcode_schema_eq Hnc) as Hold.
  rewrite (batch_alter_table_eq _ _ _ _ _ db t
             {| tbl_schema := td_schema (old_dagcode_table naming_convention);
                tbl_rows := [] |}
             {| tbl_schema := appended_dagcode_schema; tbl_rows := [] |}
             {| tbl_schema := new_dagcode_schema; tbl_rows := [] |} Ht).
  - done.
  - unfold rebase. rewrite Hs, Hr, Hold. reflexivity.
  - rewrite (apply_batch_local "dag_version" _ db {["dag_version" := dag_version_table]});
      [| local_ops | by rewrite Hdv, lookup_ctx].
    rewrite Hold. vm_compute. reflexivity.
  - rewrite Hold. vm_compute. reflexivity.
Qed.

(** Step 4: the serialized_dag rewrite, on a purged table. *)
Lemma upgrade_serialized_dag_step db t :
  nc_pk naming_convention "serialized_dag" = "serialized_dag_pkey" →
  db !! "serialized_dag" = Some t →
  tbl_schema t = td_schema (old_serialized_table ID_LEN naming_convention) →
  tbl_rows t = [] →
  db !! "dag_version" = Some dag_version_table →
  nth 3 (upgrade_statements ID_LEN naming_convention) failing db
  = Some (<["serialized_dag" :=
             {| tbl_schema := new_serialized_schema; tbl_rows := [] |}]> db).
Proof.
  intros Hnc Ht Hs Hr Hdv. cbn [nth upgrade_statements].
  pose proof (old_serialized_schema_eq Hnc) as Hold.
  rewrite (batch_alter_table_eq _ _ _ _ _ db t
             {| tbl_schema := td_schema (old_serialized_table ID_LEN naming_convention);
                tbl_rows := [] |}
             {| tbl_schema := new_serialized_schema; tbl_rows := [] |}
             {| tbl_schema := new_serialized_schema; tbl_rows := [] |} Ht).
  - done.
  - unfold rebase. rewrite Hs, Hr, Hold. reflexivity.
  - rewrite (apply_batch_local "dag_version" _ db {["dag_version" := dag_version_table]});
      [| local_ops | by rewrite Hdv, lookup_ctx].
    rewrite Hold. vm_compute. reflexivity.
  - rewrite Hold. vm_compute. reflexivity.
Qed.

(** Step 2: the dag_version table. *)
Lemma upgrade_create_table_step db tdag :
  db !! "dag_version" = None →
  db !! "dag" = Some tdag → has_column (tbl_schema tdag) "dag_id" = true →
  nth 1 (upgrade_statements ID_LEN naming_convention) failing db
  = Some (<["dag_version" := dag_version_table]> db).
Proof.
  intros Hdv Hdag Hcol. cbn [nth upgrade_statements]. unfold op_create_table.
  rewrite Hdv. simpl. unfold fk_target_ok. simpl. rewrite Hdag. simpl. rewrite Hcol. done.
Qed.

Lemma apply_batch_cons (o : BatchOp) rest db t t' :
  o db t = Some t' → apply_batch db (o :: rest) t = apply_batch db rest t'.
Proof. intros H. simpl. by rewrite H. Qed.

Lemma add_dag_version_id_eq db t :
  has_column (tbl_schema t) "dag_version_id" = false →
  add_column (sa_Column "dag_version_id" (UUIDType false) []) None db t
  = Some (with_dag_version_id [] t).
Proof.
  intros H. unfold add_column. simpl. rewrite H. simpl.
  unfold with_dag_version_id. by rewrite app_nil_r.
Qed.

Lemma drop_column_eq name db t :
  has_column (tbl_schema t) name = true → drop_column name db t = Some (without_column name t).
Proof. intros H. unfold drop_column. simpl. by rewrite H. Qed.

Lemma create_fk_dag_version_id_eq name db t dv :
  db !! "dag_version" = Some dv →
  has_column (tbl_schema dv) "id" = true →
  existsb (λ k, bool_decide (fk_name k = name)) (ts_fks (tbl_schema t)) = false →
  create_foreign_key name "dag_version" ["dag_version_id"] ["id"] CASCADE db
    (with_dag_version_id [] t)
  = Some (with_dag_version_id [fk_to_dag_version name] t).
Proof.
  intros Hdv Hid Hfk. unfold create_foreign_key, fk_target_ok. simpl. rewrite Hdv, Hid. simpl.
  rewrite app_nil_r, Hfk. simpl.
  replace (has_column _ "dag_version_id") with true.
  2:{ symmetry. apply bool_decide_eq_true. unfold column_names. simpl.
      rewrite fmap_app. apply elem_of_app. right. by apply list_elem_of_singleton. }
  simpl.
  replace (forallb _ _) with true; [done|]. symmetry. apply forallb_elem_of.
  intros r [r0 [-> _]]%list_elem_of_fmap. unfold fk_satisfied, key_of, field. simpl.
  by rewrite lookup_insert_eq.
Qed.

Ltac lookups :=
  repeat first
    [ rewrite lookup_insert_eq | rewrite lookup_insert_ne by done
    | rewrite lookup_alter_eq | rewrite lookup_alter_ne by done
    | rewrite lookup_delete_eq | rewrite lookup_delete_ne by done ].

Ltac not_listed :=
  rewrite ?not_elem_of_cons; repeat split; first [done | apply not_elem_of_nil].

Ltac by_table k names :=
  match names with
  | [] => idtac
  | ?n :: ?rest => destruct (decide (k = n)) as [->|?]; [|by_table k rest]
  end.

Lemma upgrade_spec db : pre_migration db → upgrade ID_LEN naming_convention db = Some (upgraded db).
Proof.
  intros [Hn1 Hn2 (tdc & Hdc & Hsdc)%catalog_Some (tsd & Hsd & Hssd)%catalog_Some Hdv
            (sdag & (tdag & Hdag & <-)%catalog_Some & Hdagid)
            (sti & (tti & Hti & <-)%catalog_Some & Hticol & Htifk)
            (stih & (ttih & Htih & <-)%catalog_Some & Htihcol)
            (sdr & (tdr & Hdr & <-)%catalog_Some & Hdrcol) Hi1 Hi2 Hi3].
  unfold upgrade, upgrade_statements.
  erewrite run_cons; [|exact (purge_spec db tdc tsd Hdc Hsd Hi1 Hi2)].
  erewrite run_cons.
  2:{ apply (upgrade_create_table_step _ tdag). all: first [done | by simplify_map_eq]. }
  erewrite run_cons.
  2:{ apply (upgrade_dag_code_step _ (with_rows tdc [])). all: first [done | by simplify_map_eq]. }
  erewrite run_cons.
  2:{ apply (upgrade_serialized_dag_step _ (with_rows tsd [])). all: first [done | by simplify_map_eq]. }
  erewrite run_cons.
  2:{ eapply (batch_alter_table_in_place _ _ _ _ _ tti); [by simplify_map_eq|reflexivity|].
      erewrite apply_batch_cons; [|by apply add_dag_version_id_eq].
      erewrite apply_batch_cons; [reflexivity|].
      apply (create_fk_dag_version_id_eq _ _ tti dag_version_table);
        [by simplify_map_eq|reflexivity|exact Htifk]. }
  erewrite run_cons.
  2:{ eapply (batch_alter_table_in_place _ _ _ _ _ ttih); [by simplify_map_eq|reflexivity|].
      erewrite apply_batch_cons; [reflexivity|by apply add_dag_version_id_eq]. }
  erewrite run_cons.
  2:{ eapply (batch_alter_table_in_place _ _ _ _ _ tdr); [by simplify_map_eq|reflexivity|].
      erewrite apply_batch_cons; [reflexivity|by apply drop_column_eq]. }
  simpl. f_equal. unfold upgraded, name_pk. apply map_eq. intros k.
  by_table k ["dag_run"; "task_instance_history"; "task_instance"; "serialized_dag";
              "dag_code"; "dag_version"]; lookups; try done.
  - by rewrite Hdr.
  - by rewrite Htih.
  - by rewrite Hti.
Qed.

(** ** [downgrade()] on a versioned database *)

Lemma post_migration_catalog db db' :
  (∀ k, catalog db' k = catalog db k) → post_migration db → post_migration db'.
Proof.
  intros Hc [H1 H2 H3 H4 H5 H6 H7].
  split; rewrite ?Hc; try done. intros k s Hk. rewrite Hc. by apply H7.
Qed.

Lemma rows_of_nil db k t : db !! k = Some t → rows_of db k = [] → tbl_rows t = [].
Proof. unfold rows_of. by intros ->. Qed.

Lemma table_eta t s : tbl_schema t = s → t = {| tbl_schema := s; tbl_rows := tbl_rows t |}.
Proof. destruct t. simpl. by intros ->. Qed.

Lemma drop_fk_eq name db t :
  existsb (λ fk, bool_decide (fk_name fk = name)) (ts_fks (tbl_schema t)) = true →
  drop_constraint name foreignkey db t = Some (without_fk name t).
Proof. intros H. unfold drop_constraint, table_op. simpl. by rewrite H. Qed.

Lemma add_dag_hash_eq db t :
  has_column (tbl_schema t) "dag_hash" = false →
  add_column (sa_Column "dag_hash" (String 32) [autoincrement false; nullable true]) None db t
  = Some (with_dag_hash t).
Proof. intros H. unfold add_column. simpl. by rewrite H. Qed.

Lemma downgrade_steps db1 :
  post_migration db1 →
  rows_of db1 "dag_code" = [] → rows_of db1 "serialized_dag" = [] →
  run (tail (downgrade_statements naming_convention)) db1 = Some (downgraded db1).
Proof.
  intros [(tdv & Hdv & Hsdv)%catalog_Some (tdc & Hdc & Hsdc)%catalog_Some
            (tsd & Hsd & Hssd)%catalog_Some
            (sti & (tti & Hti & <-)%catalog_Some & Hticol & Htifk & Htiref)
            (stih & (ttih & Htih & <-)%catalog_Some & Htihcol)
            (sdr & (tdr & Hdr & <-)%catalog_Some & Hdrcol) Hin] Hrdc Hrsd.
  apply (rows_of_nil _ _ _ Hdc) in Hrdc. apply (rows_of_nil _ _ _ Hsd) in Hrsd.
  apply table_eta in Hsdc, Hssd. rewrite Hrdc in Hsdc. rewrite Hrsd in Hssd.
  unfold downgrade_statements. cbn [tail].
  erewrite run_cons.
  2:{ eapply (batch_alter_table_in_place _ _ _ _ _ ttih); [done|reflexivity|].
      erewrite apply_batch_cons; [reflexivity|by apply drop_column_eq]. }
  erewrite run_cons.
  2:{ eapply (batch_alter_table_in_place _ _ _ _ _ tti); [by simplify_map_eq|reflexivity|].
      erewrite apply_batch_cons; [|apply drop_fk_eq; exact Htifk].
      erewrite apply_batch_cons; [reflexivity|apply drop_column_eq; exact Hticol]. }
  erewrite run_cons.
  2:{ eapply (batch_alter_table_in_place _ _ _ _ _ tdc
                {| tbl_schema := downgraded_dagcode_schema; tbl_rows := [] |});
        [by simplify_map_eq|reflexivity|].
      rewrite Hsdc. vm_compute. reflexivity. }
  erewrite run_cons.
  2:{ eapply (batch_alter_table_in_place _ _ _ _ _ tsd
                {| tbl_schema := downgraded_serialized_schema; tbl_rows := [] |});
        [by simplify_map_eq|reflexivity|].
      rewrite Hssd. vm_compute. reflexivity. }
  erewrite run_cons.
  2:{ eapply (batch_alter_table_in_place _ _ _ _ _ tdr); [by simplify_map_eq|reflexivity|].
      erewrite apply_batch_cons; [reflexivity|by apply add_dag_hash_eq]. }
  erewrite run_cons; [reflexivity|].
  unfold name_pk at 1 2 5. cbn [name_pk tbl_schema ts_pk downgraded_dagcode_schema
    downgraded_serialized_schema pk_name].
  assert (Heq : ∀ db, db = downgraded db1 → op_drop_table "dag_version"
      (<["dag_run" := with_dag_hash tdr]> (<["serialized_dag" :=
          {| tbl_schema := downgraded_serialized_schema; tbl_rows := [] |}]>
        (<["dag_code" := {| tbl_schema := downgraded_dagcode_schema; tbl_rows := [] |}]>
          (<["task_instance" := without_column "dag_version_id"
                         (without_fk "task_instance_dag_version_id_fkey" tti)]>
            (<["task_instance_history" := without_column "dag_version_id" ttih]> db1)))))
      = Some db).
  2:{ by apply Heq. }
  intros ? ->. unfold op_drop_table.
  rewrite !lookup_insert_ne by done. rewrite Hdv. simpl.
  rewrite bool_decide_eq_true_2.
  - f_equal. unfold downgraded. apply map_eq. intros k.
    by_table k ["dag_version"; "dag_run"; "serialized_dag"; "dag_code"; "task_instance";
                "task_instance_history"]; lookups; try done.
    + by rewrite Hdr.
    + by rewrite Hti.
    + by rewrite Htih.
  - intros k tbl Hk. simpl.
    by_table k ["dag_version"; "dag_run"; "serialized_dag"; "dag_code"; "task_instance";
                "task_instance_history"]; revert Hk; lookups; intros Hk; simplify_eq; try done.
    + apply (Hin "dag_run" (tbl_schema tdr)); [not_listed|]. unfold catalog. by rewrite Hdr.
    + unfold referenced_by. simpl. apply not_true_iff_false.
      intros [fk [Hfk Href]]%existsb_elem_of.
      apply elem_of_filter_bool in Hfk as [Hfk Hm].
      apply elem_of_filter_bool in Hfk as [Hfk Hnm].
      rewrite forallb_elem_of in Htiref. specialize (Htiref fk Hfk).
      rewrite Href in Htiref. simpl in Htiref.
      apply negb_true_iff in Hm, Hnm. by rewrite Hm, Hnm in Htiref.
    + unfold referenced_by. simpl. apply not_true_iff_false.
      intros [fk [Hfk Href]]%existsb_elem_of.
      apply elem_of_filter_bool in Hfk as [Hfk _].
      assert (Hno := Hin "task_instance_history" (tbl_schema ttih)).
      rewrite <- not_true_iff_false in Hno. apply Hno; [not_listed| |].
      * unfold catalog. by rewrite Htih.
      * apply existsb_elem_of. eauto.
    + apply (Hin k (tbl_schema tbl)); [not_listed|]. unfold catalog. by rewrite Hk.
Qed.

Lemma existsb_false_iff {A} (p : A → bool) (l : list A) :
  existsb p l = false ↔ ∀ x, x ∈ l → p x = false.
Proof.
  rewrite <- not_true_iff_false, existsb_elem_of. split.
  - intros H x Hx. apply not_true_iff_false. intros Hp. apply H. eauto.
  - intros H [x [Hx Hp]]. by rewrite (H x Hx) in Hp.
Qed.

Lemma has_column_without name t :
  has_column (tbl_schema (without_column name t)) name = false.
Proof.
  apply bool_decide_eq_false. unfold column_names. simpl.
  intros [c [Hn Hc]]%list_elem_of_fmap. apply elem_of_filter_bool in Hc as [_ Hc].
  apply negb_true_iff, bool_decide_eq_false in Hc. done.
Qed.

Lemma has_dag_version_id extra t :
  has_column (tbl_schema (with_dag_version_id extra t)) "dag_version_id" = true.
Proof.
  apply bool_decide_eq_true. unfold column_names. simpl. rewrite fmap_app.
  apply elem_of_app. right. by apply list_elem_of_singleton.
Qed.

Lemma upgraded_lookup_dag_version db :
  upgraded db !! "dag_version" = Some dag_version_table.
Proof. unfold upgraded. by lookups. Qed.

Lemma upgraded_lookup_dag_code db :
  upgraded db !! "dag_code"
  = Some {| tbl_schema := new_dagcode_schema; tbl_rows := [] |}.
Proof. unfold upgraded. by lookups. Qed.

Lemma upgraded_lookup_serialized_dag db :
  upgraded db !! "serialized_dag"
  = Some {| tbl_schema := new_serialized_schema; tbl_rows := [] |}.
Proof. unfold upgraded. by lookups. Qed.

Lemma upgraded_lookup_task_instance db :
  upgraded db !! "task_instance"
  = with_dag_version_id [fk_to_dag_version "task_instance_dag_version_id_fkey"]
      <$> db !! "task_instance".
Proof. unfold upgraded. by lookups. Qed.

Lemma upgraded_lookup_task_instance_history db :
  upgraded db !! "task_instance_history"
  = with_dag_version_id [] <$> db !! "task_instance_history".
Proof. unfold upgraded. by lookups. Qed.

Lemma upgraded_lookup_dag_run db :
  upgraded db !! "dag_run" = without_column "dag_hash" <$> db !! "dag_run".
Proof. unfold upgraded. by lookups. Qed.

Lemma upgraded_lookup_other db k :
  k ∉ ["dag_run"; "task_instance_history"; "task_instance"; "serialized_dag";
       "dag_code"; "dag_version"] →
  upgraded db !! k = db !! k.
Proof.
  rewrite !not_elem_of_cons. intros (? & ? & ? & ? & ? & ? & _).
  unfold upgraded. by lookups.
Qed.

Lemma upgraded_post_migration db : pre_migration db → post_migration (upgraded db).
Proof.
  intros [Hn1 Hn2 _ _ Hdv
            (sdag & (tdag & Hdag & <-)%catalog_Some & Hdagid)
            (sti & (tti & Hti & <-)%catalog_Some & Hticol & Htifk)
            (stih & (ttih & Htih & <-)%catalog_Some & Htihcol)
            (sdr & (tdr & Hdr & <-)%catalog_Some & Hdrcol) Hi1 Hi2 Hi3].
  split; unfold catalog.
  - by rewrite upgraded_lookup_dag_version.
  - by rewrite upgraded_lookup_dag_code.
  - by rewrite upgraded_lookup_serialized_dag.
  - rewrite upgraded_lookup_task_instance, Hti. eexists. split; [reflexivity|].
    split; [apply has_dag_version_id|]. simpl. split.
    + rewrite existsb_app. simpl. by rewrite orb_true_r.
    + rewrite forallb_app. simpl. rewrite andb_true_r. apply forallb_elem_of.
      intros fk Hfk. replace (bool_decide (fk_ref_table fk = "dag_version")) with false; [done|].
      symmetry. apply bool_decide_eq_false.
      apply (no_inbound_fk _ _ "task_instance" _ Hi3). unfold fks_of. by rewrite Hti.
  - rewrite upgraded_lookup_task_instance_history, Htih. eexists. split; [reflexivity|].
    apply has_dag_version_id.
  - rewrite upgraded_lookup_dag_run, Hdr. eexists. split; [reflexivity|].
    apply has_column_without.
  - intros k s Hk Hs. apply existsb_false_iff. intros fk Hfk.
    apply bool_decide_eq_false.
    by_table k ["dag_run"; "task_instance_history"].
    + rewrite upgraded_lookup_dag_run, Hdr in Hs. simplify_eq/=.
      apply elem_of_filter_bool in Hfk as [Hfk _].
      apply (no_inbound_fk _ _ "dag_run" _ Hi3). unfold fks_of. by rewrite Hdr.
    + rewrite upgraded_lookup_task_instance_history, Htih in Hs. simplify_eq/=.
      rewrite app_nil_r in Hfk.
      apply (no_inbound_fk _ _ "task_instance_history" _ Hi3). unfold fks_of.
      by rewrite Htih.
    + rewrite upgraded_lookup_other in Hs.
      2:{ rewrite !not_elem_of_cons in Hk. destruct Hk as (? & ? & ? & ? & _). not_listed. }
      apply (no_inbound_fk _ _ k _ Hi3). unfold fks_of.
      destruct (db !! k); simplify_eq/=. done.
Qed.

(** Rows that hang on dag_version through an ON DELETE CASCADE key do not
    survive [DELETE FROM dag_version]. *)
Lemma cascade_empties db db1 (t0 name : string) (fk : ForeignKey) :
  delete_where t0 (λ _, true) db = Some db1 →
  fk ∈ fks_of db name → fk_ref_table fk = t0 → fk_ondelete fk = CASCADE →
  (∀ r, r ∈ rows_of db name → existsb (references fk r) (rows_of db t0) = true) →
  rows_of db1 name = [].
Proof.
  intros Hdel Hfk Href Hact Hanch. rewrite (delete_where_rows _ _ _ _ name Hdel).
  apply filter_none. intros r Hr. apply negb_false_iff.
  rewrite <- (doomed_closed db t0 _ name r Hr). simpl. apply orb_true_iff. right.
  apply pulled_spec. specialize (Hanch r Hr).
  apply existsb_elem_of in Hanch as [p [Hp Hrp]].
  exists fk, p. rewrite Href. repeat split; try done.
  apply (doomed_le db t0 _ 0); [lia|]. simpl. by rewrite bool_decide_eq_true_2.
Qed.

(** * Properties of the migration *)

(** C7: [upgrade()] rewrites dag_code: the primary key on the natural key
    [fileloc_hash] gives way to a primary key on the new surrogate [id];
    [dag_version_id] is added NOT NULL, unique, and as a foreign key to
    [dag_version.id] with ON DELETE CASCADE; [source_code_hash] (32
    characters), [dag_id] and [created_at] are added; and [fileloc_hash]
    is dropped. *)
Theorem upgrade_rewrites_dag_code db :
  pre_migration db →
  ∃ post before after,
    upgrade ID_LEN naming_convention db = Some post
    ∧ catalog db "dag_code" = Some before
    ∧ catalog post "dag_code" = Some after
    ∧ ts_pk before
      = Some {| pk_name := Some "dag_code_pkey"; pk_columns := ["fileloc_hash"] |}
    ∧ ts_pk after = Some {| pk_name := Some "dag_code_pkey"; pk_columns := ["id"] |}
    ∧ column after "id" = Some (col "id" (UUIDType false) false)
    ∧ column after "dag_version_id" = Some (col "dag_version_id" (UUIDType false) false)
    ∧ ts_uniques after
      = [ {| uq_name := "dag_code_dag_version_id_uq"; uq_columns := ["dag_version_id"] |} ]
    ∧ ts_fks after
      = [ {| fk_name := "dag_code_dag_version_id_fkey"; fk_columns := ["dag_version_id"];
             fk_ref_table := "dag_version"; fk_ref_columns := ["id"];
             fk_ondelete := CASCADE |} ]
    ∧ column after "source_code_hash" = Some (col "source_code_hash" (String 32) false)
    ∧ column after "dag_id" = Some (col "dag_id" (String 250) false)
    ∧ column after "created_at" = Some (col "created_at" UtcDateTime false)
    ∧ column before "fileloc_hash" = Some (col "fileloc_hash" BigInteger false)
    ∧ column after "fileloc_hash" = None.
Proof.
  intros Hpre. pose proof (upgrade_spec db Hpre) as Hup.
  destruct Hpre as [Hn _ Hdc _ _ _ _ _ _ _ _ _].
  rewrite (old_dagcode_schema_eq Hn) in Hdc.
  eexists _, _, _. split; [exact Hup|]. split; [exact Hdc|].
  split; [unfold catalog; by rewrite upgraded_lookup_dag_code|].
  repeat split.
Qed.

(** C10: the columns of the artifact tables that [upgrade()] neither adds
    nor drops come out of the rewrite with the same type and nullability:
    [fileloc], [last_updated] and [source_code] on dag_code; [dag_id],
    [data], [data_compressed], [dag_hash], [last_updated] and
    [processor_subdir] on serialized_dag. *)
Theorem upgrade_keeps_other_columns db :
  pre_migration db →
  ∃ post dc dc' sd sd',
    upgrade ID_LEN naming_convention db = Some post
    ∧ catalog db "dag_code" = Some dc ∧ catalog post "dag_code" = Some dc'
    ∧ catalog db "serialized_dag" = Some sd ∧ catalog post "serialized_dag" = Some sd'
    ∧ (∀ name, name ∈ ["fileloc"; "last_updated"; "source_code"] →
         is_Some (column dc name) ∧ column dc' name = column dc name)
    ∧ (∀ name, name ∈ ["dag_id"; "data"; "data_compressed"; "dag_hash"; "last_updated";
                        "processor_subdir"] →
         is_Some (column sd name) ∧ column sd' name = column sd name).
Proof.
  intros Hpre. pose proof (upgrade_spec db Hpre) as Hup.
  destruct Hpre as [Hn1 Hn2 Hdc Hsd _ _ _ _ _ _ _ _].
  rewrite (old_dagcode_schema_eq Hn1) in Hdc.
  rewrite (old_serialized_schema_eq Hn2) in Hsd.
  eexists _, _, _, _, _. split; [exact Hup|]. split; [exact Hdc|].
  split; [unfold catalog; by rewrite upgraded_lookup_dag_code|].
  split; [exact Hsd|].
  split; [unfold catalog; by rewrite upgraded_lookup_serialized_dag|].
  split; intros name Hin; repeat (apply elem_of_cons in Hin as [->|Hin]);
    try (by apply elem_of_nil in Hin); split; try reflexivity; by eexists.
Qed.

(** C5 (as amended): [upgrade()] adds a nullable [dag_version_id] column to
    both task_instance and task_instance_history.  On task_instance the
    column is a foreign key to [dag_version.id] with ON DELETE CASCADE; on
    task_instance_history it is a plain column: the table's foreign keys
    are the ones it had before, and none of them targets dag_version. *)
Theorem upgrade_extends_execution_tables db :
  pre_migration db →
  ∃ post ti ti' tih tih',
    upgrade ID_LEN naming_convention db = Some post
    ∧ catalog db "task_instance" = Some ti
    ∧ catalog post "task_instance" = Some ti'
    ∧ catalog db "task_instance_history" = Some tih
    ∧ catalog post "task_instance_history" = Some tih'
    ∧ ts_columns ti' = ts_columns ti ++ [col "dag_version_id" (UUIDType false) true]
    ∧ ts_columns tih' = ts_columns tih ++ [col "dag_version_id" (UUIDType false) true]
    ∧ ts_fks ti'
      = ts_fks ti
        ++ [ {| fk_name := "task_instance_dag_version_id_fkey";
                fk_columns := ["dag_version_id"]; fk_ref_table := "dag_version";
                fk_ref_columns := ["id"]; fk_ondelete := CASCADE |} ]
    ∧ ts_fks tih' = ts_fks tih
    ∧ (∀ fk, fk ∈ ts_fks tih' → fk_ref_table fk ≠ "dag_version").
Proof.
  intros Hpre. pose proof (upgrade_spec db Hpre) as Hup.
  destruct Hpre as [_ _ _ _ _ _ (sti & Hti & _) (stih & Htih & _) _ _ _ Hin].
  pose proof Hti as Hti'. pose proof Htih as Htih'.
  apply catalog_Some in Hti' as (tti & Hlti & <-).
  apply catalog_Some in Htih' as (ttih & Hltih & <-).
  eexists _, _, _, _, _. split; [exact Hup|]. split; [exact Hti|].
  split; [unfold catalog; rewrite upgraded_lookup_task_instance, Hlti; reflexivity|].
  split; [exact Htih|].
  split; [unfold catalog; rewrite upgraded_lookup_task_instance_history, Hltih; reflexivity|].
  simpl. rewrite app_nil_r. repeat split.
  intros fk Hfk. apply (no_inbound_fk _ _ "task_instance_history" _ Hin).
  unfold fks_of. by rewrite Hltih.
Qed.

Lemma upgrade_purges_first_aux db :
  pre_migration db →
  ∃ purged,
    _delete_serdag_and_code db = Some purged
    ∧ rows_of purged "dag_code" = []
    ∧ rows_of purged "serialized_dag" = []
    ∧ run (tail (upgrade_statements ID_LEN naming_convention)) purged
      = upgrade ID_LEN naming_convention db.
Proof.
  intros [_ _ (tdc & Hdc & Hsdc)%catalog_Some (tsd & Hsd & Hssd)%catalog_Some
            _ _ _ _ _ Hi1 Hi2 _].
  pose proof (purge_spec db tdc tsd Hdc Hsd Hi1 Hi2) as Hpurge.
  eexists. split; [exact Hpurge|].
  split; [unfold rows_of; by lookups|].
  split; [unfold rows_of; by lookups|].
  unfold upgrade, upgrade_statements. cbn [tail]. by rewrite (run_cons _ _ _ _ Hpurge).
Qed.

(** C3: the purge is the first statement of [upgrade()].  It empties
    serialized_dag and dag_code while the catalog is still the
    pre-migration one (no dag_version table yet, artifact tables not yet
    rewritten); the rest of [upgrade()] runs on the purged database, and
    both tables are still empty when [upgrade()] returns. *)
Theorem upgrade_purges_first db :
  pre_migration db →
  head (upgrade_statements ID_LEN naming_convention) = Some _delete_serdag_and_code
  ∧ ∃ purged post,
      _delete_serdag_and_code db = Some purged
      ∧ rows_of purged "serialized_dag" = []
      ∧ rows_of purged "dag_code" = []
      ∧ (∀ name, catalog purged name = catalog db name)
      ∧ catalog purged "dag_version" = None
      ∧ run (tail (upgrade_statements ID_LEN naming_convention)) purged = Some post
      ∧ upgrade ID_LEN naming_convention db = Some post
      ∧ rows_of post "serialized_dag" = []
      ∧ rows_of post "dag_code" = [].
Proof.
  intros Hpre. split; [reflexivity|].
  pose proof (upgrade_spec db Hpre) as Hup.
  destruct Hpre as [_ _ (tdc & Hdc & Hsdc)%catalog_Some (tsd & Hsd & Hssd)%catalog_Some
                      Hdv _ _ _ _ Hi1 Hi2 _].
  pose proof (purge_spec db tdc tsd Hdc Hsd Hi1 Hi2) as Hpurge.
  eexists _, _. split; [exact Hpurge|].
  split; [unfold rows_of; by lookups|].
  split; [unfold rows_of; by lookups|].
  split.
  { intros name. rewrite !catalog_insert. repeat case_decide; subst; unfold catalog.
    - by rewrite Hdc.
    - by rewrite Hsd.
    - done. }
  split; [unfold catalog; lookups; by rewrite Hdv|].
  split.
  { unfold upgrade, upgrade_statements in Hup. cbn [tail].
    by rewrite (run_cons _ _ _ _ Hpurge) in Hup. }
  split; [exact Hup|].
  unfold rows_of. by rewrite upgraded_lookup_serialized_dag, upgraded_lookup_dag_code.
Qed.

Lemma unique_in_session db0 stmts name cols :
  declared_unique db0 name cols → rows_of db0 name = [] →
  declared_unique (session db0 stmts) name cols
  ∧ unique_on cols (rows_of (session db0 stmts) name) = true.
Proof.
  intros Hd Hrows. split.
  - destruct Hd as (s & u & Hs & Hu). exists s, u. by rewrite session_catalog.
  - apply session_unique; [done|]. by rewrite Hrows.
Qed.

Lemma duplicate_key_rejected db name cols r x :
  declared_unique db name cols →
  x ∈ rows_of db name →
  has_null (key_of cols x) = false →
  (∀ c, c ∈ cols → field r c = field x c) →
  insert_row name r db = None.
Proof.
  intros (s & u & Hs & Hu & Hcols) Hx Hnn Hsame.
  apply (insert_row_duplicate name r db cols x s Hs); [by exists u|done| |done].
  assert (Hkey : key_of cols r = key_of cols x).
  { unfold key_of. apply list_fmap_ext. intros i c Hc. apply Hsame.
    by eapply list_elem_of_lookup_2. }
  rewrite <- Hkey. unfold key_of. apply list_fmap_ext. intros i c Hc.
  apply filled_field. rewrite Hsame by (by eapply list_elem_of_lookup_2).
  intros Hnull. apply not_true_iff_false in Hnn. apply Hnn.
  apply existsb_elem_of. exists (field x c). split; [|by apply bool_decide_eq_true].
  apply list_elem_of_fmap. exists c. split; [done|]. by eapply list_elem_of_lookup_2.
Qed.

(** C1: after [upgrade()], serialized_dag and dag_code each carry a unique
    constraint on [dag_version_id].  Whatever INSERT and DELETE statements
    follow, each table holds at most one row for a given version id, and
    an INSERT for a version that already has its row is rejected. *)
Theorem one_artifact_per_version db stmts name v :
  pre_migration db →
  name ∈ ["serialized_dag"; "dag_code"] →
  v ≠ VNull →
  ∃ post,
    upgrade ID_LEN naming_convention db = Some post
    ∧ declared_unique (session post stmts) name ["dag_version_id"]
    ∧ (length (List.filter (λ r, bool_decide (field r "dag_version_id" = v))
                 (rows_of (session post stmts) name)) ≤ 1)%nat
    ∧ ∀ r x, x ∈ rows_of (session post stmts) name →
             field x "dag_version_id" = v → field r "dag_version_id" = v →
             insert_row name r (session post stmts) = None.
Proof.
  intros Hpre Hname Hv. exists (upgraded db). split; [by apply upgrade_spec|].
  assert (declared_unique (upgraded db) name ["dag_version_id"]
          ∧ rows_of (upgraded db) name = []) as [Hd Hrows].
  { repeat (apply elem_of_cons in Hname as [->|Hname]); [| |by apply elem_of_nil in Hname];
      unfold declared_unique, catalog, rows_of.
    - rewrite upgraded_lookup_serialized_dag. split; [|done].
      eexists _, _. split; [reflexivity|]. split; [apply list_elem_of_here|done].
    - rewrite upgraded_lookup_dag_code. split; [|done].
      eexists _, _. split; [reflexivity|]. split; [apply list_elem_of_here|done]. }
  destruct (unique_in_session _ stmts _ _ Hd Hrows) as [Hd' Hu].
  split; [done|]. split.
  - pose proof (unique_on_count _ _ [v] Hu) as Hc. simpl in Hc.
    rewrite (filter_ext _ (λ r : Row, bool_decide (key_of ["dag_version_id"] r = [v]))).
    + apply Hc. rewrite orb_false_r. by apply bool_decide_eq_false.
    + intros r. apply bool_decide_ext. unfold key_of. simpl. split; [by intros ->|].
      by intros [=].
  - intros r x Hx Hxv Hrv. apply (duplicate_key_rejected _ _ _ r x Hd' Hx).
    + apply has_null_single. by rewrite Hxv.
    + intros c ->%list_elem_of_singleton. by rewrite Hxv, Hrv.
Qed.

(** C4: after [upgrade()], dag_version carries a unique constraint on
    [(dag_id, version_number)].  Whatever INSERT and DELETE statements
    follow, no two version rows of one dag share a version number, and an
    INSERT that repeats a stored pair is rejected. *)
Theorem version_number_unique_per_dag db stmts d n :
  pre_migration db →
  d ≠ VNull → n ≠ VNull →
  ∃ post,
    upgrade ID_LEN naming_convention db = Some post
    ∧ declared_unique (session post stmts) "dag_version" ["dag_id"; "version_number"]
    ∧ (length (List.filter
                 (λ r, bool_decide (field r "dag_id" = d ∧ field r "version_number" = n))
                 (rows_of (session post stmts) "dag_version")) ≤ 1)%nat
    ∧ ∀ r x, x ∈ rows_of (session post stmts) "dag_version" →
             field x "dag_id" = d → field x "version_number" = n →
             field r "dag_id" = d → field r "version_number" = n →
             insert_row "dag_version" r (session post stmts) = None.
Proof.
  intros Hpre Hd Hn. exists (upgraded db). split; [by apply upgrade_spec|].
  assert (declared_unique (upgraded db) "dag_version" ["dag_id"; "version_number"]
          ∧ rows_of (upgraded db) "dag_version" = []) as [Hdu Hrows].
  { unfold declared_unique, catalog, rows_of. rewrite upgraded_lookup_dag_version.
    split; [|done]. eexists _, _. split; [reflexivity|].
    split; [apply list_elem_of_here|done]. }
  destruct (unique_in_session _ stmts _ _ Hdu Hrows) as [Hd' Hu].
  split; [done|]. split.
  - pose proof (unique_on_count _ _ [d; n] Hu) as Hc. simpl in Hc.
    rewrite (filter_ext _ (λ r : Row,
               bool_decide (key_of ["dag_id"; "version_number"] r = [d; n]))).
    + apply Hc. rewrite orb_false_r. apply orb_false_iff.
      split; by apply bool_decide_eq_false.
    + intros r. apply bool_decide_ext. unfold key_of. simpl. split; [by intros [-> ->]|].
      by intros [=].
  - intros r x Hx Hxd Hxn Hrd Hrn. apply (duplicate_key_rejected _ _ _ r x Hd' Hx).
    + simpl. rewrite Hxd, Hxn, orb_false_r. apply orb_false_iff.
      split; by apply bool_decide_eq_false.
    + intros c Hc. repeat (apply elem_of_cons in Hc as [->|Hc]);
        [congruence|congruence|by apply elem_of_nil in Hc].
Qed.

Lemma downgrade_spec db db1 :
  post_migration db →
  op_execute (sa_text (DELETE_FROM "dag_version")) db = Some db1 →
  rows_of db1 "dag_code" = [] → rows_of db1 "serialized_dag" = [] →
  downgrade naming_convention db = Some (downgraded db1).
Proof.
  intros Hpost Hdel Hdc Hsd. unfold downgrade.
  pose proof (downgrade_steps db1) as Hsteps.
  unfold downgrade_statements in *. cbn [tail] in Hsteps.
  rewrite (run_cons _ _ _ _ Hdel). apply Hsteps; [|done..].
  apply (post_migration_catalog db); [|done].
  intros k. unfold catalog. exact (delete_where_schema _ _ _ _ k Hdel).
Qed.

Lemma session_post_migration db stmts :
  pre_migration db → post_migration (session (upgraded db) stmts).
Proof.
  intros Hpre. apply (post_migration_catalog (upgraded db)).
  - intros k. apply session_catalog.
  - by apply upgraded_post_migration.
Qed.

(** Every artifact row of a versioned database points at a stored
    version: the column is NOT NULL and the foreign key is enforced. *)
Lemma artifacts_anchored db stmts name fkname r :
  (name, fkname) ∈ [("dag_code", "dag_code_dag_version_id_fkey");
                    ("serialized_dag", "serialized_dag_dag_version_id_fkey")] →
  r ∈ rows_of (session (upgraded db) stmts) name →
  existsb (references (fk_to_dag_version fkname) r)
    (rows_of (session (upgraded db) stmts) "dag_version") = true.
Proof.
  intros Hname Hr.
  assert (fk_to_dag_version fkname ∈ fks_of (upgraded db) name
          ∧ declared_not_null (upgraded db) name "dag_version_id"
          ∧ rows_of (upgraded db) name = []) as (Hfk & Hnn & Hrows).
  { repeat (apply elem_of_cons in Hname as [[= -> ->]|Hname]);
      [| |by apply elem_of_nil in Hname];
      unfold fks_of, declared_not_null, catalog, rows_of.
    - rewrite upgraded_lookup_dag_code. simpl. split; [apply list_elem_of_here|].
      split; [|done]. exists new_dagcode_schema, (col "dag_version_id" (UUIDType false) false).
      repeat split. unfold new_dagcode_schema. simpl.
      do 4 apply list_elem_of_further. apply list_elem_of_here.
    - rewrite upgraded_lookup_serialized_dag. simpl. split; [apply list_elem_of_here|].
      split; [|done].
      exists new_serialized_schema, (col "dag_version_id" (UUIDType false) false).
      repeat split. unfold new_serialized_schema. simpl.
      do 7 apply list_elem_of_further. apply list_elem_of_here. }
  assert (Hk : keyed (session (upgraded db) stmts) name "dag_version_id").
  { apply session_keyed; [done|]. intros x. rewrite Hrows. by intros ?%elem_of_nil. }
  assert (Hh : fk_holds (session (upgraded db) stmts) name (fk_to_dag_version fkname)).
  { apply session_fk_holds; [done|]. intros x. rewrite Hrows. by intros ?%elem_of_nil. }
  specialize (Hh r Hr). specialize (Hk r Hr). unfold fk_satisfied in Hh.
  apply orb_true_iff in Hh as [Hnull|Hp]; [|done].
  apply has_null_single in Hk. simpl in Hk, Hnull. congruence.
Qed.

(** The opening DELETE of [downgrade()] empties dag_version and, through
    the cascading keys, both artifact tables. *)
Lemma downgrade_delete_empties db stmts db1 :
  op_execute (sa_text (DELETE_FROM "dag_version")) (session (upgraded db) stmts) = Some db1 →
  rows_of db1 "dag_version" = []
  ∧ rows_of db1 "dag_code" = []
  ∧ rows_of db1 "serialized_dag" = [].
Proof.
  intros Hdel. simpl in Hdel. split; [|split].
  - apply elem_of_nil_inv. intros r Hr.
    by pose proof (delete_where_victims _ _ _ _ _ Hdel Hr).
  - apply (cascade_empties _ _ _ _ (fk_to_dag_version "dag_code_dag_version_id_fkey") Hdel);
      try done.
    + rewrite (fks_of_catalog (upgraded db)) by apply session_catalog.
      unfold fks_of. rewrite upgraded_lookup_dag_code. apply list_elem_of_here.
    + intros r Hr. apply (artifacts_anchored db stmts "dag_code"); [|done].
      apply list_elem_of_here.
  - apply (cascade_empties _ _ _ _
             (fk_to_dag_version "serialized_dag_dag_version_id_fkey") Hdel); try done.
    + rewrite (fks_of_catalog (upgraded db)) by apply session_catalog.
      unfold fks_of. rewrite upgraded_lookup_serialized_dag. apply list_elem_of_here.
    + intros r Hr. apply (artifacts_anchored db stmts "serialized_dag"); [|done].
      apply list_elem_of_further, list_elem_of_here.
Qed.

Lemma column_without name t : column (tbl_schema (without_column name t)) name = None.
Proof.
  unfold column. simpl.
  destruct (List.find _ _) as [c|] eqn:E; [|done].
  apply find_some in E as [Hc%list_elem_of_In Hn].
  apply elem_of_filter_bool in Hc as [_ Hc]. apply negb_true_iff in Hc. congruence.
Qed.

Lemma find_app_new {A} (p : A → bool) (l : list A) x :
  (∀ y, y ∈ l → p y = false) → p x = true → List.find p (l ++ [x]) = Some x.
Proof.
  intros Hl Hx. induction l as [|y l IH]; simpl; [by rewrite Hx|].
  rewrite (Hl y (list_elem_of_here _ _)). apply IH. intros z Hz. apply Hl.
  by apply list_elem_of_further.
Qed.

Lemma column_appended s c :
  has_column s (col_name c) = false →
  List.find (λ x, bool_decide (col_name x = col_name c)) (ts_columns s ++ [c]) = Some c.
Proof.
  intros H. apply find_app_new; [|by apply bool_decide_eq_true].
  intros y Hy. apply bool_decide_eq_false. intros Heq.
  apply bool_decide_eq_false in H. apply H. unfold column_names.
  apply list_elem_of_fmap. eauto.
Qed.

Lemma downgraded_lookup_dag_version db1 : downgraded db1 !! "dag_version" = None.
Proof. unfold downgraded. by lookups. Qed.

Lemma downgraded_lookup_dag_run db1 :
  downgraded db1 !! "dag_run" = with_dag_hash <$> db1 !! "dag_run".
Proof. unfold downgraded. by lookups. Qed.

Lemma downgraded_lookup_serialized_dag db1 :
  downgraded db1 !! "serialized_dag"
  = Some {| tbl_schema := downgraded_serialized_schema; tbl_rows := [] |}.
Proof. unfold downgraded. by lookups. Qed.

Lemma downgraded_lookup_dag_code db1 :
  downgraded db1 !! "dag_code"
  = Some {| tbl_schema := downgraded_dagcode_schema; tbl_rows := [] |}.
Proof. unfold downgraded. by lookups. Qed.

Lemma downgraded_lookup_task_instance db1 :
  downgraded db1 !! "task_instance"
  = (λ t, without_column "dag_version_id"
            (without_fk "task_instance_dag_version_id_fkey" t)) <$> db1 !! "task_instance".
Proof. unfold downgraded. by lookups. Qed.

Lemma downgraded_lookup_task_instance_history db1 :
  downgraded db1 !! "task_instance_history"
  = without_column "dag_version_id" <$> db1 !! "task_instance_history".
Proof. unfold downgraded. by lookups. Qed.

(** C8: [downgrade()] opens with [DELETE FROM dag_version], which leaves
    dag_version and, by cascade, dag_code and serialized_dag without rows.
    It then removes [dag_version_id] and the foreign key to dag_version
    from the execution-record tables, puts the natural-key primary keys
    and the dropped columns back on the (still empty) artifact tables, and
    restores [dag_run.dag_hash] as a nullable column that reads NULL in
    every row. *)
Theorem downgrade_reverses_upgrade db post stmts db1 :
  pre_migration db →
  upgrade ID_LEN naming_convention db = Some post →
  op_execute (sa_text (DELETE_FROM "dag_version")) (session post stmts) = Some db1 →
  head (downgrade_statements naming_convention)
  = Some (op_execute (sa_text (DELETE_FROM "dag_version")))
  ∧ rows_of db1 "dag_version" = []
  ∧ rows_of db1 "dag_code" = []
  ∧ rows_of db1 "serialized_dag" = []
  ∧ ∃ back ti tih dc sd dr,
      downgrade naming_convention (session post stmts) = Some back
      ∧ catalog back "task_instance" = Some ti
      ∧ column ti "dag_version_id" = None
      ∧ (∀ fk, fk ∈ ts_fks ti → fk_ref_table fk ≠ "dag_version")
      ∧ catalog back "task_instance_history" = Some tih
      ∧ column tih "dag_version_id" = None
      ∧ catalog back "dag_code" = Some dc
      ∧ ts_pk dc = Some {| pk_name := Some "dag_code_pkey"; pk_columns := ["fileloc_hash"] |}
      ∧ column dc "fileloc_hash" = Some (col "fileloc_hash" BigInteger false)
      ∧ rows_of back "dag_code" = []
      ∧ catalog back "serialized_dag" = Some sd
      ∧ ts_pk sd
        = Some {| pk_name := Some "serialized_dag_pkey"; pk_columns := ["dag_id"] |}
      ∧ column sd "fileloc" = Some (col "fileloc" (String 2000) false)
      ∧ column sd "fileloc_hash" = Some (col "fileloc_hash" BigInteger false)
      ∧ rows_of back "serialized_dag" = []
      ∧ catalog back "dag_run" = Some dr
      ∧ column dr "dag_hash" = Some (col "dag_hash" (String 32) true)
      ∧ (∀ r, r ∈ rows_of back "dag_run" → field r "dag_hash" = VNull)
      ∧ catalog back "dag_version" = None.
Proof.
  intros Hpre Hup Hdel. rewrite (upgrade_spec db Hpre) in Hup. simplify_eq.
  split; [reflexivity|].
  destruct (downgrade_delete_empties db stmts db1 Hdel) as (Hdv & Hdc & Hsd).
  do 3 (split; [done|]).
  pose proof (session_post_migration db stmts Hpre) as Hpost.
  pose proof (downgrade_spec _ _ Hpost Hdel Hdc Hsd) as Hdown.
  apply (post_migration_catalog _ db1) in Hpost.
  2:{ intros k. unfold catalog. exact (delete_where_schema _ _ _ _ k Hdel). }
  destruct Hpost as [_ _ _ (sti & (tti & Hti & <-)%catalog_Some & _ & _ & Htiref)
                       (stih & (ttih & Htih & <-)%catalog_Some & _)
                       (sdr & (tdr & Hdr & <-)%catalog_Some & Hdrcol) _].
  eexists _, _, _, _, _, _. split; [exact Hdown|]. unfold catalog, rows_of.
  rewrite downgraded_lookup_task_instance, Hti, downgraded_lookup_task_instance_history,
    Htih, downgraded_lookup_dag_code, downgraded_lookup_serialized_dag,
    downgraded_lookup_dag_run, Hdr, downgraded_lookup_dag_version.
  split; [reflexivity|]. split; [apply column_without|]. split.
  { intros fk Hfk Href. simpl in Hfk.
    apply elem_of_filter_bool in Hfk as [Hfk Hm].
    apply elem_of_filter_bool in Hfk as [Hfk Hnm].
    rewrite forallb_elem_of in Htiref. specialize (Htiref fk Hfk).
    rewrite bool_decide_eq_true_2 in Htiref by done. simpl in Htiref.
    apply negb_true_iff in Hm, Hnm. by rewrite Hm, Hnm in Htiref. }
  split; [reflexivity|]. split; [apply column_without|].
  do 10 (split; [reflexivity|]).
  split; [apply (column_appended _ (col "dag_hash" (String 32) true) Hdrcol)|].
  split; [|done].
  simpl. intros r [r0 [-> _]]%list_elem_of_fmap. unfold field.
  by rewrite lookup_insert_eq.
Qed.

Lemma add_column_needs_empty column insert_before db t :
  col_nullable (render_column column) = false →
  col_default (render_column column) = None →
  tbl_rows t ≠ [] →
  add_column column insert_before db t = None.
Proof.
  intros Hnn Hdef Hrows. unfold add_column. cbn [on_table].
  destruct (has_column _ _); [done|]. rewrite Hnn, Hdef. simpl.
  by rewrite bool_decide_eq_false_2.
Qed.

Lemma apply_batch_fails (o : BatchOp) rest db t :
  o db t = None → apply_batch db (o :: rest) t = None.
Proof. intros H. simpl. by rewrite H. Qed.

Lemma run_fails (st : Step) rest db : st db = None → run (st :: rest) db = None.
Proof. intros H. simpl. by rewrite H. Qed.

Lemma batch_alter_table_fails name rc nm cf ops db t t0 :
  db !! name = Some t → rebase rc cf t = Some t0 → apply_batch db ops t0 = None →
  batch_alter_table name rc nm cf ops db = None.
Proof.
  intros Ht H0 H1. unfold batch_alter_table.
  by rewrite Ht; simpl; rewrite H0; simpl; rewrite H1.
Qed.

(** Without the purge the artifact rewrites cannot go through: the first
    NOT NULL column added to a table that still holds a row is refused. *)
Lemma upgrade_needs_purge db :
  pre_migration db →
  rows_of db "dag_code" ≠ [] ∨ rows_of db "serialized_dag" ≠ [] →
  run (tail (upgrade_statements ID_LEN naming_convention)) db = None.
Proof.
  intros [Hn1 Hn2 (tdc & Hdc & Hsdc)%catalog_Some (tsd & Hsd & Hssd)%catalog_Some Hdv
            (sdag & (tdag & Hdag & <-)%catalog_Some & Hdagid) _ _ _ _ _ _] Hrows.
  unfold upgrade_statements. cbn [tail].
  erewrite run_cons; [|by apply (upgrade_create_table_step _ tdag)].
  pose proof (old_dagcode_schema_eq Hn1) as Hold1.
  pose proof (old_serialized_schema_eq Hn2) as Hold2.
  destruct (tbl_rows tdc) as [|r rs] eqn:Hrdc.
  - destruct Hrows as [Hne|Hne]; [unfold rows_of in Hne; rewrite Hdc in Hne; simpl in Hne; by rewrite Hrdc in Hne|].
    erewrite run_cons.
    2:{ apply (upgrade_dag_code_step _ tdc); try done; by lookups. }
    apply run_fails. unfold rows_of in Hne. rewrite Hsd in Hne. simpl in Hne.
    eapply (batch_alter_table_fails _ _ _ _ _ _ tsd); [by lookups| |].
    + unfold rebase. rewrite Hssd, Hold2. reflexivity.
    + erewrite apply_batch_cons; [|reflexivity].
      apply apply_batch_fails, add_column_needs_empty; [done..|].
      simpl. by destruct (tbl_rows tsd).
  - apply run_fails.
    eapply (batch_alter_table_fails _ _ _ _ _ _ tdc); [by lookups| |].
    + unfold rebase. rewrite Hsdc, Hold1. reflexivity.
    + erewrite apply_batch_cons; [|reflexivity].
      apply apply_batch_fails, add_column_needs_empty; [done..|].
      simpl. by rewrite Hrdc.
Qed.

(** C9: a NOT NULL column without a server default cannot be added to a
    table that holds rows, and every such column the migration adds (the
    client-side [default=] does not count) is added to an empty table.  In
    [upgrade()] the purge has emptied dag_code and serialized_dag, so the
    remaining statements go through; without the purge they would not.
    In [downgrade()] the cascade from [DELETE FROM dag_version] has
    emptied both tables, so the remaining statements go through as well. *)
Theorem not_null_additions_are_safe db post stmts db1 :
  pre_migration db →
  upgrade ID_LEN naming_convention db = Some post →
  op_execute (sa_text (DELETE_FROM "dag_version")) (session post stmts) = Some db1 →
  (∀ column insert_before ctx t,
     col_nullable (render_column column) = false →
     col_default (render_column column) = None →
     tbl_rows t ≠ [] →
     add_column column insert_before ctx t = None)
  ∧ (∀ column,
       column ∈ [ sa_Column "dag_version_id" (UUIDType false) [nullable false];
                  sa_Column "source_code_hash" (String 32) [nullable false];
                  sa_Column "dag_id" (String 250) [nullable false];
                  sa_Column "created_at" UtcDateTime
                    [nullable false; default_ timezone_utcnow];
                  sa_Column "fileloc_hash" BigInteger [nullable false];
                  sa_Column "fileloc" (String 2000) [autoincrement false; nullable false];
                  sa_Column "fileloc_hash" BIGINT [autoincrement false; nullable false] ] →
       col_nullable (render_column column) = false
       ∧ col_default (render_column column) = None)
  ∧ (∃ purged,
       _delete_serdag_and_code db = Some purged
       ∧ rows_of purged "dag_code" = []
       ∧ rows_of purged "serialized_dag" = []
       ∧ run (tail (upgrade_statements ID_LEN naming_convention)) purged = Some post)
  ∧ (rows_of db "dag_code" ≠ [] ∨ rows_of db "serialized_dag" ≠ [] →
     run (tail (upgrade_statements ID_LEN naming_convention)) db = None)
  ∧ rows_of db1 "dag_code" = []
  ∧ rows_of db1 "serialized_dag" = []
  ∧ ∃ back,
      run (tail (downgrade_statements naming_convention)) db1 = Some back
      ∧ downgrade naming_convention (session post stmts) = Some back.
Proof.
  intros Hpre Hup Hdel.
  split; [intros; by apply add_column_needs_empty|].
  split.
  { intros c Hc. repeat (apply elem_of_cons in Hc as [->|Hc]);
      [done..|by apply elem_of_nil in Hc]. }
  split.
  { destruct (upgrade_purges_first_aux db Hpre) as (purged & Hp & H1 & H2 & Hrest).
    exists purged. repeat split; try done. by rewrite Hrest, Hup. }
  split; [by apply upgrade_needs_purge|].
  rewrite (upgrade_spec db Hpre) in Hup. simplify_eq.
  destruct (downgrade_delete_empties db stmts db1 Hdel) as (_ & Hdc & Hsd).
  do 2 (split; [done|]).
  pose proof (session_post_migration db stmts Hpre) as Hpost.
  exists (downgraded db1). split; [|by apply downgrade_spec].
  apply downgrade_steps; [|done..].
  apply (post_migration_catalog _ db1) in Hpost; [done|].
  intros k. unfold catalog. exact (delete_where_schema _ _ _ _ k Hdel).
Qed.

Lemma constrained_false s c :
  constrained s c = false →
  pk_remove c (ts_pk s) = ts_pk s
  ∧ List.filter (λ u, negb (mentions c (uq_columns u))) (ts_uniques s) = ts_uniques s
  ∧ List.filter (λ fk, negb (mentions c (fk_columns fk))) (ts_fks s) = ts_fks s
  ∧ List.filter (λ i, negb (mentions c (ix_columns i))) (ts_indexes s) = ts_indexes s.
Proof.
  unfold constrained. intros H.
  apply orb_false_iff in H as [H Hix]. apply orb_false_iff in H as [H Hfk].
  apply orb_false_iff in H as [Hpk Huq].
  rewrite existsb_false_iff in Huq. rewrite existsb_false_iff in Hfk.
  rewrite existsb_false_iff in Hix.
  repeat split.
  - unfold pk_remove. destruct (ts_pk s) as [pk|]; [|done]. simpl in Hpk. by rewrite Hpk.
  - apply filter_all. intros u Hu. by rewrite (Huq u Hu).
  - apply filter_all. intros u Hu. by rewrite (Hfk u Hu).
  - apply filter_all. intros u Hu. by rewrite (Hix u Hu).
Qed.

Lemma filter_absent_column s name :
  has_column s name = false →
  List.filter (λ c, negb (bool_decide (col_name c = name))) (ts_columns s) = ts_columns s.
Proof.
  intros H. apply filter_all. intros c Hc. apply negb_true_iff, bool_decide_eq_false.
  intros Heq. apply bool_decide_eq_false in H. apply H. unfold column_names.
  apply list_elem_of_fmap. eauto.
Qed.

Lemma schema_eq s s' :
  ts_columns s = ts_columns s' → ts_pk s = ts_pk s' → ts_uniques s = ts_uniques s' →
  ts_fks s = ts_fks s' → ts_indexes s = ts_indexes s' → s = s'.
Proof. destruct s, s'. simpl. by intros -> -> -> -> ->. Qed.

(** Adding [dag_version_id] (with a foreign key called [fkname]) and
    then dropping the key and the column gives the catalog entry back. *)
Lemma dag_version_id_roundtrip fkname extra t :
  has_column (tbl_schema t) "dag_version_id" = false →
  constrained (tbl_schema t) "dag_version_id" = false →
  existsb (λ k, bool_decide (fk_name k = fkname)) (ts_fks (tbl_schema t)) = false →
  extra = [] ∨ extra = [fk_to_dag_version fkname] →
  tbl_schema (without_column "dag_version_id"
                (without_fk fkname (with_dag_version_id extra t)))
  = tbl_schema t.
Proof.
  intros Hcol Hcon Hfk Hextra.
  destruct (constrained_false _ _ Hcon) as (Hpk & Huq & Hfks & Hix).
  apply schema_eq; simpl; try done.
  - rewrite List.filter_app, filter_absent_column by done. simpl. apply app_nil_r.
  - rewrite List.filter_app. rewrite existsb_false_iff in Hfk.
    rewrite (filter_all _ (ts_fks (tbl_schema t))).
    2:{ intros k Hk. by rewrite (Hfk k Hk). }
    rewrite List.filter_app, Hfks.
    destruct Hextra as [->| ->]; simpl; [apply app_nil_r|].
    rewrite bool_decide_eq_true_2 by done. simpl. apply app_nil_r.
Qed.

Lemma drop_then_add_column (cols : list DbColumn) c :
  NoDup (col_name <$> cols) → c ∈ cols →
  List.filter (λ x, negb (bool_decide (col_name x = col_name c))) cols ++ [c] ≡ₚ cols.
Proof.
  induction cols as [|x cols IH]; intros Hnd Hc; [by apply elem_of_nil in Hc|].
  rewrite fmap_cons in Hnd. apply NoDup_cons in Hnd as [Hx Hnd].
  apply elem_of_cons in Hc as [->|Hc]; simpl.
  - rewrite bool_decide_eq_true_2 by done. simpl.
    rewrite filter_all; [symmetry; apply Permutation_cons_append|].
    intros y Hy. apply negb_true_iff, bool_decide_eq_false. intros Heq. apply Hx.
    rewrite <- Heq. apply list_elem_of_fmap. eauto.
  - rewrite bool_decide_eq_false_2.
    + simpl. by rewrite IH.
    + intros Heq. apply Hx. rewrite Heq. apply list_elem_of_fmap. eauto.
Qed.

Lemma plain_dag_version_id_roundtrip t :
  has_column (tbl_schema t) "dag_version_id" = false →
  constrained (tbl_schema t) "dag_version_id" = false →
  tbl_schema (without_column "dag_version_id" (with_dag_version_id [] t)) = tbl_schema t.
Proof.
  intros Hcol Hcon.
  destruct (constrained_false _ _ Hcon) as (Hpk & Huq & Hfks & Hix).
  apply schema_eq; simpl; try done.
  - rewrite List.filter_app, filter_absent_column by done. simpl. apply app_nil_r.
  - by rewrite app_nil_r.
Qed.

(** C2: [downgrade()] run right after [upgrade()] gives each of dag_code,
    serialized_dag, task_instance, task_instance_history and dag_run the
    columns (as a set: re-added columns move to the end), primary key,
    indexes, foreign keys and unique constraints it had before
    [upgrade()]; dag_version is gone again; and the artifact tables are
    empty whatever rows they held before. *)
Theorem downgrade_after_upgrade_restores_schema db :
  pre_migration db → roundtrip_ready db →
  ∃ post back,
    upgrade ID_LEN naming_convention db = Some post
    ∧ downgrade naming_convention post = Some back
    ∧ (∀ name,
         name ∈ ["dag_code"; "serialized_dag"; "task_instance"; "task_instance_history";
                 "dag_run"] →
         ∃ before after,
           catalog db name = Some before
           ∧ catalog back name = Some after
           ∧ ts_columns after ≡ₚ ts_columns before
           ∧ ts_pk after = ts_pk before
           ∧ ts_indexes after = ts_indexes before
           ∧ ts_fks after = ts_fks before
           ∧ ts_uniques after = ts_uniques before)
    ∧ catalog back "dag_version" = catalog db "dag_version"
    ∧ rows_of back "dag_code" = []
    ∧ rows_of back "serialized_dag" = [].
Proof.
  intros Hpre [(sti' & Hti' & Hticon) (stih' & Htih' & Htihcon)
                 (sdr' & Hdr' & Hdrcon & Hdrnd & Hdrcol')].
  pose proof (upgrade_spec db Hpre) as Hup.
  pose proof (upgraded_post_migration db Hpre) as Hpost.
  assert (Hdel : op_execute (sa_text (DELETE_FROM "dag_version")) (upgraded db)
                 = Some (upgraded db)).
  { apply (delete_where_empty _ _ _ dag_version_table); [|done].
    apply upgraded_lookup_dag_version. }
  assert (Hdown : downgrade naming_convention (upgraded db)
                  = Some (downgraded (upgraded db))).
  { apply downgrade_spec; try done; unfold rows_of.
    - by rewrite upgraded_lookup_dag_code.
    - by rewrite upgraded_lookup_serialized_dag. }
  destruct Hpre as [Hn1 Hn2 Hdc Hsd Hdv _
                      (sti & Hti & Hticol & Htifk) (stih & Htih & Htihcol)
                      (sdr & Hdr & Hdrcol) _ _ _].
  rewrite (old_dagcode_schema_eq Hn1) in Hdc.
  rewrite (old_serialized_schema_eq Hn2) in Hsd.
  simplify_eq.
  apply catalog_Some in Hti as (tti & Hti & <-).
  apply catalog_Some in Htih as (ttih & Htih & <-).
  apply catalog_Some in Hdr as (tdr & Hdr & <-).
  exists (upgraded db), (downgraded (upgraded db)).
  split; [done|]. split; [done|]. split.
  { intros name Hname. repeat (apply elem_of_cons in Hname as [->|Hname]);
      [| | | | |by apply elem_of_nil in Hname].
    - eexists _, _. split; [exact Hdc|]. unfold catalog.
      rewrite downgraded_lookup_dag_code. split; [reflexivity|]. simpl.
      split; [|done].
      exact (Permutation_sym (Permutation_cons_append
               [col "fileloc" (String 2000) false; col "last_updated" UtcDateTime false;
                col "source_code" Text_MEDIUMTEXT false]
               (col "fileloc_hash" BigInteger false))).
    - eexists _, _. split; [exact Hsd|]. unfold catalog.
      rewrite downgraded_lookup_serialized_dag. split; [reflexivity|]. simpl.
      split; [|done]. apply Permutation_skip.
      exact (Permutation_app_comm
               [col "data" JSONField true; col "data_compressed" LargeBinary true;
                col "dag_hash" (String 32) false; col "last_updated" UtcDateTime false;
                col "processor_subdir" (String 2000) true]
               [col "fileloc" (String 2000) false; col "fileloc_hash" BigInteger false]).
    - exists (tbl_schema tti), (tbl_schema tti). unfold catalog.
      rewrite Hti, downgraded_lookup_task_instance, upgraded_lookup_task_instance, Hti.
      split; [done|]. split; [|done].
      exact (f_equal Some (dag_version_id_roundtrip _ _ tti Hticol Hticon Htifk
                             (or_intror eq_refl))).
    - exists (tbl_schema ttih), (tbl_schema ttih). unfold catalog.
      rewrite Htih, downgraded_lookup_task_instance_history,
        upgraded_lookup_task_instance_history, Htih.
      split; [done|]. split; [|done].
      exact (f_equal Some (plain_dag_version_id_roundtrip ttih Htihcol Htihcon)).
    - eexists (tbl_schema tdr), _. unfold catalog.
      rewrite Hdr, downgraded_lookup_dag_run, upgraded_lookup_dag_run, Hdr.
      split; [done|]. split; [reflexivity|].
      destruct (constrained_false _ _ Hdrcon) as (Hpk & Huq & Hfks & Hix). simpl.
      split; [|done].
      apply (drop_then_add_column _ (col "dag_hash" (String 32) true)); done. }
  unfold catalog, rows_of.
  rewrite downgraded_lookup_dag_version, Hdv, downgraded_lookup_dag_code,
    downgraded_lookup_serialized_dag. done.
Qed.

Lemma delete_where_cascading (t0 : string) victim db :
  is_Some (db !! t0) →
  (∀ name fk, fk ∈ fks_of db name → fk_ondelete fk = CASCADE) →
  is_Some (delete_where t0 victim db).
Proof.
  intros [tbl0 Ht0] Hall. unfold delete_where. rewrite Ht0. simpl.
  rewrite bool_decide_eq_true_2; [eauto|].
  intros name tbl Htbl. unfold blocks. apply existsb_false_iff. intros r _.
  apply andb_false_iff. right. unfold pulled. apply existsb_false_iff. intros fk Hfk.
  apply andb_false_iff. left. apply bool_decide_eq_false.
  rewrite (Hall name fk); [done|]. unfold fks_of. by rewrite Htbl.
Qed.

(** A DELETE is only ever refused by a foreign key without CASCADE that
    is in use: some stored row points through it at a stored row. *)
Lemma delete_where_unrefused (t0 : string) victim db :
  is_Some (db !! t0) →
  (∀ name fk r p,
     fk ∈ fks_of db name → fk_ondelete fk = NO_ACTION →
     r ∈ rows_of db name → p ∈ rows_of db (fk_ref_table fk) →
     references fk r p = false) →
  is_Some (delete_where t0 victim db).
Proof.
  intros [tbl0 Ht0] Hfree. unfold delete_where. rewrite Ht0. simpl.
  rewrite bool_decide_eq_true_2; [eauto|].
  intros name tbl Htbl. unfold blocks. apply existsb_false_iff. intros r Hr.
  apply andb_false_iff. right. unfold pulled. apply existsb_false_iff. intros fk Hfk.
  destruct (fk_ondelete fk) eqn:Hact; [|done]. simpl.
  apply existsb_false_iff. intros p Hp. apply andb_false_iff. right.
  apply (Hfree name fk r p); try done.
  - unfold fks_of. by rewrite Htbl.
  - unfold rows_of. by rewrite Htbl.
Qed.

(** Every foreign key [upgrade()] adds cascades. *)
Lemma upgraded_fks db name fk :
  fk ∈ fks_of (upgraded db) name →
  fk_ondelete fk = CASCADE ∨ fk ∈ fks_of db name.
Proof.
  unfold fks_of.
  by_table name ["dag_run"; "task_instance_history"; "task_instance"; "serialized_dag";
                 "dag_code"; "dag_version"].
  - rewrite upgraded_lookup_dag_run. destruct (db !! "dag_run"); [|by intros ?%elem_of_nil]. simpl.
    intros [H _]%elem_of_filter_bool. by right.
  - rewrite upgraded_lookup_task_instance_history.
    destruct (db !! "task_instance_history"); [|by intros ?%elem_of_nil]. simpl. rewrite app_nil_r. by right.
  - rewrite upgraded_lookup_task_instance. destruct (db !! "task_instance"); [|by intros ?%elem_of_nil]. simpl.
    intros [H| ->%list_elem_of_singleton]%elem_of_app; [by right|by left].
  - rewrite upgraded_lookup_serialized_dag. simpl.
    intros ->%list_elem_of_singleton. by left.
  - rewrite upgraded_lookup_dag_code. simpl. intros ->%list_elem_of_singleton. by left.
  - rewrite upgraded_lookup_dag_version. simpl. intros ->%list_elem_of_singleton. by left.
  - rewrite upgraded_lookup_other by not_listed. by right.
Qed.

Lemma fk_holds_resolves db child c parent pc fk :
  fk_columns fk = [c] → fk_ref_columns fk = [pc] → fk_ref_table fk = parent →
  fk_holds db child fk → resolves db child c parent pc = true.
Proof.
  intros Hc Hpc Hp Hh. apply forallb_elem_of. intros r Hr. specialize (Hh r Hr).
  unfold fk_satisfied, references in Hh. rewrite Hc, Hpc, Hp in Hh. simpl in Hh.
  rewrite orb_false_r in Hh. apply orb_true_iff in Hh as [Hn|He].
  - by rewrite Hn.
  - apply orb_true_iff. right. apply existsb_elem_of in He as [p [Hin He]].
    apply existsb_elem_of. exists p. split; [done|].
    apply andb_true_iff in He as [_ He]. apply bool_decide_eq_true in He.
    apply bool_decide_eq_true. congruence.
Qed.

(** A row that points through an ON DELETE CASCADE key at a deleted row
    is deleted with it. *)
Lemma cascade_removes db db' (t0 name : string) victim (fk : ForeignKey) r p :
  delete_where t0 victim db = Some db' →
  fk ∈ fks_of db name → fk_ondelete fk = CASCADE → fk_ref_table fk = t0 →
  p ∈ rows_of db t0 → victim p = true → references fk r p = true →
  r ∉ rows_of db' name.
Proof.
  intros Hdel Hfk Hact Href Hp Hv Hrp Hr.
  rewrite (delete_where_rows _ _ _ _ name Hdel) in Hr.
  apply elem_of_filter_bool in Hr as [Hr Halive]. apply negb_true_iff in Halive.
  rewrite <- (doomed_closed db t0 victim name r Hr) in Halive. simpl in Halive.
  apply orb_false_iff in Halive as [_ Hnp]. apply not_true_iff_false in Hnp. apply Hnp.
  apply pulled_spec. exists fk, p. rewrite Href. repeat split; try done.
  apply (doomed_le db t0 victim 0); [lia|]. simpl. by rewrite Hv, bool_decide_eq_true_2.
Qed.

Lemma version_keys_hold db stmts name fk :
  pre_migration db → (name, fk) ∈ version_keys →
  fk ∈ fks_of (session (upgraded db) stmts) name
  ∧ fk_holds (session (upgraded db) stmts) name fk.
Proof.
  intros Hpre Hin.
  assert (fk ∈ fks_of (upgraded db) name ∧ fk_holds (upgraded db) name fk) as [Hfk Hh].
  { destruct Hpre as [_ _ _ _ _ _ (sti & (tti & Hti & <-)%catalog_Some & _) _ _ _ _ _].
    unfold version_keys in Hin.
    repeat (apply elem_of_cons in Hin as [[= -> ->]|Hin]); [| | | |by apply elem_of_nil in Hin];
      unfold fks_of, fk_holds, rows_of.
    - rewrite upgraded_lookup_dag_version. simpl. split; [apply list_elem_of_here|].
      by intros r ?%elem_of_nil.
    - rewrite upgraded_lookup_dag_code. simpl. split; [apply list_elem_of_here|].
      by intros r ?%elem_of_nil.
    - rewrite upgraded_lookup_serialized_dag. simpl. split; [apply list_elem_of_here|].
      by intros r ?%elem_of_nil.
    - rewrite upgraded_lookup_task_instance, Hti. simpl. split.
      + apply elem_of_app. right. apply list_elem_of_here.
      + intros r [r0 [-> _]]%list_elem_of_fmap. unfold fk_satisfied, key_of, field. simpl.
        by rewrite lookup_insert_eq. }
  split.
  - by rewrite (fks_of_catalog (upgraded db)) by apply session_catalog.
  - by apply session_fk_holds.
Qed.

(** C6 (as amended): the four foreign keys [upgrade()] declares are ON
    DELETE CASCADE, so in a versioned database they never refuse a DELETE:
    a DELETE on one of its tables goes through, whatever hangs on the
    deleted rows, unless a key the database had before the migration,
    without CASCADE, is in use.  And whenever a DELETE goes through, it
    leaves no dag_code, serialized_dag or task_instance row pointing at a
    missing dag_version row, nor a dag_version row pointing at a missing
    dag row: deleting the dag rows with a given [dag_id] removes the
    dag_version rows of that dag, and deleting the dag_version rows with a
    given [id] removes the dag_code, serialized_dag and task_instance rows
    that reference it. *)
Theorem delete_cascades_along_version_keys db post stmts (table : string) victim :
  pre_migration db →
  upgrade ID_LEN naming_convention db = Some post →
  (is_Some (session post stmts !! table) →
   (∀ name fk r p,
      fk ∈ fks_of db name → fk_ondelete fk = NO_ACTION →
      r ∈ rows_of (session post stmts) name →
      p ∈ rows_of (session post stmts) (fk_ref_table fk) →
      references fk r p = false) →
   is_Some (delete_where table victim (session post stmts)))
  ∧ ∀ db',
      delete_where table victim (session post stmts) = Some db' →
      resolves db' "dag_version" "dag_id" "dag" "dag_id" = true
      ∧ (∀ name, name ∈ ["dag_code"; "serialized_dag"; "task_instance"] →
           resolves db' name "dag_version_id" "dag_version" "id" = true)
      ∧ (table = "dag" →
         ∀ d, d ≠ VNull → (∀ p, field p "dag_id" = d → victim p = true) →
              ∀ r, r ∈ rows_of db' "dag_version" → field r "dag_id" ≠ d)
      ∧ (table = "dag_version" →
         ∀ v, v ≠ VNull → (∀ p, field p "id" = v → victim p = true) →
              ∀ name, name ∈ ["dag_code"; "serialized_dag"; "task_instance"] →
              ∀ r, r ∈ rows_of db' name → field r "dag_version_id" ≠ v).
Proof.
  intros Hpre Hup. rewrite (upgrade_spec db Hpre) in Hup. simplify_eq.
  split.
  { intros Htable Hfree. apply delete_where_unrefused; [done|].
    intros name fk r p Hfk Hact. apply Hfree; [|done].
    rewrite (fks_of_catalog (upgraded db)) in Hfk by apply session_catalog.
    apply upgraded_fks in Hfk as [Hc|Hfk]; [congruence|done]. }
  intros db' Hdel.
  assert (Hkeys : ∀ name fk, (name, fk) ∈ version_keys →
            fk ∈ fks_of (session (upgraded db) stmts) name
            ∧ fk_holds (session (upgraded db) stmts) name fk
            ∧ fk_holds db' name fk).
  { intros name fk Hin. destruct (version_keys_hold db stmts name fk Hpre Hin) as [Hfk Hh].
    repeat split; try done. by apply (delete_where_fk_holds _ _ _ _ _ _ Hdel). }
  assert (Hgone : ∀ name fk c pc r,
            (name, fk) ∈ version_keys → fk_columns fk = [c] → fk_ref_columns fk = [pc] →
            fk_ref_table fk = table → fk_ondelete fk = CASCADE →
            field r c ≠ VNull → (∀ p, field p pc = field r c → victim p = true) →
            r ∉ rows_of db' name).
  { intros name fk c pc r Hin Hc Hpc Href Hact Hnn Hvic Hr.
    destruct (Hkeys name fk Hin) as (Hfk & Hh & _).
    pose proof (delete_where_subset _ _ _ _ _ _ Hdel Hr) as Hr0.
    specialize (Hh r Hr0). unfold fk_satisfied in Hh. rewrite Hc in Hh.
    apply orb_true_iff in Hh as [Hnull|Hpar].
    { apply has_null_single in Hnn. congruence. }
    apply existsb_elem_of in Hpar as [p [Hp Hrp]]. rewrite Href in Hp.
    refine (cascade_removes _ _ _ _ _ fk r p Hdel Hfk Hact Href Hp _ Hrp Hr).
    apply Hvic. unfold references in Hrp. rewrite Hc, Hpc in Hrp.
    apply andb_true_iff in Hrp as [_ He]. apply bool_decide_eq_true in He.
    simpl in He. congruence. }
  split; [|split; [|split]].
  - apply (fk_holds_resolves _ _ _ _ _ fk_dag_version_to_dag); try done.
    apply Hkeys, list_elem_of_here.
  - intros name Hname.
    repeat (apply elem_of_cons in Hname as [->|Hname]); [| | |by apply elem_of_nil in Hname].
    + apply (fk_holds_resolves _ _ _ _ _
               (fk_to_dag_version "dag_code_dag_version_id_fkey")); try done.
      apply Hkeys. unfold version_keys. do 1 apply list_elem_of_further.
      apply list_elem_of_here.
    + apply (fk_holds_resolves _ _ _ _ _
               (fk_to_dag_version "serialized_dag_dag_version_id_fkey")); try done.
      apply Hkeys. unfold version_keys. do 2 apply list_elem_of_further.
      apply list_elem_of_here.
    + apply (fk_holds_resolves _ _ _ _ _
               (fk_to_dag_version "task_instance_dag_version_id_fkey")); try done.
      apply Hkeys. unfold version_keys. do 3 apply list_elem_of_further.
      apply list_elem_of_here.
  - intros -> d Hd Hvic r Hr Hrd.
    refine (Hgone "dag_version" fk_dag_version_to_dag "dag_id" "dag_id" r _ _ _ _ _ _ _ Hr);
      try done; [apply list_elem_of_here|congruence|].
    intros p Hp. apply Hvic. congruence.
  - intros -> v Hv Hvic name Hname r Hr Hrv.
    repeat (apply elem_of_cons in Hname as [->|Hname]); [| | |by apply elem_of_nil in Hname].
    + refine (Hgone "dag_code" (fk_to_dag_version "dag_code_dag_version_id_fkey")
                "dag_version_id" "id" r _ _ _ _ _ _ _ Hr); try done;
        [unfold version_keys; do 1 apply list_elem_of_further; apply list_elem_of_here
        |congruence|].
      intros p Hp. apply Hvic. congruence.
    + refine (Hgone "serialized_dag"
                (fk_to_dag_version "serialized_dag_dag_version_id_fkey")
                "dag_version_id" "id" r _ _ _ _ _ _ _ Hr); try done;
        [unfold version_keys; do 2 apply list_elem_of_further; apply list_elem_of_here
        |congruence|].
      intros p Hp. apply Hvic. congruence.
    + refine (Hgone "task_instance"
                (fk_to_dag_version "task_instance_dag_version_id_fkey")
                "dag_version_id" "id" r _ _ _ _ _ _ _ Hr); try done;
        [unfold version_keys; do 3 apply list_elem_of_further; apply list_elem_of_here
        |congruence|].
      intros p Hp. apply Hvic. congruence.
Qed.

(** ** Further properties of [upgrade()] and [downgrade()] *)

(** [DELETE FROM t] leaves [t] empty, keeps the set of tables, and only
    succeeds on a table that exists. *)
Lemma delete_from_empties name db db1 :
  op_execute (sa_text (DELETE_FROM name)) db = Some db1 → rows_of db1 name = [].
Proof.
  intros Hdel. simpl in Hdel. apply elem_of_nil_inv. intros r Hr.
  by pose proof (delete_where_victims _ _ _ _ _ Hdel Hr).
Qed.

Lemma delete_where_is_Some (t0 : string) victim db db' (k : string) :
  delete_where t0 victim db = Some db' → is_Some (db' !! k) ↔ is_Some (db !! k).
Proof.
  intros Hdel. rewrite (delete_where_lookup _ _ _ _ k Hdel). apply fmap_is_Some.
Qed.

Lemma delete_where_target (t0 : string) victim db db' :
  delete_where t0 victim db = Some db' → is_Some (db !! t0).
Proof. unfold delete_where. destruct (db !! t0); [eauto|done]. Qed.

Lemma rows_of_table db k : rows_of db k = [] → is_Some (db !! k) →
  ∃ tbl, db !! k = Some tbl ∧ tbl_rows tbl = [].
Proof. intros Hr [tbl Ht]. exists tbl. split; [done|]. by apply (rows_of_nil db k). Qed.

Lemma run_inv (st : Step) rest db db' :
  run (st :: rest) db = Some db' → ∃ db1, st db = Some db1 ∧ run rest db1 = Some db'.
Proof. simpl. destruct (st db) as [db1|]; [eauto|done]. Qed.

Lemma purge_inv db db' :
  _delete_serdag_and_code db = Some db' →
  ∃ db1, op_execute (sa_text (DELETE_FROM "serialized_dag")) db = Some db1
         ∧ op_execute (sa_text (DELETE_FROM "dag_code")) db1 = Some db'.
Proof.
  unfold _delete_serdag_and_code. intros (db1 & H1 & H)%run_inv.
  apply run_inv in H as (db2 & H2 & H). simpl in H. simplify_eq. eauto.
Qed.

(** X1: whenever [_delete_serdag_and_code()] succeeds, on any database
    and whatever cascades it sets off, serialized_dag and dag_code both
    existed and are now empty, every table has the catalog entry it had, no
    table holds a row it did not hold before, and running the purge once
    more succeeds and changes nothing. *)
Theorem purge_empties_and_is_idempotent db db' :
  _delete_serdag_and_code db = Some db' →
  is_Some (db !! "serialized_dag") ∧ is_Some (db !! "dag_code")
  ∧ rows_of db' "serialized_dag" = [] ∧ rows_of db' "dag_code" = []
  ∧ (∀ name, catalog db' name = catalog db name)
  ∧ (∀ name r, r ∈ rows_of db' name → r ∈ rows_of db name)
  ∧ _delete_serdag_and_code db' = Some db'.
Proof.
  intros (db1 & H1 & H2)%purge_inv.
  pose proof (delete_from_empties _ _ _ H1) as E1.
  pose proof (delete_from_empties _ _ _ H2) as E2.
  simpl in H1, H2.
  assert (Esd : rows_of db' "serialized_dag" = []).
  { apply elem_of_nil_inv. intros r Hr.
    apply (delete_where_subset _ _ _ _ _ _ H2) in Hr. rewrite E1 in Hr.
    by apply elem_of_nil in Hr. }
  assert (Ssd : is_Some (db !! "serialized_dag")) by exact (delete_where_target _ _ _ _ H1).
  assert (Sdc : is_Some (db !! "dag_code")).
  { apply (delete_where_is_Some _ _ _ _ "dag_code" H1), (delete_where_target _ _ _ _ H2). }
  do 4 (split; [done|]). split; [|split].
  - intros name. unfold catalog.
    by rewrite (delete_where_schema _ _ _ _ name H2), (delete_where_schema _ _ _ _ name H1).
  - intros name r Hr. apply (delete_where_subset _ _ _ _ _ _ H1).
    by apply (delete_where_subset _ _ _ _ _ _ H2).
  - destruct (rows_of_table db' "serialized_dag" Esd) as (tsd & Hsd & Hsd0).
    { by apply (delete_where_is_Some _ _ _ _ _ H2), (delete_where_is_Some _ _ _ _ _ H1). }
    destruct (rows_of_table db' "dag_code" E2) as (tdc & Hdc & Hdc0).
    { by apply (delete_where_is_Some _ _ _ _ _ H2), (delete_where_is_Some _ _ _ _ _ H1). }
    unfold _delete_serdag_and_code.
    erewrite run_cons; [|exact (delete_where_empty _ _ _ _ Hsd Hsd0)].
    erewrite run_cons; [|exact (delete_where_empty _ _ _ _ Hdc Hdc0)].
    done.
Qed.

(** X2: [upgrade()] rewrites serialized_dag: the primary key moves from
    [dag_id] (which stays, NOT NULL) to the new column [id];
    [dag_version_id] is added NOT NULL, unique, and as a foreign key to
    [dag_version.id] with ON DELETE CASCADE; [created_at] is added NOT
    NULL; [fileloc] and [fileloc_hash] are dropped, and the index
    [idx_fileloc_hash] with them. *)
Theorem upgrade_rewrites_serialized_dag db :
  pre_migration db →
  ∃ post before after,
    upgrade ID_LEN naming_convention db = Some post
    ∧ catalog db "serialized_dag" = Some before
    ∧ catalog post "serialized_dag" = Some after
    ∧ ts_pk before
      = Some {| pk_name := Some "serialized_dag_pkey"; pk_columns := ["dag_id"] |}
    ∧ ts_pk after = Some {| pk_name := Some "serialized_dag_pkey"; pk_columns := ["id"] |}
    ∧ column after "id" = Some (col "id" (UUIDType false) false)
    ∧ column after "dag_id" = Some (col "dag_id" (String ID_LEN) false)
    ∧ column after "dag_version_id" = Some (col "dag_version_id" (UUIDType false) false)
    ∧ ts_uniques after
      = [ {| uq_name := "serialized_dag_dag_version_id_uq";
             uq_columns := ["dag_version_id"] |} ]
    ∧ ts_fks after
      = [ {| fk_name := "serialized_dag_dag_version_id_fkey";
             fk_columns := ["dag_version_id"]; fk_ref_table := "dag_version";
             fk_ref_columns := ["id"]; fk_ondelete := CASCADE |} ]
    ∧ column after "created_at" = Some (col "created_at" UtcDateTime false)
    ∧ column before "fileloc" = Some (col "fileloc" (String 2000) false)
    ∧ column before "fileloc_hash" = Some (col "fileloc_hash" BigInteger false)
    ∧ column after "fileloc" = None
    ∧ column after "fileloc_hash" = None
    ∧ ts_indexes before
      = [ {| ix_name := "idx_fileloc_hash"; ix_columns := ["fileloc_hash"];
             ix_unique := false |} ]
    ∧ ts_indexes after = [].
Proof.
  intros Hpre. pose proof (upgrade_spec db Hpre) as Hup.
  destruct Hpre as [_ Hn _ Hsd _ _ _ _ _ _ _ _].
  rewrite (old_serialized_schema_eq Hn) in Hsd.
  eexists _, _, _. split; [exact Hup|]. split; [exact Hsd|].
  split; [unfold catalog; by rewrite upgraded_lookup_serialized_dag|].
  repeat split.
Qed.

(** *** What [upgrade()] does to the execution tables *)

Lemma batch_alter_table_inv name rc nm cf ops db db' :
  batch_alter_table name rc nm cf ops db = Some db' →
  ∃ t t0 t1 t2,
    db !! name = Some t ∧ rebase rc cf t = Some t0 ∧ apply_batch db ops t0 = Some t1
    ∧ arrange rc ops t0 t1 = Some t2 ∧ db' = <[name := name_pk nm name t2]> db.
Proof.
  unfold batch_alter_table. intros H.
  destruct (db !! name) as [t|]; [|done]. simpl in H.
  destruct (rebase rc cf t) as [t0|] eqn:H0; [|done]. simpl in H.
  destruct (apply_batch db ops t0) as [t1|] eqn:H1; [|done]. simpl in H.
  destruct (arrange rc ops t0 t1) as [t2|] eqn:H2; [|done]. simplify_eq/=.
  by exists t, t0, t1, t2.
Qed.

(** A batch changes its own table only. *)
Lemma batch_alter_table_frame name rc nm cf ops db db' (k : string) :
  batch_alter_table name rc nm cf ops db = Some db' → k ≠ name → db' !! k = db !! k.
Proof.
  intros (t & t0 & t1 & t2 & _ & _ & _ & _ & ->)%batch_alter_table_inv Hk.
  by rewrite lookup_insert_ne.
Qed.

Lemma name_pk_rows nm name t : tbl_rows (name_pk nm name t) = tbl_rows t.
Proof. unfold name_pk. by destruct nm, (ts_pk (tbl_schema t)) as [[[?|] ?]|]. Qed.

Lemma apply_batch_inv (o : BatchOp) rest db t t' :
  apply_batch db (o :: rest) t = Some t' →
  ∃ t1, o db t = Some t1 ∧ apply_batch db rest t1 = Some t'.
Proof. simpl. destruct (o db t) as [t1|]; [eauto|done]. Qed.

Lemma add_column_rows column insert_before db t t' :
  add_column column insert_before db t = Some t' →
  tbl_rows t'
  = (λ r : Row, <[c_name column := initial_value (render_column column)]> r) <$> tbl_rows t.
Proof.
  unfold add_column. cbn [on_table]. intros H.
  destruct (has_column _ _); [done|]. destruct (_ && _); [done|]. by simplify_eq.
Qed.

Lemma drop_column_rows name db t t' :
  drop_column name db t = Some t' → tbl_rows t' = (λ r : Row, delete name r) <$> tbl_rows t.
Proof.
  unfold drop_column. cbn [on_table]. intros H.
  destruct (has_column _ _); [|done]. by simplify_eq.
Qed.

Lemma create_foreign_key_rows name ref l rc a db t t' :
  create_foreign_key name ref l rc a db t = Some t' → tbl_rows t' = tbl_rows t.
Proof.
  unfold create_foreign_key, table_op. cbn [on_table]. intros H.
  destruct (_ && _); [|done]. by simplify_eq.
Qed.

Lemma op_create_table_frame name cols cs db db' (k : string) :
  op_create_table name cols cs db = Some db' → k ≠ name → db' !! k = db !! k.
Proof.
  unfold op_create_table. intros H Hk. destruct (db !! name); [done|].
  destruct (forallb _ _); [|done]. simplify_eq. by rewrite lookup_insert_ne.
Qed.

Lemma rows_of_lookup db db' (k : string) : db' !! k = db !! k → rows_of db' k = rows_of db k.
Proof. unfold rows_of. by intros ->. Qed.

Lemma purge_subset db db' name r :
  _delete_serdag_and_code db = Some db' → r ∈ rows_of db' name → r ∈ rows_of db name.
Proof.
  intros (db1 & H1 & H2)%purge_inv Hr. simpl in H1, H2.
  apply (delete_where_subset _ _ _ _ _ _ H1). by apply (delete_where_subset _ _ _ _ _ _ H2).
Qed.

Lemma purge_catalog db db' name :
  _delete_serdag_and_code db = Some db' → catalog db' name = catalog db name.
Proof.
  intros (db1 & H1 & H2)%purge_inv. simpl in H1, H2. unfold catalog.
  by rewrite (delete_where_schema _ _ _ _ name H2), (delete_where_schema _ _ _ _ name H1).
Qed.

(** X3: [upgrade()] writes nothing into the execution tables.  Whenever
    it succeeds, on any database, every row it leaves in task_instance
    and in task_instance_history is a row that was there before with
    [dag_version_id] added as NULL (the migration ties no existing row to
    a version); every row it leaves in dag_run is a row that was there
    before without its [dag_hash]; and a table the migration does not
    name (dag among them) has the catalog entry it had and no row it did
    not have. *)
Theorem upgrade_adds_no_execution_data db post :
  upgrade ID_LEN naming_convention db = Some post →
  (∀ r, r ∈ rows_of post "task_instance" →
     ∃ r0, r0 ∈ rows_of db "task_instance" ∧ r = <["dag_version_id" := VNull]> r0)
  ∧ (∀ r, r ∈ rows_of post "task_instance_history" →
       ∃ r0, r0 ∈ rows_of db "task_instance_history"
             ∧ r = <["dag_version_id" := VNull]> r0)
  ∧ (∀ r, r ∈ rows_of post "dag_run" →
       ∃ r0, r0 ∈ rows_of db "dag_run" ∧ r = delete "dag_hash" r0)
  ∧ ∀ name,
      name ∉ ["dag_version"; "dag_run"; "serialized_dag"; "dag_code"; "task_instance";
              "task_instance_history"] →
      catalog post name = catalog db name
      ∧ ∀ r, r ∈ rows_of post name → r ∈ rows_of db name.
Proof.
  unfold upgrade, upgrade_statements.
  intros (db1 & Hpurge & H)%run_inv.
  apply run_inv in H as (db2 & Hcreate & H).
  apply run_inv in H as (db3 & Hdc & H).
  apply run_inv in H as (db4 & Hsd & H).
  apply run_inv in H as (db5 & Hti & H).
  apply run_inv in H as (db6 & Htih & H).
  apply run_inv in H as (db7 & Hdr & H).
  simpl in H. injection H as <-.
  assert (Hframe : ∀ k : string,
            k ∉ ["dag_version"; "serialized_dag"; "dag_code"] → db4 !! k = db1 !! k).
  { intros k Hk. rewrite !not_elem_of_cons in Hk. destruct Hk as (? & ? & ? & _).
    rewrite (batch_alter_table_frame _ _ _ _ _ _ _ k Hsd) by done.
    rewrite (batch_alter_table_frame _ _ _ _ _ _ _ k Hdc) by done.
    by rewrite (op_create_table_frame _ _ _ _ _ k Hcreate). }
  split; [|split; [|split]].
  - intros r Hr.
    rewrite (rows_of_lookup _ _ _ (batch_alter_table_frame _ _ _ _ _ _ _ "task_instance" Hdr
                                     ltac:(done))) in Hr.
    rewrite (rows_of_lookup _ _ _ (batch_alter_table_frame _ _ _ _ _ _ _ "task_instance" Htih
                                     ltac:(done))) in Hr.
    apply batch_alter_table_inv in Hti as (t & t0 & t1 & t2 & Ht & H0 & H1 & H2 & ->).
    simpl in H0, H2. simplify_eq.
    apply apply_batch_inv in H1 as (ta & Ha & H1).
    apply apply_batch_inv in H1 as (tb & Hb & H1). simpl in H1. simplify_eq.
    unfold rows_of in Hr. rewrite lookup_insert_eq in Hr. cbn [from_option] in Hr.
    rewrite name_pk_rows, (create_foreign_key_rows _ _ _ _ _ _ _ _ Hb),
      (add_column_rows _ _ _ _ _ Ha) in Hr.
    apply list_elem_of_fmap in Hr as (r0 & -> & Hr0). exists r0. split; [|done].
    apply (purge_subset _ _ _ _ Hpurge). unfold rows_of.
    by rewrite <- (Hframe "task_instance") by not_listed; rewrite Ht.
  - intros r Hr.
    rewrite (rows_of_lookup _ _ _ (batch_alter_table_frame _ _ _ _ _ _ _
                                     "task_instance_history" Hdr ltac:(done))) in Hr.
    apply batch_alter_table_inv in Htih as (t & t0 & t1 & t2 & Ht & H0 & H1 & H2 & ->).
    simpl in H0, H2. simplify_eq.
    apply apply_batch_inv in H1 as (ta & Ha & H1). simpl in H1. simplify_eq.
    unfold rows_of in Hr. rewrite lookup_insert_eq in Hr. cbn [from_option] in Hr.
    rewrite name_pk_rows, (add_column_rows _ _ _ _ _ Ha) in Hr.
    apply list_elem_of_fmap in Hr as (r0 & -> & Hr0). exists r0. split; [|done].
    apply (purge_subset _ _ _ _ Hpurge). unfold rows_of.
    rewrite <- (Hframe "task_instance_history") by not_listed.
    rewrite <- (batch_alter_table_frame _ _ _ _ _ _ _ "task_instance_history" Hti) by done.
    by rewrite Ht.
  - intros r Hr.
    apply batch_alter_table_inv in Hdr as (t & t0 & t1 & t2 & Ht & H0 & H1 & H2 & ->).
    simpl in H0, H2. simplify_eq.
    apply apply_batch_inv in H1 as (ta & Ha & H1). simpl in H1. simplify_eq.
    unfold rows_of in Hr. rewrite lookup_insert_eq in Hr. cbn [from_option] in Hr.
    rewrite name_pk_rows, (drop_column_rows _ _ _ _ Ha) in Hr.
    apply list_elem_of_fmap in Hr as (r0 & -> & Hr0). exists r0. split; [|done].
    apply (purge_subset _ _ _ _ Hpurge). unfold rows_of.
    rewrite <- (Hframe "dag_run") by not_listed.
    rewrite <- (batch_alter_table_frame _ _ _ _ _ _ _ "dag_run" Hti) by done.
    rewrite <- (batch_alter_table_frame _ _ _ _ _ _ _ "dag_run" Htih) by done.
    by rewrite Ht.
  - intros name Hname.
    assert (Hsame : db7 !! name = db1 !! name).
    { rewrite !not_elem_of_cons in Hname. destruct Hname as (? & ? & ? & ? & ? & ? & _).
      rewrite (batch_alter_table_frame _ _ _ _ _ _ _ name Hdr) by done.
      rewrite (batch_alter_table_frame _ _ _ _ _ _ _ name Htih) by done.
      rewrite (batch_alter_table_frame _ _ _ _ _ _ _ name Hti) by done.
      apply Hframe. not_listed. }
    split.
    + rewrite <- (purge_catalog _ _ name Hpurge). unfold catalog. by rewrite Hsame.
    + intros r Hr. apply (purge_subset _ _ _ _ Hpurge).
      by rewrite <- (rows_of_lookup _ _ _ Hsame).
Qed.

Lemma purge_is_Some db db' k :
  _delete_serdag_and_code db = Some db' → is_Some (db' !! k) ↔ is_Some (db !! k).
Proof.
  intros (db1 & H1 & H2)%purge_inv. simpl in H1, H2.
  by rewrite (delete_where_is_Some _ _ _ _ k H2), (delete_where_is_Some _ _ _ _ k H1).
Qed.

Lemma upgrade_fails_on_dag_version db :
  is_Some (db !! "dag_version") → upgrade ID_LEN naming_convention db = None.
Proof.
  intros Hdv. unfold upgrade, upgrade_statements.
  destruct (_delete_serdag_and_code db) as [db1|] eqn:Hp; [|by apply run_fails].
  rewrite (run_cons _ _ _ _ Hp). apply run_fails.
  destruct (proj2 (purge_is_Some db db1 "dag_version" Hp) Hdv) as [tbl Htbl].
  unfold op_create_table. by rewrite Htbl.
Qed.

Lemma batch_alter_table_is_Some name rc nm cf ops db db' k :
  batch_alter_table name rc nm cf ops db = Some db' →
  is_Some (db !! k) → is_Some (db' !! k).
Proof.
  unfold batch_alter_table. intros H Hk.
  destruct (db !! name) as [t|]; [|done]. simpl in H.
  destruct (rebase rc cf t) as [t0|]; [|done]. simpl in H.
  destruct (apply_batch db ops t0) as [t1|]; [|done]. simpl in H.
  destruct (arrange rc ops t0 t1) as [t2|]; [|done]. simplify_eq/=.
  destruct (decide (name = k)) as [->|]; [by rewrite lookup_insert_eq|].
  by rewrite lookup_insert_ne.
Qed.

Lemma upgrade_leaves_dag_version db post :
  upgrade ID_LEN naming_convention db = Some post → is_Some (post !! "dag_version").
Proof.
  unfold upgrade, upgrade_statements.
  intros (db1 & _ & H)%run_inv.
  apply run_inv in H as (db2 & Hc & H).
  assert (Hdv : is_Some (db2 !! "dag_version")).
  { unfold op_create_table in Hc. destruct (db1 !! "dag_version"); [done|].
    destruct (forallb _ _); [|done]. simplify_eq. by rewrite lookup_insert_eq. }
  repeat (apply run_inv in H as (? & ?%(batch_alter_table_is_Some _ _ _ _ _ _ _ "dag_version") & H);
          [|done]).
  simpl in H. by simplify_eq.
Qed.

(** X4: [upgrade()] raises on every database that already has a
    dag_version table: if the purge goes through, [create_table] finds
    the table in its way.  In particular [upgrade()] never succeeds twice
    in a row, since a successful [upgrade()] always leaves dag_version
    behind. *)
Theorem upgrade_is_not_repeatable db :
  is_Some (db !! "dag_version") ∨ (∃ db0, upgrade ID_LEN naming_convention db0 = Some db) →
  upgrade ID_LEN naming_convention db = None.
Proof.
  intros [H|[db0 H]]; apply upgrade_fails_on_dag_version; [done|].
  by apply (upgrade_leaves_dag_version db0).
Qed.

Lemma downgrade_fails_without_dag_version db :
  db !! "dag_version" = None → downgrade naming_convention db = None.
Proof.
  intros Hdv. unfold downgrade, downgrade_statements. apply run_fails.
  simpl. unfold delete_where. by rewrite Hdv.
Qed.

Lemma run_snoc_inv (l : list Step) (st : Step) db db' :
  run (l ++ [st]) db = Some db' → ∃ db1, st db1 = Some db'.
Proof.
  revert db. induction l as [|x l IH]; intros db.
  - simpl. destruct (st db) eqn:E; [|done]. intros [= <-]. eauto.
  - intros (db1 & _ & H)%run_inv. eauto.
Qed.

Lemma downgrade_drops_dag_version db back :
  downgrade naming_convention db = Some back → back !! "dag_version" = None.
Proof.
  unfold downgrade, downgrade_statements. intros H.
  apply (run_snoc_inv (removelast (downgrade_statements naming_convention))) in H
    as [db1 H].
  unfold op_drop_table in H. destruct (db1 !! "dag_version"); [|done]. simpl in H.
  destruct (bool_decide _); [|done]. simplify_eq. apply lookup_delete_eq.
Qed.

(** X5: [downgrade()] raises on every database without a dag_version
    table: its first statement deletes from that table.  In particular
    [downgrade()] never succeeds twice in a row, since its last statement
    drops the table. *)
Theorem downgrade_is_not_repeatable db :
  db !! "dag_version" = None ∨ (∃ db0, downgrade naming_convention db0 = Some db) →
  downgrade naming_convention db = None.
Proof.
  intros [H|[db0 H]]; apply downgrade_fails_without_dag_version; [done|].
  by apply (downgrade_drops_dag_version db0).
Qed.

(** *** Inserting into the new table *)

Lemma insert_row_not_null (name : string) r db s c :
  catalog db name = Some s → c ∈ ts_columns s → col_nullable c = false →
  field (filled s r) (col_name c) = VNull →
  insert_row name r db = None.
Proof.
  intros (tbl & Ht & <-)%catalog_Some Hc Hnn Hnull.
  destruct (insert_row name r db) as [db'|] eqn:Hins; [|done]. exfalso.
  apply insert_row_inv in Hins as (tbl' & Ht' & _ & Hcols & _ & _).
  simplify_eq. specialize (Hcols c Hc Hnn). by apply has_null_single in Hcols.
Qed.

Lemma insert_row_orphan (name : string) r db s fk :
  catalog db name = Some s → fk ∈ ts_fks s →
  fk_satisfied db fk (filled s r) = false →
  insert_row name r db = None.
Proof.
  intros (tbl & Ht & <-)%catalog_Some Hfk Hsat.
  destruct (insert_row name r db) as [db'|] eqn:Hins; [|done]. exfalso.
  apply insert_row_inv in Hins as (tbl' & Ht' & _ & _ & _ & Hfks).
  simplify_eq. specialize (Hfks fk Hfk). congruence.
Qed.

Lemma insert_row_primary_key (name : string) r db s pk x :
  catalog db name = Some s → ts_pk s = Some pk →
  x ∈ rows_of db name →
  collides (pk_columns pk) (filled s r) x = true →
  insert_row name r db = None.
Proof.
  intros (tbl & Ht & <-)%catalog_Some Hpk Hx Hcol.
  unfold insert_row. rewrite Ht. simpl. fold (filled (tbl_schema tbl) r). rewrite Hpk. simpl.
  replace (existsb _ (tbl_rows tbl)) with true.
  { by rewrite !andb_false_r. }
  symmetry. apply existsb_elem_of. exists x. split; [|done].
  unfold rows_of in Hx. by rewrite Ht in Hx.
Qed.

Lemma filled_no_defaults s r :
  (∀ c, c ∈ ts_columns s → col_default c = None) → filled s r = r.
Proof.
  unfold filled. generalize (ts_columns s). intros cols. revert r.
  induction cols as [|c cols IH]; intros r Hd; [done|]. simpl.
  replace (fill_default r c) with r.
  - apply IH. intros c' Hc'. apply Hd. by apply list_elem_of_further.
  - unfold fill_default. rewrite (Hd c) by apply list_elem_of_here.
    by destruct (r !! col_name c).
Qed.

(** X6: [upgrade()] creates dag_version, which was not there, empty, with
    the columns [id], [version_number], [dag_id], [created_at] and
    [last_updated], all NOT NULL and none with a server default
    ([default=timezone.utcnow] is a client-side hook), and with primary
    key [id].  From then on, whatever was inserted or deleted since, an
    INSERT into dag_version is rejected when it leaves one of the five
    columns NULL, when no dag row has its [dag_id], or when a stored
    version already has its [id]. *)
Theorem upgrade_creates_dag_version db stmts r :
  pre_migration db →
  ∃ post s,
    upgrade ID_LEN naming_convention db = Some post
    ∧ db !! "dag_version" = None
    ∧ catalog post "dag_version" = Some s
    ∧ rows_of post "dag_version" = []
    ∧ column_names s = ["id"; "version_number"; "dag_id"; "created_at"; "last_updated"]
    ∧ (∀ c, c ∈ ts_columns s → col_nullable c = false ∧ col_default c = None)
    ∧ ts_pk s = Some {| pk_name := Some "dag_version_pkey"; pk_columns := ["id"] |}
    ∧ (∀ c, c ∈ column_names s → field r c = VNull →
         insert_row "dag_version" r (session post stmts) = None)
    ∧ ((∀ p, p ∈ rows_of (session post stmts) "dag" → field p "dag_id" ≠ field r "dag_id") →
       insert_row "dag_version" r (session post stmts) = None)
    ∧ (∀ x, x ∈ rows_of (session post stmts) "dag_version" → field x "id" = field r "id" →
         insert_row "dag_version" r (session post stmts) = None).
Proof.
  intros Hpre. pose proof (upgrade_spec db Hpre) as Hup.
  assert (Hcat : catalog (session (upgraded db) stmts) "dag_version" = Some dag_version_schema).
  { rewrite session_catalog. unfold catalog. by rewrite upgraded_lookup_dag_version. }
  assert (Hplain : ∀ c, c ∈ ts_columns dag_version_schema →
                        col_nullable c = false ∧ col_default c = None).
  { intros c Hc. unfold dag_version_schema in Hc. simpl in Hc.
    repeat (apply elem_of_cons in Hc as [->|Hc]; [done|]). by apply elem_of_nil in Hc. }
  assert (Hfill : filled dag_version_schema r = r).
  { apply filled_no_defaults. intros c Hc. by apply Hplain. }
  assert (Hnull : ∀ c, c ∈ column_names dag_version_schema → field r c = VNull →
                       insert_row "dag_version" r (session (upgraded db) stmts) = None).
  { intros c (dc & -> & Hdc)%list_elem_of_fmap Hr.
    apply (insert_row_not_null _ _ _ dag_version_schema dc); [done|done|by apply Hplain|].
    by rewrite Hfill. }
  exists (upgraded db), dag_version_schema. split; [exact Hup|].
  split; [by destruct Hpre|].
  split; [unfold catalog; by rewrite upgraded_lookup_dag_version|].
  split; [unfold rows_of; by rewrite upgraded_lookup_dag_version|].
  split; [done|]. split; [exact Hplain|]. split; [done|]. split; [exact Hnull|].
  split.
  - intros Hno. destruct (decide (field r "dag_id" = VNull)) as [Hd|Hd].
    { apply (Hnull "dag_id"); [|done]. simpl. do 2 apply list_elem_of_further.
      apply list_elem_of_here. }
    apply (insert_row_orphan _ _ _ dag_version_schema fk_dag_version_to_dag);
      [done|apply list_elem_of_here|].
    rewrite Hfill. unfold fk_satisfied. simpl.
    replace (bool_decide (field r "dag_id" = VNull)) with false
      by (symmetry; by apply bool_decide_eq_false).
    simpl. apply existsb_false_iff. intros p Hp. unfold references. simpl.
    apply andb_false_iff. right. apply bool_decide_eq_false.
    intros [= Heq]. by apply (Hno p Hp).
  - intros x Hx Hid. destruct (decide (field r "id" = VNull)) as [Hd|Hd].
    { apply (Hnull "id"); [|done]. apply list_elem_of_here. }
    apply (insert_row_primary_key _ _ _ dag_version_schema
             {| pk_name := Some "dag_version_pkey"; pk_columns := ["id"] |} x);
      [done|done|done|].
    rewrite Hfill. unfold collides. simpl. rewrite Hid.
    replace (bool_decide (field r "id" = VNull)) with false
      by (symmetry; by apply bool_decide_eq_false).
    simpl. by apply bool_decide_eq_true.
Qed.

(** *** What [downgrade()] does to the execution tables *)

Lemma downgrade_inv db stmts back :
  pre_migration db →
  downgrade naming_convention (session (upgraded db) stmts) = Some back →
  ∃ db1,
    op_execute (sa_text (DELETE_FROM "dag_version")) (session (upgraded db) stmts) = Some db1
    ∧ back = downgraded db1.
Proof.
  intros Hpre Hdown. pose proof Hdown as Hrun.
  unfold downgrade, downgrade_statements in Hrun.
  apply run_inv in Hrun as (db1 & Hdel & _). exists db1. split; [done|].
  destruct (downgrade_delete_empties db stmts db1 Hdel) as (_ & Hdc & Hsd).
  pose proof (downgrade_spec _ db1 (session_post_migration db stmts Hpre) Hdel Hdc Hsd) as H.
  congruence.
Qed.

(** X7: [downgrade()] deletes task instances.  Its opening [DELETE FROM
    dag_version] cascades through the key [upgrade()] put on
    task_instance, so every task_instance row left after [downgrade()]
    comes from a row whose [dag_version_id] was NULL: a task instance that
    pointed at a version is gone.  The rows left in task_instance and in
    task_instance_history are rows that were there, less the column
    [dag_version_id]. *)
Theorem downgrade_deletes_versioned_task_instances db post stmts back :
  pre_migration db →
  upgrade ID_LEN naming_convention db = Some post →
  downgrade naming_convention (session post stmts) = Some back →
  (∀ r, r ∈ rows_of back "task_instance" →
     ∃ r0, r0 ∈ rows_of (session post stmts) "task_instance"
           ∧ field r0 "dag_version_id" = VNull
           ∧ r = delete "dag_version_id" r0)
  ∧ (∀ r, r ∈ rows_of back "task_instance_history" →
       ∃ r0, r0 ∈ rows_of (session post stmts) "task_instance_history"
             ∧ r = delete "dag_version_id" r0).
Proof.
  intros Hpre Hup Hdown. rewrite (upgrade_spec db Hpre) in Hup. injection Hup as <-.
  destruct (downgrade_inv db stmts back Hpre Hdown) as (db1 & Hdel & ->).
  simpl in Hdel. split.
  - intros r Hr. unfold rows_of in Hr. rewrite downgraded_lookup_task_instance in Hr.
    destruct (db1 !! "task_instance") as [t1|] eqn:Ht1; [|by apply elem_of_nil in Hr].
    simpl in Hr. apply list_elem_of_fmap in Hr as (r0 & -> & Hr0).
    assert (Hr1 : r0 ∈ rows_of db1 "task_instance") by (unfold rows_of; by rewrite Ht1).
    exists r0. split; [exact (delete_where_subset _ _ _ _ _ _ Hdel Hr1)|]. split; [|done].
    destruct (decide (field r0 "dag_version_id" = VNull)) as [|Hv]; [done|]. exfalso.
    destruct (version_keys_hold db stmts "task_instance"
                (fk_to_dag_version "task_instance_dag_version_id_fkey") Hpre)
      as [Hfk Hholds].
    { do 3 apply list_elem_of_further. apply list_elem_of_here. }
    specialize (Hholds r0 (delete_where_subset _ _ _ _ _ _ Hdel Hr1)).
    unfold fk_satisfied in Hholds. simpl in Hholds.
    replace (bool_decide (field r0 "dag_version_id" = VNull)) with false in Hholds
      by (symmetry; by apply bool_decide_eq_false).
    simpl in Hholds. apply existsb_elem_of in Hholds as (p & Hp & Hrp).
    by apply (cascade_removes _ _ "dag_version" "task_instance" (λ _, true)
                (fk_to_dag_version "task_instance_dag_version_id_fkey") r0 p Hdel).
  - intros r Hr. unfold rows_of in Hr. rewrite downgraded_lookup_task_instance_history in Hr.
    destruct (db1 !! "task_instance_history") as [t1|] eqn:Ht1; [|by apply elem_of_nil in Hr].
    simpl in Hr. apply list_elem_of_fmap in Hr as (r0 & -> & Hr0).
    exists r0. split; [|done]. apply (delete_where_subset _ _ _ _ _ _ Hdel).
    unfold rows_of. by rewrite Ht1.
Qed.

(** *** When [downgrade()] is sure to succeed *)

(** X8: if every foreign key of the database [upgrade()] started from is
    ON DELETE CASCADE, then [downgrade()] succeeds on every state reached
    after [upgrade()] by INSERT and DELETE statements: nothing can refuse
    its opening DELETE.  It leaves no dag_version table and empty artifact
    tables. *)
Theorem downgrade_succeeds_when_keys_cascade db post stmts :
  pre_migration db →
  (∀ name fk, fk ∈ fks_of db name → fk_ondelete fk = CASCADE) →
  upgrade ID_LEN naming_convention db = Some post →
  ∃ back,
    downgrade naming_convention (session post stmts) = Some back
    ∧ back !! "dag_version" = None
    ∧ rows_of back "dag_code" = []
    ∧ rows_of back "serialized_dag" = [].
Proof.
  intros Hpre Hall Hup. rewrite (upgrade_spec db Hpre) in Hup. injection Hup as <-.
  destruct (delete_where_cascading "dag_version" (λ _, true)
              (session (upgraded db) stmts)) as [db1 Hdel].
  - assert (H : is_Some (catalog (session (upgraded db) stmts) "dag_version")).
    { rewrite session_catalog. unfold catalog. by rewrite upgraded_lookup_dag_version. }
    unfold catalog in H. by apply fmap_is_Some in H.
  - intros name fk. rewrite (fks_of_catalog (upgraded db)) by apply session_catalog.
    intros [H|H]%upgraded_fks; [done|by apply (Hall name)].
  - destruct (downgrade_delete_empties db stmts db1 Hdel) as (_ & Hdc & Hsd).
    exists (downgraded db1).
    split; [exact (downgrade_spec _ db1 (session_post_migration db stmts Hpre) Hdel Hdc Hsd)|].
    split; [apply downgraded_lookup_dag_version|].
    unfold rows_of. by rewrite downgraded_lookup_dag_code, downgraded_lookup_serialized_dag.
Qed.

(** *** Upgrading from any live shape: [recreate="always"] with [copy_from] *)

Local Abbreviation upgradable := (upgradable ID_LEN naming_convention).

Lemma upgrade_dag_code_rebuilds db t :
  nc_pk naming_convention "dag_code" = "dag_code_pkey" →
  db !! "dag_code" = Some t →
  has_columns (tbl_schema t)
    (column_names (td_schema (old_dagcode_table naming_convention))) = true →
  tbl_rows t = [] →
  db !! "dag_version" = Some dag_version_table →
  nth 2 (upgrade_statements ID_LEN naming_convention) failing db
  = Some (<["dag_code" := {| tbl_schema := new_dagcode_schema; tbl_rows := [] |}]> db).
Proof.
  intros Hnc Ht Hs Hr Hdv. cbn [nth upgrade_statements].
  pose proof (old_dagcode_schema_eq Hnc) as Hold.
  rewrite (batch_alter_table_eq _ _ _ _ _ db t
             {| tbl_schema := td_schema (old_dagcode_table naming_convention);
                tbl_rows := [] |}
             {| tbl_schema := appended_dagcode_schema; tbl_rows := [] |}
             {| tbl_schema := new_dagcode_schema; tbl_rows := [] |} Ht).
  - done.
  - unfold rebase. rewrite Hs, Hr. reflexivity.
  - rewrite (apply_batch_local "dag_version" _ db {["dag_version" := dag_version_table]});
      [| local_ops | by rewrite Hdv, lookup_ctx].
    rewrite Hold. vm_compute. reflexivity.
  - rewrite Hold. vm_compute. reflexivity.
Qed.

Lemma upgrade_serialized_dag_rebuilds db t :
  nc_pk naming_convention "serialized_dag" = "serialized_dag_pkey" →
  db !! "serialized_dag" = Some t →
  has_columns (tbl_schema t)
    (column_names (td_schema (old_serialized_table ID_LEN naming_convention))) = true →
  tbl_rows t = [] →
  db !! "dag_version" = Some dag_version_table →
  nth 3 (upgrade_statements ID_LEN naming_convention) failing db
  = Some (<["serialized_dag" :=
             {| tbl_schema := new_serialized_schema; tbl_rows := [] |}]> db).
Proof.
  intros Hnc Ht Hs Hr Hdv. cbn [nth upgrade_statements].
  pose proof (old_serialized_schema_eq Hnc) as Hold.
  rewrite (batch_alter_table_eq _ _ _ _ _ db t
             {| tbl_schema := td_schema (old_serialized_table ID_LEN naming_convention);
                tbl_rows := [] |}
             {| tbl_schema := new_serialized_schema; tbl_rows := [] |}
             {| tbl_schema := new_serialized_schema; tbl_rows := [] |} Ht).
  - done.
  - unfold rebase. rewrite Hs, Hr. reflexivity.
  - rewrite (apply_batch_local "dag_version" _ db {["dag_version" := dag_version_table]});
      [| local_ops | by rewrite Hdv, lookup_ctx].
    rewrite Hold. vm_compute. reflexivity.
  - rewrite Hold. vm_compute. reflexivity.
Qed.

Lemma upgrade_from_descriptions db :
  upgradable db → upgrade ID_LEN naming_convention db = Some (upgraded db).
Proof.
  intros [Hn1 Hn2 (sdc & (tdc & Hdc & <-)%catalog_Some & Hcdc & _)
            (ssd & (tsd & Hsd & <-)%catalog_Some & Hcsd & _) Hdv
            (sdag & (tdag & Hdag & <-)%catalog_Some & Hdagid)
            (sti & (tti & Hti & <-)%catalog_Some & Hticol & Htifk)
            (stih & (ttih & Htih & <-)%catalog_Some & Htihcol)
            (sdr & (tdr & Hdr & <-)%catalog_Some & Hdrcol) Hi1 Hi2 Hi3].
  unfold upgrade, upgrade_statements.
  erewrite run_cons; [|exact (purge_spec db tdc tsd Hdc Hsd Hi1 Hi2)].
  erewrite run_cons.
  2:{ apply (upgrade_create_table_step _ tdag). all: first [done | by simplify_map_eq]. }
  erewrite run_cons.
  2:{ apply (upgrade_dag_code_rebuilds _ (with_rows tdc [])).
      all: first [done | by simplify_map_eq]. }
  erewrite run_cons.
  2:{ apply (upgrade_serialized_dag_rebuilds _ (with_rows tsd [])).
      all: first [done | by simplify_map_eq]. }
  erewrite run_cons.
  2:{ eapply (batch_alter_table_in_place _ _ _ _ _ tti); [by simplify_map_eq|reflexivity|].
      erewrite apply_batch_cons; [|by apply add_dag_version_id_eq].
      erewrite apply_batch_cons; [reflexivity|].
      apply (create_fk_dag_version_id_eq _ _ tti dag_version_table);
        [by simplify_map_eq|reflexivity|exact Htifk]. }
  erewrite run_cons.
  2:{ eapply (batch_alter_table_in_place _ _ _ _ _ ttih); [by simplify_map_eq|reflexivity|].
      erewrite apply_batch_cons; [reflexivity|by apply add_dag_version_id_eq]. }
  erewrite run_cons.
  2:{ eapply (batch_alter_table_in_place _ _ _ _ _ tdr); [by simplify_map_eq|reflexivity|].
      erewrite apply_batch_cons; [reflexivity|by apply drop_column_eq]. }
  simpl. f_equal. unfold upgraded, name_pk. apply map_eq. intros k.
  by_table k ["dag_run"; "task_instance_history"; "task_instance"; "serialized_dag";
              "dag_code"; "dag_version"]; lookups; try done.
  - by rewrite Hdr.
  - by rewrite Htih.
  - by rewrite Hti.
Qed.

(** X9: [upgrade()] does not depend on the live shape of dag_code and
    serialized_dag beyond the columns [old_dagcode_table] and
    [old_serialized_table] name and the name of the primary key.  With
    [recreate="always"] and [copy_from] the batch rebuilds each table from
    the description: as long as the live tables hold the described columns
    and carry their primary key under its conventional name, [upgrade()]
    succeeds and both tables come out with the same catalog entry, so any
    further column, index or constraint of the live tables is gone.  The
    columns of dag_code come out in the order [fileloc], [id],
    [last_updated], [source_code], [dag_version_id], [source_code_hash],
    [dag_id], [created_at]: [id] was asked for before [fileloc_hash],
    which the batch then drops. *)
Theorem upgrade_rebuilds_from_descriptions db :
  upgradable db →
  ∃ post,
    upgrade ID_LEN naming_convention db = Some post
    ∧ catalog post "dag_code" = Some new_dagcode_schema
    ∧ column_names <$> catalog post "dag_code"
      = Some ["fileloc"; "id"; "last_updated"; "source_code"; "dag_version_id";
              "source_code_hash"; "dag_id"; "created_at"]
    ∧ catalog post "serialized_dag" = Some new_serialized_schema
    ∧ rows_of post "dag_code" = []
    ∧ rows_of post "serialized_dag" = [].
Proof.
  intros Hup. exists (upgraded db). split; [by apply upgrade_from_descriptions|].
  unfold catalog, rows_of.
  by rewrite upgraded_lookup_dag_code, upgraded_lookup_serialized_dag.
Qed.

Lemma pre_migration_upgradable db : pre_migration db → upgradable db.
Proof.
  intros [Hn1 Hn2 Hdc Hsd Hdv Hdag Hti Htih Hdr Hi1 Hi2 Hi3].
  split; try done.
  - eexists. split; [exact Hdc|]. rewrite (old_dagcode_schema_eq Hn1). by split.
  - eexists. split; [exact Hsd|]. rewrite (old_serialized_schema_eq Hn2). by split.
Qed.

(** *** Upgrading again after a downgrade *)

Lemma downgraded_lookup_other db1 k :
  k ∉ ["dag_version"; "dag_run"; "serialized_dag"; "dag_code"; "task_instance";
       "task_instance_history"] →
  downgraded db1 !! k = db1 !! k.
Proof.
  rewrite !not_elem_of_cons. intros (? & ? & ? & ? & ? & ? & _).
  unfold downgraded. by lookups.
Qed.

Lemma constrained_without name t :
  constrained (tbl_schema (without_column name t)) name = false.
Proof.
  unfold constrained. simpl. repeat (apply orb_false_iff; split).
  - unfold pk_remove. destruct (ts_pk (tbl_schema t)) as [pk|]; [|done].
    destruct (mentions name (pk_columns pk)) eqn:Hm; [|by simpl].
    destruct (List.filter _ (pk_columns pk)) as [|c cs] eqn:Hf; [done|]. simpl.
    apply bool_decide_eq_false. rewrite <- Hf. intros [_ Hc]%elem_of_filter_bool.
    apply negb_true_iff, bool_decide_eq_false in Hc. done.
  - apply existsb_false_iff. intros u [_ Hu]%elem_of_filter_bool. by apply negb_true_iff.
  - apply existsb_false_iff. intros u [_ Hu]%elem_of_filter_bool. by apply negb_true_iff.
  - apply existsb_false_iff. intros u [_ Hu]%elem_of_filter_bool. by apply negb_true_iff.
Qed.

(** Adding [dag_hash] back and dropping it again gives the catalog entry
    the first drop left. *)
Lemma dag_hash_roundtrip t :
  has_column (tbl_schema t) "dag_hash" = false →
  constrained (tbl_schema t) "dag_hash" = false →
  tbl_schema (without_column "dag_hash" (with_dag_hash t)) = tbl_schema t.
Proof.
  intros Hcol Hcon.
  destruct (constrained_false _ _ Hcon) as (Hpk & Huq & Hfks & Hix).
  apply schema_eq; simpl; try done.
  rewrite List.filter_app, filter_absent_column by done. simpl. apply app_nil_r.
Qed.

Lemma catalog_lookup db k t : db !! k = Some t → catalog db k = Some (tbl_schema t).
Proof. unfold catalog. by intros ->. Qed.

Lemma no_inbound_catalog db name :
  no_inbound db name ↔
  ∀ k s fk, catalog db k = Some s → fk ∈ ts_fks s → fk_ref_table fk ≠ name.
Proof.
  unfold no_inbound, referenced_by. split.
  - intros Hno k s fk (tbl & Ht & <-)%catalog_Some Hfk.
    specialize (Hno k tbl Ht). simpl in Hno. rewrite existsb_false_iff in Hno.
    by apply (bool_decide_eq_false (fk_ref_table fk = name)), Hno.
  - intros H k tbl Ht. simpl. apply existsb_false_iff. intros fk Hfk.
    apply bool_decide_eq_false. by apply (H k _ fk (catalog_lookup _ _ _ Ht)).
Qed.

(** The catalog [downgrade()] leaves, table by table, against the one
    [upgrade()] started from. *)
Lemma downgraded_catalog db db1 :
  pre_migration db → roundtrip_ready db →
  (∀ k, catalog db1 k = catalog (upgraded db) k) →
  catalog (downgraded db1) "task_instance" = catalog db "task_instance"
  ∧ catalog (downgraded db1) "task_instance_history" = catalog db "task_instance_history"
  ∧ (∃ tdr, db !! "dag_run" = Some tdr
            ∧ catalog (downgraded db1) "dag_run"
              = Some (tbl_schema (with_dag_hash (without_column "dag_hash" tdr))))
  ∧ catalog (downgraded db1) "dag_code" = Some downgraded_dagcode_schema
  ∧ catalog (downgraded db1) "serialized_dag" = Some downgraded_serialized_schema
  ∧ downgraded db1 !! "dag_version" = None
  ∧ ∀ k, k ∉ ["dag_version"; "dag_run"; "serialized_dag"; "dag_code"; "task_instance";
              "task_instance_history"] →
         catalog (downgraded db1) k = catalog db k.
Proof.
  intros Hpre [(sti' & Hti' & Hticon) (stih' & Htih' & Htihcon) _] Hcat.
  destruct Hpre as [_ _ _ _ _ _
                      (sti & Hti & Hticol & Htifk) (stih & Htih & Htihcol)
                      (sdr & Hdr & Hdrcol) _ _ _].
  simplify_eq.
  apply catalog_Some in Hti as (tti & Hti & <-).
  apply catalog_Some in Htih as (ttih & Htih & <-).
  apply catalog_Some in Hdr as (tdr & Hdr & <-).
  pose proof (Hcat "task_instance") as C1.
  pose proof (Hcat "task_instance_history") as C2.
  pose proof (Hcat "dag_run") as C3.
  unfold catalog in C1, C2, C3.
  rewrite upgraded_lookup_task_instance, Hti in C1.
  rewrite upgraded_lookup_task_instance_history, Htih in C2.
  rewrite upgraded_lookup_dag_run, Hdr in C3.
  destruct (db1 !! "task_instance") as [t1|] eqn:E1; [|done].
  destruct (db1 !! "task_instance_history") as [t2|] eqn:E2; [|done].
  destruct (db1 !! "dag_run") as [t3|] eqn:E3; [|done].
  simpl in C1, C2, C3. injection C1 as C1. injection C2 as C2. injection C3 as C3.
  split; [|split; [|split; [|split; [|split; [|split]]]]].
  - unfold catalog. rewrite downgraded_lookup_task_instance, E1, Hti. simpl. f_equal.
    rewrite <- (dag_version_id_roundtrip "task_instance_dag_version_id_fkey"
                 [fk_to_dag_version "task_instance_dag_version_id_fkey"] tti
                 Hticol Hticon Htifk (or_intror eq_refl)).
    unfold without_column, without_fk, set_schema. simpl. by rewrite C1.
  - unfold catalog. rewrite downgraded_lookup_task_instance_history, E2, Htih. simpl. f_equal.
    rewrite <- (plain_dag_version_id_roundtrip ttih Htihcol Htihcon).
    unfold without_column. simpl. by rewrite C2.
  - exists tdr. split; [done|]. unfold catalog. rewrite downgraded_lookup_dag_run, E3. simpl.
    f_equal. unfold with_dag_hash. simpl. by rewrite C3.
  - unfold catalog. by rewrite downgraded_lookup_dag_code.
  - unfold catalog. by rewrite downgraded_lookup_serialized_dag.
  - apply downgraded_lookup_dag_version.
  - intros k Hk. unfold catalog at 1. rewrite (downgraded_lookup_other _ _ Hk).
    fold (catalog db1 k). rewrite Hcat. unfold catalog. rewrite upgraded_lookup_other; [done|].
    rewrite !not_elem_of_cons in Hk. destruct Hk as (? & ? & ? & ? & ? & ? & _). not_listed.
Qed.

Lemma downgraded_upgradable db db1 :
  pre_migration db → roundtrip_ready db →
  (∀ k, catalog db1 k = catalog (upgraded db) k) →
  upgradable (downgraded db1).
Proof.
  intros Hpre Hrt Hcat.
  destruct (downgraded_catalog db db1 Hpre Hrt Hcat)
    as (Cti & Ctih & (tdr & Hdr & Cdr) & Cdc & Csd & Cdv & Cother).
  assert (Hsub : ∀ k s fk, catalog (downgraded db1) k = Some s → fk ∈ ts_fks s →
                           ∃ s0, catalog db k = Some s0 ∧ fk ∈ ts_fks s0).
  { intros k s fk Hs Hfk.
    by_table k ["dag_version"; "dag_run"; "serialized_dag"; "dag_code"; "task_instance";
                "task_instance_history"].
    - unfold catalog in Hs. by rewrite Cdv in Hs.
    - rewrite Cdr in Hs. injection Hs as <-. simpl in Hfk.
      apply elem_of_filter_bool in Hfk as [Hfk _].
      exists (tbl_schema tdr). split; [by apply catalog_lookup|done].
    - rewrite Csd in Hs. injection Hs as <-. by apply elem_of_nil in Hfk.
    - rewrite Cdc in Hs. injection Hs as <-. by apply elem_of_nil in Hfk.
    - rewrite Cti in Hs. eauto.
    - rewrite Ctih in Hs. eauto.
    - rewrite Cother in Hs by not_listed. eauto. }
  assert (Hin : ∀ name, no_inbound db name → no_inbound (downgraded db1) name).
  { intros name Hno. apply no_inbound_catalog. intros k s fk Hs Hfk.
    destruct (Hsub k s fk Hs Hfk) as (s0 & Hs0 & Hfk0).
    by apply (proj1 (no_inbound_catalog db name) Hno k s0 fk). }
  destruct Hpre as [Hn1 Hn2 _ _ _ Hdag Hti Htih _ Hi1 Hi2 Hi3].
  split; try done.
  - exists downgraded_dagcode_schema. split; [done|].
    rewrite (old_dagcode_schema_eq Hn1). by split.
  - exists downgraded_serialized_schema. split; [done|].
    rewrite (old_serialized_schema_eq Hn2). by split.
  - by rewrite Cother by not_listed.
  - by rewrite Cti.
  - by rewrite Ctih.
  - eexists. split; [exact Cdr|]. apply bool_decide_eq_true. unfold column_names. simpl.
    rewrite fmap_app. apply elem_of_app. right. apply list_elem_of_here.
  - by apply Hin.
  - by apply Hin.
  - by apply Hin.
Qed.

Lemma without_column_schema name t t' :
  tbl_schema t = tbl_schema t' →
  tbl_schema (without_column name t) = tbl_schema (without_column name t').
Proof. unfold without_column. simpl. by intros ->. Qed.

Lemma with_dag_version_id_schema extra t t' :
  tbl_schema t = tbl_schema t' →
  tbl_schema (with_dag_version_id extra t) = tbl_schema (with_dag_version_id extra t').
Proof. unfold with_dag_version_id. simpl. by intros ->. Qed.

(** X10: the migration can be applied again.  After [upgrade()], any
    INSERT and DELETE statements and a successful [downgrade()], a second
    [upgrade()] succeeds, although [downgrade()] left the columns of the
    artifact tables in another order, and it gives every table the catalog
    entry the first [upgrade()] gave it; dag_version and the artifact
    tables are empty again. *)
Theorem upgrade_after_downgrade db post stmts back :
  pre_migration db → roundtrip_ready db →
  upgrade ID_LEN naming_convention db = Some post →
  downgrade naming_convention (session post stmts) = Some back →
  ∃ post',
    upgrade ID_LEN naming_convention back = Some post'
    ∧ (∀ name, catalog post' name = catalog post name)
    ∧ rows_of post' "dag_version" = []
    ∧ rows_of post' "dag_code" = []
    ∧ rows_of post' "serialized_dag" = [].
Proof.
  intros Hpre Hrt Hup Hdown. rewrite (upgrade_spec db Hpre) in Hup. injection Hup as <-.
  destruct (downgrade_inv db stmts back Hpre Hdown) as (db1 & Hdel & ->).
  assert (Hcat : ∀ k, catalog db1 k = catalog (upgraded db) k).
  { intros k. rewrite <- (session_catalog (upgraded db) stmts). unfold catalog.
    exact (delete_where_schema _ _ _ _ k Hdel). }
  exists (upgraded (downgraded db1)).
  split; [by apply upgrade_from_descriptions, (downgraded_upgradable db)|].
  split; [|unfold rows_of;
           by rewrite upgraded_lookup_dag_version, upgraded_lookup_dag_code,
                upgraded_lookup_serialized_dag].
  destruct (downgraded_catalog db db1 Hpre Hrt Hcat)
    as (Cti & Ctih & (tdr & Hdr & Cdr) & _ & _ & _ & Cother).
  intros k. unfold catalog in *.
  by_table k ["dag_run"; "task_instance_history"; "task_instance"; "serialized_dag";
              "dag_code"; "dag_version"].
  - rewrite !upgraded_lookup_dag_run, Hdr.
    destruct (downgraded db1 !! "dag_run") as [t|]; [|done].
    injection Cdr as Cdr. cbn [fmap option_fmap option_map]. f_equal.
    rewrite (without_column_schema _ t (with_dag_hash (without_column "dag_hash" tdr)) Cdr).
    apply dag_hash_roundtrip; [apply has_column_without|apply constrained_without].
  - rewrite !upgraded_lookup_task_instance_history.
    destruct (downgraded db1 !! "task_instance_history") as [t|],
             (db !! "task_instance_history") as [t'|]; try done.
    injection Ctih as Ctih. cbn [fmap option_fmap option_map]. f_equal.
    by apply with_dag_version_id_schema.
  - rewrite !upgraded_lookup_task_instance.
    destruct (downgraded db1 !! "task_instance") as [t|],
             (db !! "task_instance") as [t'|]; try done.
    injection Cti as Cti. cbn [fmap option_fmap option_map]. f_equal.
    by apply with_dag_version_id_schema.
  - by rewrite !upgraded_lookup_serialized_dag.
  - by rewrite !upgraded_lookup_dag_code.
  - by rewrite !upgraded_lookup_dag_version.
  - rewrite !upgraded_lookup_other by not_listed. apply Cother.
    not_listed.
Qed.

(** *** What [downgrade()] leaves alone *)




End Verification.

Ltac decide_by_evaluation :=
  unfold no_inbound; apply (bool_decide_unpack _); vm_compute; exact I.

Lemma sample_db_pre_migration : pre_migration 250 sample_naming_convention sample_db.
Proof.
  split; try (vm_compute; reflexivity);
    try (eexists; repeat split; vm_compute; reflexivity);
    decide_by_evaluation.
Qed.

Lemma sample_db_roundtrip_ready : roundtrip_ready sample_db.
Proof.
  split; eexists; (split; [vm_compute; reflexivity|]); repeat split;
    try (vm_compute; reflexivity); decide_by_evaluation.
Qed.

Lemma sample_upgrade :
  upgrade 250 sample_naming_convention sample_db = Some (upgraded 250 sample_db).
Proof. vm_compute. reflexivity. Qed.

(** * The properties on the sample database *)

Lemma sample_delete_v1 :
  delete_where "dag_version" (has_id "v1") sample_versioned = Some sample_without_v1.
Proof. vm_compute. reflexivity. Qed.

Lemma sample_opening_delete :
  op_execute (sa_text (DELETE_FROM "dag_version")) sample_versioned = Some sample_emptied.
Proof. vm_compute. reflexivity. Qed.

Lemma sample_dag_code_before : length (rows_of sample_db "dag_code") = 1%nat.
Proof. vm_compute. reflexivity. Qed.

Lemma sample_dag_code_versioned : rows_of sample_versioned "dag_code" = [sample_code_row "c1"].
Proof. vm_compute. reflexivity. Qed.

Lemma sample_dag_version_versioned :
  rows_of sample_versioned "dag_version" = [version_row "v1" 1; version_row "v2" 2].
Proof. vm_compute. reflexivity. Qed.

Lemma sample_purge : _delete_serdag_and_code sample_db = Some sample_purged.
Proof. vm_compute. reflexivity. Qed.

Lemma sample_downgrade :
  downgrade sample_naming_convention sample_versioned = Some sample_downgraded.
Proof. vm_compute. reflexivity. Qed.

Lemma sample_task_instances :
  length (rows_of sample_db "task_instance") = 1%nat
  ∧ length (rows_of sample_versioned "task_instance") = 2%nat
  ∧ length (rows_of sample_downgraded "task_instance") = 1%nat.
Proof. vm_compute. done. Qed.

Lemma sample_keys_cascade name fk :
  fk ∈ fks_of sample_db name → fk_ondelete fk = CASCADE.
Proof.
  assert (H : map_Forall
                (λ _ tbl, forallb (λ k, bool_decide (fk_ondelete k = CASCADE))
                            (ts_fks (tbl_schema tbl)) = true) sample_db).
  { apply (bool_decide_unpack _). vm_compute. exact I. }
  unfold fks_of. destruct (sample_db !! name) as [tbl|] eqn:E;
    [|by intros ?%elem_of_nil].
  simpl. intros Hfk. specialize (H name tbl E). simpl in H.
  rewrite forallb_elem_of in H. specialize (H fk Hfk). by apply bool_decide_eq_true in H.
Qed.

Lemma sample_keys_unrefusing name fk (r p : Row) :
  fk ∈ fks_of sample_db name → fk_ondelete fk = NO_ACTION →
  r ∈ rows_of sample_versioned name → p ∈ rows_of sample_versioned (fk_ref_table fk) →
  references fk r p = false.
Proof. intros Hfk Hact. by rewrite (sample_keys_cascade name fk Hfk) in Hact. Qed.


Lemma sample_drifted_upgradable : upgradable 250 sample_naming_convention sample_drifted.
Proof.
  split; try (vm_compute; reflexivity);
    try (eexists; repeat split; vm_compute; reflexivity);
    decide_by_evaluation.
Qed.

Lemma sample_drifted_dag_code :
  ∃ s, catalog sample_drifted "dag_code" = Some s
       ∧ has_column s "reviewed_by" = true
       ∧ length (ts_indexes s) = 1%nat.
Proof. eexists. repeat split; vm_compute; reflexivity. Qed.

Lemma sample_bare_version_created_at : field sample_bare_version "created_at" = VNull.
Proof. vm_compute. reflexivity. Qed.

Lemma dag_not_listed :
  "dag" ∉ ["dag_version"; "dag_run"; "serialized_dag"; "dag_code"; "task_instance";
           "task_instance_history"].
Proof. rewrite !not_elem_of_cons. repeat split; first [done | apply not_elem_of_nil]. Qed.

Lemma sample_delete_dag :
  delete_where "dag" (has_dag_id "etl_daily") sample_versioned = Some sample_without_dag.
Proof. vm_compute. reflexivity. Qed.

Lemma sample_without_dag_rows :
  rows_of sample_without_dag "dag" = []
  ∧ rows_of sample_without_dag "dag_version" = []
  ∧ rows_of sample_without_dag "dag_code" = []
  ∧ rows_of sample_without_dag "serialized_dag" = []
  ∧ length (rows_of sample_without_dag "task_instance") = 1%nat.
Proof. vm_compute. done. Qed.

Lemma sample_dag_table : is_Some (sample_versioned !! "dag").
Proof. apply (bool_decide_unpack _). vm_compute. exact I. Qed.

Lemma sample_execution_rows :
  length (rows_of sample_db "task_instance") = 1%nat
  ∧ length (rows_of (upgraded 250 sample_db) "task_instance") = 1%nat
  ∧ length (rows_of (upgraded 250 sample_db) "task_instance_history") = 1%nat
  ∧ length (rows_of (upgraded 250 sample_db) "dag_run") = 1%nat.
Proof. vm_compute. done. Qed.

(** C1 on the sample: dag_code holds one row for version v1, and a second
    one is rejected. *)
Lemma one_artifact_per_version_on_sample :
  pre_migration 250 sample_naming_convention sample_db
  ∧ "dag_code" ∈ ["serialized_dag"; "dag_code"]
  ∧ VStr "v1" ≠ VNull
  ∧ sample_code_row "c1" ∈ rows_of sample_versioned "dag_code"
  ∧ (length (List.filter (λ r, bool_decide (field r "dag_version_id" = VStr "v1"))
               (rows_of sample_versioned "dag_code")) ≤ 1)%nat
  ∧ insert_row "dag_code" (sample_code_row "c2") sample_versioned = None.
Proof.
  assert (Hin : "dag_code" ∈ ["serialized_dag"; "dag_code"])
    by apply list_elem_of_further, list_elem_of_here.
  assert (Hv : VStr "v1" ≠ VNull) by discriminate.
  assert (Hx : sample_code_row "c1" ∈ rows_of sample_versioned "dag_code")
    by (rewrite sample_dag_code_versioned; apply list_elem_of_here).
  split; [exact sample_db_pre_migration|]. split; [exact Hin|]. split; [exact Hv|].
  split; [exact Hx|].
  destruct (one_artifact_per_version 250 sample_naming_convention sample_db sample_session
              "dag_code" (VStr "v1") sample_db_pre_migration Hin Hv)
    as (post & Hup & _ & Hcount & Hdup).
  rewrite sample_upgrade in Hup. injection Hup as <-.
  split; [exact Hcount|].
  apply (Hdup (sample_code_row "c2") (sample_code_row "c1") Hx);
    vm_compute; reflexivity.
Defined.

(** C2 on the sample. *)
Lemma downgrade_after_upgrade_on_sample :
  pre_migration 250 sample_naming_convention sample_db
  ∧ roundtrip_ready sample_db
  ∧ length (rows_of sample_db "dag_code") = 1%nat
  ∧ ∃ post back,
      upgrade 250 sample_naming_convention sample_db = Some post
      ∧ downgrade sample_naming_convention post = Some back
      ∧ catalog back "dag_version" = catalog sample_db "dag_version"
      ∧ rows_of back "dag_code" = [].
Proof.
  split; [exact sample_db_pre_migration|]. split; [exact sample_db_roundtrip_ready|].
  split; [exact sample_dag_code_before|].
  destruct (downgrade_after_upgrade_restores_schema 250 sample_naming_convention sample_db
              sample_db_pre_migration sample_db_roundtrip_ready)
    as (post & back & Hup & Hdown & _ & Hdv & Hdc & _).
  exists post, back. split; [exact Hup|]. split; [exact Hdown|]. split; [exact Hdv|exact Hdc].
Defined.

(** C3 on the sample. *)
Lemma upgrade_purges_first_on_sample :
  pre_migration 250 sample_naming_convention sample_db
  ∧ length (rows_of sample_db "dag_code") = 1%nat
  ∧ ∃ purged post,
      _delete_serdag_and_code sample_db = Some purged
      ∧ rows_of purged "dag_code" = []
      ∧ catalog purged "dag_version" = None
      ∧ upgrade 250 sample_naming_convention sample_db = Some post
      ∧ rows_of post "dag_code" = [].
Proof.
  split; [exact sample_db_pre_migration|]. split; [exact sample_dag_code_before|].
  destruct (upgrade_purges_first 250 sample_naming_convention sample_db
              sample_db_pre_migration)
    as (_ & purged & post & Hp & _ & H1 & _ & H2 & _ & H3 & _ & H4).
  exists purged, post.
  split; [exact Hp|]. split; [exact H1|]. split; [exact H2|]. split; [exact H3|exact H4].
Defined.

(** C4 on the sample: version 1 of etl_daily is stored once, and a second
    row with that number is rejected. *)
Lemma version_number_unique_on_sample :
  pre_migration 250 sample_naming_convention sample_db
  ∧ VStr "etl_daily" ≠ VNull ∧ VInt 1 ≠ VNull
  ∧ version_row "v1" 1 ∈ rows_of sample_versioned "dag_version"
  ∧ (length (List.filter
               (λ r, bool_decide (field r "dag_id" = VStr "etl_daily"
                                  ∧ field r "version_number" = VInt 1))
               (rows_of sample_versioned "dag_version")) ≤ 1)%nat
  ∧ insert_row "dag_version" (version_row "v9" 1) sample_versioned = None.
Proof.
  assert (Hd : VStr "etl_daily" ≠ VNull) by discriminate.
  assert (Hn : VInt 1 ≠ VNull) by discriminate.
  assert (Hx : version_row "v1" 1 ∈ rows_of sample_versioned "dag_version")
    by (rewrite sample_dag_version_versioned; apply list_elem_of_here).
  split; [exact sample_db_pre_migration|]. split; [exact Hd|]. split; [exact Hn|].
  split; [exact Hx|].
  destruct (version_number_unique_per_dag 250 sample_naming_convention sample_db
              sample_session (VStr "etl_daily") (VInt 1) sample_db_pre_migration Hd Hn)
    as (post & Hup & _ & Hcount & Hdup).
  rewrite sample_upgrade in Hup. injection Hup as <-.
  split; [exact Hcount|].
  apply (Hdup (version_row "v9" 1) (version_row "v1" 1) Hx); vm_compute; reflexivity.
Defined.

(** C5 as stated fails on the sample: after [upgrade()] no foreign key of
    task_instance_history targets dag_version, while task_instance has
    one. *)
Lemma task_instance_history_has_no_version_key :
  ∃ post,
    upgrade 250 sample_naming_convention sample_db = Some post
    ∧ existsb (λ fk, bool_decide (fk_ref_table fk = "dag_version"))
        (fks_of post "task_instance_history") = false
    ∧ existsb (λ fk, bool_decide (fk_ref_table fk = "dag_version"))
        (fks_of post "task_instance") = true.
Proof.
  exists (upgraded 250 sample_db). split; [exact sample_upgrade|].
  split; vm_compute; reflexivity.
Qed.

(** C5 (as amended) on the sample. *)
Lemma upgrade_extends_execution_tables_on_sample :
  pre_migration 250 sample_naming_convention sample_db
  ∧ ∃ post ti ti' tih tih',
      upgrade 250 sample_naming_convention sample_db = Some post
      ∧ catalog sample_db "task_instance" = Some ti
      ∧ catalog post "task_instance" = Some ti'
      ∧ catalog sample_db "task_instance_history" = Some tih
      ∧ catalog post "task_instance_history" = Some tih'
      ∧ ts_columns ti' = ts_columns ti ++ [col "dag_version_id" (UUIDType false) true]
      ∧ ts_columns tih' = ts_columns tih ++ [col "dag_version_id" (UUIDType false) true]
      ∧ ts_fks tih' = ts_fks tih.
Proof.
  split; [exact sample_db_pre_migration|].
  destruct (upgrade_extends_execution_tables 250 sample_naming_convention sample_db
              sample_db_pre_migration)
    as (post & ti & ti' & tih & tih' & Hup & Hti & Hti' & Htih & Htih' & Hc1 & Hc2 & _ & Hfk & _).
  exists post, ti, ti', tih, tih'.
  split; [exact Hup|]. split; [exact Hti|]. split; [exact Hti'|]. split; [exact Htih|].
  split; [exact Htih'|]. split; [exact Hc1|]. split; [exact Hc2|exact Hfk].
Defined.

(** C6 as stated fails on the sample: deleting version v1 leaves the
    history row that ran on v1 in place, pointing at a version that no
    longer exists. *)
Lemma task_instance_history_reference_dangles :
  ∃ post db',
    upgrade 250 sample_naming_convention sample_db = Some post
    ∧ delete_where "dag_version" (has_id "v1") (session post sample_session) = Some db'
    ∧ resolves (session post sample_session)
        "task_instance_history" "dag_version_id" "dag_version" "id" = true
    ∧ resolves db' "task_instance_history" "dag_version_id" "dag_version" "id" = false.
Proof.
  exists (upgraded 250 sample_db), sample_without_v1.
  split; [exact sample_upgrade|]. split; [exact sample_delete_v1|].
  split; vm_compute; reflexivity.
Qed.

(** C6 (as amended) on the sample: the dag has two versions, artifacts
    and a task instance on them; deleting the dag goes through and takes
    them all along. *)
Lemma delete_cascades_on_sample :
  pre_migration 250 sample_naming_convention sample_db
  ∧ upgrade 250 sample_naming_convention sample_db = Some (upgraded 250 sample_db)
  ∧ rows_of sample_versioned "dag_version" = [version_row "v1" 1; version_row "v2" 2]
  ∧ rows_of sample_versioned "dag_code" = [sample_code_row "c1"]
  ∧ length (rows_of sample_versioned "task_instance") = 2%nat
  ∧ is_Some (delete_where "dag" (has_dag_id "etl_daily")
               (session (upgraded 250 sample_db) sample_session))
  ∧ delete_where "dag" (has_dag_id "etl_daily")
      (session (upgraded 250 sample_db) sample_session) = Some sample_without_dag
  ∧ (∀ r, r ∈ rows_of sample_without_dag "dag_version" →
          field r "dag_id" ≠ VStr "etl_daily")
  ∧ resolves sample_without_dag "dag_code" "dag_version_id" "dag_version" "id" = true
  ∧ rows_of sample_without_dag "dag_version" = []
  ∧ rows_of sample_without_dag "dag_code" = []
  ∧ rows_of sample_without_dag "serialized_dag" = []
  ∧ length (rows_of sample_without_dag "task_instance") = 1%nat.
Proof.
  split; [exact sample_db_pre_migration|]. split; [exact sample_upgrade|].
  split; [exact sample_dag_version_versioned|].
  split; [exact sample_dag_code_versioned|].
  split; [exact (proj1 (proj2 sample_task_instances))|].
  destruct (delete_cascades_along_version_keys 250 sample_naming_convention sample_db
              (upgraded 250 sample_db) sample_session "dag" (has_dag_id "etl_daily")
              sample_db_pre_migration sample_upgrade)
    as [Hgoes Hleaves].
  split; [exact (Hgoes sample_dag_table sample_keys_unrefusing)|].
  split; [exact sample_delete_dag|].
  destruct (Hleaves sample_without_dag sample_delete_dag) as (_ & Hres & Hgone & _).
  split.
  { apply (Hgone eq_refl (VStr "etl_daily")).
    - intros H. inversion H.
    - intros p Hp. unfold has_dag_id. apply bool_decide_eq_true. exact Hp. }
  split; [apply Hres, list_elem_of_here|].
  destruct sample_without_dag_rows as (_ & H1 & H2 & H3 & H4).
  split; [exact H1|]. split; [exact H2|]. split; [exact H3|exact H4].
Defined.

(** C7 on the sample. *)
Lemma upgrade_rewrites_dag_code_on_sample :
  pre_migration 250 sample_naming_convention sample_db
  ∧ ∃ post after,
      upgrade 250 sample_naming_convention sample_db = Some post
      ∧ catalog post "dag_code" = Some after
      ∧ ts_pk after = Some {| pk_name := Some "dag_code_pkey"; pk_columns := ["id"] |}
      ∧ column after "dag_version_id" = Some (col "dag_version_id" (UUIDType false) false)
      ∧ column after "fileloc_hash" = None.
Proof.
  split; [exact sample_db_pre_migration|].
  destruct (upgrade_rewrites_dag_code 250 sample_naming_convention sample_db
              sample_db_pre_migration)
    as (post & before & after & Hup & _ & Hcat & _ & Hpk & _ & Hdv & _ & _ & _ & _ & _ & _ & Hgone).
  exists post, after.
  split; [exact Hup|]. split; [exact Hcat|]. split; [exact Hpk|]. split; [exact Hdv|exact Hgone].
Defined.

(** C8 on the sample. *)
Lemma downgrade_reverses_upgrade_on_sample :
  pre_migration 250 sample_naming_convention sample_db
  ∧ upgrade 250 sample_naming_convention sample_db = Some (upgraded 250 sample_db)
  ∧ op_execute (sa_text (DELETE_FROM "dag_version"))
      (session (upgraded 250 sample_db) sample_session) = Some sample_emptied
  ∧ sample_code_row "c1" ∈ rows_of sample_versioned "dag_code"
  ∧ rows_of sample_emptied "dag_code" = []
  ∧ ∃ back,
      downgrade sample_naming_convention sample_versioned = Some back
      ∧ catalog back "dag_version" = None
      ∧ rows_of back "dag_code" = []
      ∧ (∀ r, r ∈ rows_of back "dag_run" → field r "dag_hash" = VNull).
Proof.
  split; [exact sample_db_pre_migration|]. split; [exact sample_upgrade|].
  split; [exact sample_opening_delete|].
  split; [rewrite sample_dag_code_versioned; apply list_elem_of_here|].
  destruct (downgrade_reverses_upgrade 250 sample_naming_convention sample_db
              (upgraded 250 sample_db) sample_session sample_emptied
              sample_db_pre_migration sample_upgrade sample_opening_delete)
    as (_ & _ & Hdc & _ & back & ti & tih & dc & sd & dr & Hdown & _ & _ & _ & _ & _
        & _ & _ & _ & Hrows & _ & _ & _ & _ & _ & _ & _ & Hnull & Hdv).
  split; [exact Hdc|]. exists back.
  split; [exact Hdown|]. split; [exact Hdv|]. split; [exact Hrows|exact Hnull].
Defined.

(** C9 on the sample. *)
Lemma not_null_additions_on_sample :
  pre_migration 250 sample_naming_convention sample_db
  ∧ upgrade 250 sample_naming_convention sample_db = Some (upgraded 250 sample_db)
  ∧ op_execute (sa_text (DELETE_FROM "dag_version"))
      (session (upgraded 250 sample_db) sample_session) = Some sample_emptied
  ∧ length (rows_of sample_db "dag_code") = 1%nat
  ∧ run (tail (upgrade_statements 250 sample_naming_convention)) sample_db = None
  ∧ ∃ back, downgrade sample_naming_convention sample_versioned = Some back.
Proof.
  split; [exact sample_db_pre_migration|]. split; [exact sample_upgrade|].
  split; [exact sample_opening_delete|]. split; [exact sample_dag_code_before|].
  destruct (not_null_additions_are_safe 250 sample_naming_convention sample_db
              (upgraded 250 sample_db) sample_session sample_emptied
              sample_db_pre_migration sample_upgrade sample_opening_delete)
    as (_ & _ & _ & Hneed & _ & _ & back & _ & Hdown).
  split.
  - apply Hneed. left. intros Hnil. pose proof sample_dag_code_before as Hlen.
    rewrite Hnil in Hlen. discriminate Hlen.
  - exists back. exact Hdown.
Defined.

(** C10 on the sample. *)
Lemma upgrade_keeps_other_columns_on_sample :
  pre_migration 250 sample_naming_convention sample_db
  ∧ ∃ post dc dc',
      upgrade 250 sample_naming_convention sample_db = Some post
      ∧ catalog sample_db "dag_code" = Some dc
      ∧ catalog post "dag_code" = Some dc'
      ∧ is_Some (column dc "source_code")
      ∧ column dc' "source_code" = column dc "source_code".
Proof.
  split; [exact sample_db_pre_migration|].
  destruct (upgrade_keeps_other_columns 250 sample_naming_convention sample_db
              sample_db_pre_migration)
    as (post & dc & dc' & sd & sd' & Hup & Hdc & Hdc' & _ & _ & Hcols & _).
  exists post, dc, dc'. split; [exact Hup|]. split; [exact Hdc|]. split; [exact Hdc'|].
  apply Hcols. do 2 apply list_elem_of_further. apply list_elem_of_here.
Defined.

(** * The further properties on the sample database *)

(** X1 on the sample. *)
Lemma purge_is_idempotent_on_sample :
  _delete_serdag_and_code sample_db = Some sample_purged
  ∧ length (rows_of sample_db "dag_code") = 1%nat
  ∧ rows_of sample_purged "dag_code" = []
  ∧ _delete_serdag_and_code sample_purged = Some sample_purged.
Proof.
  split; [exact sample_purge|]. split; [exact sample_dag_code_before|].
  destruct (purge_empties_and_is_idempotent sample_db sample_purged sample_purge)
    as (_ & _ & _ & Hdc & _ & _ & Hagain).
  split; [exact Hdc|exact Hagain].
Defined.

(** X2 on the sample. *)
Lemma upgrade_rewrites_serialized_dag_on_sample :
  pre_migration 250 sample_naming_convention sample_db
  ∧ ∃ post after,
      upgrade 250 sample_naming_convention sample_db = Some post
      ∧ catalog post "serialized_dag" = Some after
      ∧ ts_pk after = Some {| pk_name := Some "serialized_dag_pkey"; pk_columns := ["id"] |}
      ∧ column after "fileloc" = None
      ∧ ts_indexes after = [].
Proof.
  split; [exact sample_db_pre_migration|].
  destruct (upgrade_rewrites_serialized_dag 250 sample_naming_convention sample_db
              sample_db_pre_migration)
    as (post & before & after & Hup & _ & Hcat & _ & Hpk & _ & _ & _ & _ & _ & _ & _ & _
        & Hgone & _ & _ & Hix).
  exists post, after.
  split; [exact Hup|]. split; [exact Hcat|]. split; [exact Hpk|]. split; [exact Hgone|exact Hix].
Defined.

(** X3 on the sample. *)
Lemma upgrade_adds_no_execution_data_on_sample :
  upgrade 250 sample_naming_convention sample_db = Some (upgraded 250 sample_db)
  ∧ length (rows_of (upgraded 250 sample_db) "task_instance") = 1%nat
  ∧ (∀ r, r ∈ rows_of (upgraded 250 sample_db) "task_instance" →
       ∃ r0, r0 ∈ rows_of sample_db "task_instance"
             ∧ r = <["dag_version_id" := VNull]> r0)
  ∧ catalog (upgraded 250 sample_db) "dag" = catalog sample_db "dag".
Proof.
  split; [exact sample_upgrade|].
  split; [exact (proj1 (proj2 sample_execution_rows))|].
  destruct (upgrade_adds_no_execution_data 250 sample_naming_convention sample_db
              (upgraded 250 sample_db) sample_upgrade)
    as (Hti & _ & _ & Hother).
  split; [exact Hti|]. exact (proj1 (Hother "dag" dag_not_listed)).
Defined.

(** X4 on the sample. *)
Lemma upgrade_is_not_repeatable_on_sample :
  upgrade 250 sample_naming_convention sample_db = Some (upgraded 250 sample_db)
  ∧ upgrade 250 sample_naming_convention (upgraded 250 sample_db) = None.
Proof.
  split; [exact sample_upgrade|].
  apply upgrade_is_not_repeatable. right. exists sample_db. exact sample_upgrade.
Defined.

(** X5 on the sample. *)
Lemma downgrade_is_not_repeatable_on_sample :
  downgrade sample_naming_convention sample_versioned = Some sample_downgraded
  ∧ downgrade sample_naming_convention sample_downgraded = None.
Proof.
  split; [exact sample_downgrade|].
  apply downgrade_is_not_repeatable. right. exists sample_versioned. exact sample_downgrade.
Defined.

(** X6 on the sample. *)
Lemma upgrade_creates_dag_version_on_sample :
  pre_migration 250 sample_naming_convention sample_db
  ∧ field sample_bare_version "created_at" = VNull
  ∧ ∃ post s,
      upgrade 250 sample_naming_convention sample_db = Some post
      ∧ catalog post "dag_version" = Some s
      ∧ rows_of post "dag_version" = []
      ∧ insert_row "dag_version" sample_bare_version (session post sample_session) = None.
Proof.
  split; [exact sample_db_pre_migration|].
  split; [exact sample_bare_version_created_at|].
  destruct (upgrade_creates_dag_version 250 sample_naming_convention sample_db
              sample_session sample_bare_version sample_db_pre_migration)
    as (post & s & Hup & _ & Hcat & Hrows & Hnames & _ & _ & Hnull & _ & _).
  exists post, s. split; [exact Hup|]. split; [exact Hcat|]. split; [exact Hrows|].
  apply (Hnull "created_at"); [|exact sample_bare_version_created_at].
  rewrite Hnames. do 3 apply list_elem_of_further. apply list_elem_of_here.
Defined.

(** X7 on the sample. *)
Lemma downgrade_deletes_versioned_on_sample :
  pre_migration 250 sample_naming_convention sample_db
  ∧ upgrade 250 sample_naming_convention sample_db = Some (upgraded 250 sample_db)
  ∧ downgrade sample_naming_convention (session (upgraded 250 sample_db) sample_session)
    = Some sample_downgraded
  ∧ length (rows_of sample_versioned "task_instance") = 2%nat
  ∧ length (rows_of sample_downgraded "task_instance") = 1%nat
  ∧ ∀ r, r ∈ rows_of sample_downgraded "task_instance" →
         ∃ r0, r0 ∈ rows_of sample_versioned "task_instance"
               ∧ field r0 "dag_version_id" = VNull
               ∧ r = delete "dag_version_id" r0.
Proof.
  split; [exact sample_db_pre_migration|]. split; [exact sample_upgrade|].
  split; [exact sample_downgrade|].
  split; [exact (proj1 (proj2 sample_task_instances))|].
  split; [exact (proj2 (proj2 sample_task_instances))|].
  exact (proj1 (downgrade_deletes_versioned_task_instances 250 sample_naming_convention
                  sample_db (upgraded 250 sample_db) sample_session sample_downgraded
                  sample_db_pre_migration sample_upgrade sample_downgrade)).
Defined.

(** X8 on the sample. *)
Lemma downgrade_succeeds_on_sample :
  pre_migration 250 sample_naming_convention sample_db
  ∧ (∀ name fk, fk ∈ fks_of sample_db name → fk_ondelete fk = CASCADE)
  ∧ upgrade 250 sample_naming_convention sample_db = Some (upgraded 250 sample_db)
  ∧ ∃ back,
      downgrade sample_naming_convention sample_versioned = Some back
      ∧ back !! "dag_version" = None.
Proof.
  split; [exact sample_db_pre_migration|]. split; [exact sample_keys_cascade|].
  split; [exact sample_upgrade|].
  destruct (downgrade_succeeds_when_keys_cascade 250 sample_naming_convention sample_db
              (upgraded 250 sample_db) sample_session
              sample_db_pre_migration sample_keys_cascade sample_upgrade)
    as (back & Hdown & Hdv & _).
  exists back. split; [exact Hdown|exact Hdv].
Defined.

(** X9 on the sample. *)
Lemma upgrade_rebuilds_on_drifted_sample :
  upgradable 250 sample_naming_convention sample_drifted
  ∧ (∃ s, catalog sample_drifted "dag_code" = Some s
          ∧ has_column s "reviewed_by" = true
          ∧ length (ts_indexes s) = 1%nat)
  ∧ ∃ post,
      upgrade 250 sample_naming_convention sample_drifted = Some post
      ∧ catalog post "dag_code" = Some new_dagcode_schema
      ∧ column_names <$> catalog post "dag_code"
        = Some ["fileloc"; "id"; "last_updated"; "source_code"; "dag_version_id";
                "source_code_hash"; "dag_id"; "created_at"].
Proof.
  split; [exact sample_drifted_upgradable|]. split; [exact sample_drifted_dag_code|].
  destruct (upgrade_rebuilds_from_descriptions 250 sample_naming_convention sample_drifted
              sample_drifted_upgradable)
    as (post & Hup & Hdc & Hcols & _).
  exists post. split; [exact Hup|]. split; [exact Hdc|exact Hcols].
Defined.

(** X10 on the sample. *)
Lemma upgrade_after_downgrade_on_sample :
  pre_migration 250 sample_naming_convention sample_db
  ∧ roundtrip_ready sample_db
  ∧ upgrade 250 sample_naming_convention sample_db = Some (upgraded 250 sample_db)
  ∧ downgrade sample_naming_convention (session (upgraded 250 sample_db) sample_session)
    = Some sample_downgraded
  ∧ ∃ post',
      upgrade 250 sample_naming_convention sample_downgraded = Some post'
      ∧ (∀ name, catalog post' name = catalog (upgraded 250 sample_db) name)
      ∧ rows_of post' "dag_code" = [].
Proof.
  split; [exact sample_db_pre_migration|]. split; [exact sample_db_roundtrip_ready|].
  split; [exact sample_upgrade|]. split; [exact sample_downgrade|].
  destruct (upgrade_after_downgrade 250 sample_naming_convention sample_db
              (upgraded 250 sample_db) sample_session sample_downgraded
              sample_db_pre_migration sample_db_roundtrip_ready sample_upgrade
              sample_downgrade)
    as (post' & Hup & Hcat & _ & Hdc & _).
  exists post'. split; [exact Hup|]. split; [exact Hcat|exact Hdc].
Defined.


(** * Properties of the licence check *)

Module check_license_facts.

Import check_license.

Lemma startswith_stops sub l c l2 :
  c ∉ sub → startswith sub (l ++ c :: l2) = startswith sub l.
Proof.
  revert l. induction sub as [|p sub IH]; intros l Hc; [by destruct l|].
  apply not_elem_of_cons in Hc as [Hne Hc]. destruct l as [|y l]; simpl.
  - rewrite (proj2 (N.eqb_neq p c)); [done|]. by intros ->.
  - by rewrite IH.
Qed.

Lemma contains_nil sub : sub ≠ [] → contains sub [] = false.
Proof. by destruct sub. Qed.

Lemma contains_cons sub c s :
  contains sub (c :: s) = startswith sub (c :: s) || contains sub s.
Proof. done. Qed.

(** A character that does not occur in [sub] cuts every search for
    [sub] in two. *)
Lemma contains_break sub l1 c l2 :
  sub ≠ [] → c ∉ sub →
  contains sub (l1 ++ c :: l2) = contains sub l1 || contains sub l2.
Proof.
  intros Hsub Hc. induction l1 as [|x l1 IH].
  - pose proof (startswith_stops sub [] c l2 Hc) as Hstop. rewrite app_nil_l in Hstop.
    rewrite app_nil_l, contains_cons, (contains_nil _ Hsub), Hstop. by destruct sub.
  - rewrite <- app_comm_cons, !contains_cons, IH.
    rewrite (app_comm_cons l1 (c :: l2) x), (startswith_stops sub (x :: l1) c l2 Hc).
    by rewrite orb_assoc.
Qed.

Lemma splitlines_from_end sub line :
  sub ≠ [] →
  existsb (contains sub) (splitlines_from line []) = contains sub (line ++ []).
Proof.
  intros Hsub. rewrite app_nil_r.
  destruct line; cbn [splitlines_from existsb];
    [symmetry; by apply contains_nil|by rewrite orb_false_r].
Qed.

(** Looking for [sub] line by line finds what looking through the whole
    text finds, as long as [sub] holds no line break. *)
Lemma splitlines_from_contains sub :
  sub ≠ [] → (∀ c, c ∈ sub → is_linebreak c = false) →
  ∀ n s line, (length s ≤ n)%nat →
    existsb (contains sub) (splitlines_from line s) = contains sub (line ++ s).
Proof.
  intros Hsub Hplain.
  assert (Hbreak : ∀ c, is_linebreak c = true → c ∉ sub).
  { intros c Hc Hin. rewrite (Hplain c Hin) in Hc. done. }
  induction n as [|n IH]; intros s line Hlen.
  - destruct s; [|simpl in Hlen; lia]. by apply splitlines_from_end.
  - destruct s as [|c rest]; [by apply splitlines_from_end|].
    simpl in Hlen. cbn [splitlines_from].
    destruct (is_linebreak c) eqn:Hc.
    + rewrite (contains_break sub line c rest Hsub (Hbreak c Hc)).
      cbn [existsb]. f_equal.
      destruct rest as [|c' rest']; [by rewrite (contains_nil _ Hsub)|].
      destruct ((c =? 13)%N && (c' =? 10)%N) eqn:Hcrlf.
      * apply andb_true_iff in Hcrlf as [_ Hlf]. apply N.eqb_eq in Hlf as ->.
        rewrite (IH rest' []) by (simpl in Hlen; lia).
        pose proof (contains_break sub [] 10%N rest' Hsub (Hbreak 10%N eq_refl)) as Hlf.
        rewrite app_nil_l in Hlf. by rewrite Hlf, (contains_nil _ Hsub).
      * apply (IH (c' :: rest') []). lia.
    + rewrite (IH rest (line ++ [c])) by lia. by rewrite <- app_assoc.
Qed.

Lemma marker_is_plain c : c ∈ lit "??" → is_linebreak c = false.
Proof.
  intros Hc. vm_compute in Hc.
  repeat (apply elem_of_cons in Hc as [->|Hc]; [done|]). by apply elem_of_nil in Hc.
Qed.

Lemma splitlines_contains_marker output :
  existsb (contains (lit "??")) (splitlines output) = contains (lit "??") output.
Proof.
  exact (splitlines_from_contains (lit "??") ltac:(done) marker_is_plain
           (length output) output [] (le_n _)).
Qed.

Lemma unknown_licences_nil output :
  unknown_licences output = [] ↔ contains (lit "??") output = false.
Proof.
  rewrite <- splitlines_contains_marker.
  unfold unknown_licences. generalize (splitlines output).
  intros lines. induction lines as [|l lines IH]; [done|]. simpl.
  destruct (contains (lit "??") l); simpl; [|exact IH]. split; discriminate.
Qed.

Lemma for_print_finishes (xs : list str) : (for_ xs print).2 = inr tt.
Proof. induction xs as [|x xs IH]; [done|]. simpl. exact IH. Qed.

Lemma bind_exit {A B} (m : io A) (k : A → io B) :
  (m ≫= k).2 = match m.2 with inl e => inl e | inr a => (k a).2 end.
Proof. by destruct m as [tr [e|a]]. Qed.

(** The way the script ends, read off the answers of its surroundings. *)
Lemma main_ends env :
  (main env).2 =
  match os_makedirs env (docs_html env) true with
  | Some e => inl (Uncaught e)
  | None =>
      match subprocess_run env (cmd env) with
      | inl e => inl (Uncaught e)
      | inr result =>
          if bool_decide (returncode result ≠ 0) then inl (SystemExit (returncode result))
          else if contains (lit "??") (stdout result) then inl (SystemExit 1)
          else inr tt
      end
  end.
Proof.
  unfold main. rewrite bind_exit. unfold makedirs at 1. cbn [snd].
  destruct (os_makedirs env (docs_html env) true) as [e|]; [done|].
  rewrite !bind_exit. cbn [snd print]. unfold run at 1. cbn [snd].
  destruct (subprocess_run env (cmd env)) as [e|result]; [done|].
  rewrite bind_exit.
  destruct (bool_decide (returncode result ≠ 0)).
  { by rewrite !bind_exit. }
  cbn [snd mret io_ret].
  destruct (contains (lit "??") (stdout result)) eqn:Hq.
  - rewrite bool_decide_eq_true_2.
    + rewrite !bind_exit. cbn [snd print]. by rewrite for_print_finishes.
    + intros Hnil. apply unknown_licences_nil in Hnil. congruence.
  - rewrite bool_decide_eq_false_2; [done|].
    intros Hne. apply Hne. by apply unknown_licences_nil.
Qed.

(** X12: the script runs to its end, without [sys.exit] and without an
    uncaught exception, exactly when [os.makedirs] does not raise,
    [subprocess.run] returns a result with [returncode] 0, and the text
    ["??"] occurs nowhere in the captured output.  Searching the output
    line by line, as the script does, and searching it as a whole come to
    the same: a line break is never part of ["??"]. *)
Theorem check_passes_iff env :
  (main env).2 = inr tt ↔
  os_makedirs env (docs_html env) true = None
  ∧ ∃ result,
      subprocess_run env (cmd env) = inr result
      ∧ returncode result = 0
      ∧ contains (lit "??") (stdout result) = false.
Proof.
  rewrite main_ends. split.
  - destruct (os_makedirs env (docs_html env) true); [done|].
    destruct (subprocess_run env (cmd env)) as [e|result]; [done|].
    destruct (bool_decide (returncode result ≠ 0)) eqn:Hrc; [done|].
    destruct (contains (lit "??") (stdout result)) eqn:Hq; [done|].
    intros _. split; [done|]. exists result. repeat split; try done.
    apply bool_decide_eq_false in Hrc. by apply dec_stable.
  - intros (-> & result & -> & Hrc & ->). by rewrite bool_decide_eq_false_2 by (by intros []).
Qed.

(** X13: when the script leaves through [sys.exit(code)], [code] is never
    0.  Either RAT itself failed, and [code] is its non-zero return code
    whatever the output holds; or RAT returned 0, the output holds ["??"],
    and [code] is 1. *)
Theorem check_exit_code env code :
  (main env).2 = inl (SystemExit code) →
  code ≠ 0
  ∧ ∃ result,
      subprocess_run env (cmd env) = inr result
      ∧ (returncode result ≠ 0 ∧ code = returncode result
         ∨ returncode result = 0 ∧ code = 1
           ∧ contains (lit "??") (stdout result) = true).
Proof.
  rewrite main_ends.
  destruct (os_makedirs env (docs_html env) true); [done|].
  destruct (subprocess_run env (cmd env)) as [e|result]; [done|].
  destruct (bool_decide (returncode result ≠ 0)) eqn:Hrc.
  - intros [= <-]. apply bool_decide_eq_true in Hrc. split; [done|].
    exists result. split; [done|]. by left.
  - apply bool_decide_eq_false in Hrc. apply dec_stable in Hrc.
    destruct (contains (lit "??") (stdout result)) eqn:Hq; [|done].
    intros [= <-]. split; [done|]. exists result. split; [done|]. by right.
Qed.

Lemma sample_run_exits : (main (sample_env 0 sample_report)).2 = inl (SystemExit 1).
Proof. vm_compute. reflexivity. Qed.

(** X13 on the sample run. *)
Lemma check_exit_code_on_sample :
  (main (sample_env 0 sample_report)).2 = inl (SystemExit 1)
  ∧ 1 ≠ 0
  ∧ ∃ result,
      subprocess_run (sample_env 0 sample_report) (cmd (sample_env 0 sample_report))
      = inr result
      ∧ (returncode result ≠ 0 ∧ 1 = returncode result
         ∨ returncode result = 0 ∧ 1 = 1
           ∧ contains (lit "??") (stdout result) = true).
Proof.
  split; [exact sample_run_exits|].
  exact (check_exit_code (sample_env 0 sample_report) 1 sample_run_exits).
Defined.

End check_license_facts.
